(** * OpenPSX2AmigaPadAdapter: a model of [firmware/PS2_2_CD32.ino]

    The sketch is embedded statement by statement in a small state monad over
    a [World] that holds the sketch's globals, the pin registers of the
    microcontroller and the environment the sketch reads (the external line
    levels and the successive readings of the millisecond counter).

    Integer types follow the AVR target: [byte] is 8 bits, [int], [word] and
    [unsigned int] are 16 bits, [long] and [unsigned long] are 32 bits.  All
    integers are [Z] with the wrap-around written out. *)

From Stdlib Require Import ZArith List Bool Lia.
Import ListNotations.
Local Open Scope Z_scope.

(** ** Machine integers *)

Definition to_byte (z : Z) : Z := z mod 256.
Definition to_uint (z : Z) : Z := z mod 65536.
Definition to_ulong (z : Z) : Z := z mod 4294967296.

(** [~x] on an [unsigned int] ([word]) operand. *)
Definition bitnot_uint (z : Z) : Z := to_uint (Z.lnot z).

(** C's [!x] on an integer, and the integer value of a C condition. *)
Definition lnot_int (z : Z) : Z := if z =? 0 then 1 else 0.
Definition of_bool (b : bool) : Z := if b then 1 else 0.

(** Arduino's [abs] macro: [((x)>0?(x):-(x))]. *)
Definition arduino_abs (x : Z) : Z := if x >? 0 then x else - x.

(** Arduino's [map] (WMath.cpp), in [long] arithmetic with C's truncating
    division:
    [(x - in_min) * (out_max - out_min) / (in_max - in_min) + out_min]. *)
Definition arduino_map (x in_min in_max out_min out_max : Z) : Z :=
  Z.quot ((x - in_min) * (out_max - out_min)) (in_max - in_min) + out_min.

(** ** Settings of the sketch *)

Definition PIN_UP : Z := 4.
Definition PIN_DOWN : Z := 5.
Definition PIN_LEFT : Z := 6.
Definition PIN_RIGHT : Z := 7.
Definition PIN_BTN1 : Z := 3.
Definition PIN_BTN2 : Z := 8.
Definition PIN_PADMODE : Z := 2.
Definition PIN_BTNREGOUT : Z := PIN_BTN2.
Definition PIN_BTNREGCLK : Z := PIN_BTN1.
Definition ANALOG_IDLE_VALUE : Z := 127.
Definition ANALOG_DEAD_ZONE : Z := 65.
Definition MOUSE_SLOW_DELTA : Z := 60.
Definition MOUSE_FAST_DELTA : Z := 6.
(** [A1] and [A0] in the pin numbering of the ATmega328 boards. *)
Definition PIN_LED_PAD_OK : Z := 15.
Definition PIN_LED_MODE_CD32 : Z := 14.
Definition TIMEOUT_CD32_MODE : Z := 200.

Definition LOW : Z := 0.
Definition HIGH : Z := 1.

Inductive PadMode := MODE_JOYSTICK | MODE_MOUSE | MODE_CD32.

Definition PadMode_eqb (a b : PadMode) : bool :=
  match a, b with
  | MODE_JOYSTICK, MODE_JOYSTICK | MODE_MOUSE, MODE_MOUSE
  | MODE_CD32, MODE_CD32 => true
  | _, _ => false
  end.

(** Button bits for CD32 mode ([1U << n], of type [word]). *)
Definition BTN_BLUE : Z := Z.shiftl 1 0.
Definition BTN_RED : Z := Z.shiftl 1 1.
Definition BTN_YELLOW : Z := Z.shiftl 1 2.
Definition BTN_GREEN : Z := Z.shiftl 1 3.
Definition BTN_FRONT_R : Z := Z.shiftl 1 4.
Definition BTN_FRONT_L : Z := Z.shiftl 1 5.
Definition BTN_START : Z := Z.shiftl 1 6.

Definition JMAP_NORMAL : nat := 1.
Definition JMAP_RACING1 : nat := 2.
Definition JMAP_RACING2 : nat := 3.
Definition JMAP_PLATFORM : nat := 4.

Record TwoButtonJoystick := {
  up : bool; down : bool; left : bool; right : bool; b1 : bool; b2 : bool
}.

(** ** The controller library object [ps2x]

    Only the two capabilities the sketch consumes: [Button] and [Analog] on
    the snapshot taken by the last [read_gamepad].  [Analog] returns a
    [byte]. *)

Inductive PsButton :=
| PSB_SELECT | PSB_L3 | PSB_R3 | PSB_START
| PSB_PAD_UP | PSB_PAD_RIGHT | PSB_PAD_DOWN | PSB_PAD_LEFT
| PSB_L2 | PSB_R2 | PSB_L1 | PSB_R1
| PSB_TRIANGLE | PSB_CIRCLE | PSB_CROSS | PSB_SQUARE.

Inductive PsStick := PSS_RX | PSS_RY | PSS_LX | PSS_LY.

Record PS2X := { Button : PsButton -> bool; raw_axis : PsStick -> Z }.

Definition Analog (p : PS2X) (s : PsStick) : Z := to_byte (raw_axis p s).

(** Button mapping function: a pointer to a [void] function that receives
    the joystick structure by reference and reads the global [ps2x]. *)
Definition JoyMappingFunc : Type := PS2X -> TwoButtonJoystick -> TwoButtonJoystick.

(** ** The world: globals, pin registers, environment *)

Record World := {
  (* globals of the sketch *)
  mode : PadMode;
  joyMappingFunc : JoyMappingFunc;
  wasMouse : bool;
  buttons : Z;
  buttonsLive : Z;
  lastSwitchedTime : Z;
  tx : Z;                      (* static locals of handleMouse *)
  ty : Z;
  ps2x : PS2X;
  (* pin registers: data direction (true = output) and output latch *)
  ddr : Z -> bool;
  port : Z -> bool;
  clockISR : bool;             (* onClockEdge attached to PIN_BTNREGCLK *)
  irq : bool;                  (* global interrupt enable *)
  writes : list (Z * bool);    (* every digitalWrite so far, oldest first *)
  (* environment *)
  line : Z -> bool;            (* level an input pin reads *)
  clock : nat -> Z;            (* successive readings of the ms counter *)
  ticks : nat                  (* number of readings taken so far *)
}.

Definition upd (f : Z -> bool) (p : Z) (v : bool) : Z -> bool :=
  fun q => if q =? p then v else f q.

Definition set_mode v w :=
  Build_World v (joyMappingFunc w) (wasMouse w) (buttons w) (buttonsLive w)
    (lastSwitchedTime w) (tx w) (ty w) (ps2x w) (ddr w) (port w) (clockISR w)
    (irq w) (writes w) (line w) (clock w) (ticks w).
Definition set_joyMappingFunc v w :=
  Build_World (mode w) v (wasMouse w) (buttons w) (buttonsLive w)
    (lastSwitchedTime w) (tx w) (ty w) (ps2x w) (ddr w) (port w) (clockISR w)
    (irq w) (writes w) (line w) (clock w) (ticks w).
Definition set_wasMouse v w :=
  Build_World (mode w) (joyMappingFunc w) v (buttons w) (buttonsLive w)
    (lastSwitchedTime w) (tx w) (ty w) (ps2x w) (ddr w) (port w) (clockISR w)
    (irq w) (writes w) (line w) (clock w) (ticks w).
Definition set_buttons v w :=
  Build_World (mode w) (joyMappingFunc w) (wasMouse w) v (buttonsLive w)
    (lastSwitchedTime w) (tx w) (ty w) (ps2x w) (ddr w) (port w) (clockISR w)
    (irq w) (writes w) (line w) (clock w) (ticks w).
Definition set_buttonsLive v w :=
  Build_World (mode w) (joyMappingFunc w) (wasMouse w) (buttons w) v
    (lastSwitchedTime w) (tx w) (ty w) (ps2x w) (ddr w) (port w) (clockISR w)
    (irq w) (writes w) (line w) (clock w) (ticks w).
Definition set_lastSwitchedTime v w :=
  Build_World (mode w) (joyMappingFunc w) (wasMouse w) (buttons w)
    (buttonsLive w) v (tx w) (ty w) (ps2x w) (ddr w) (port w) (clockISR w)
    (irq w) (writes w) (line w) (clock w) (ticks w).
Definition set_tx v w :=
  Build_World (mode w) (joyMappingFunc w) (wasMouse w) (buttons w)
    (buttonsLive w) (lastSwitchedTime w) v (ty w) (ps2x w) (ddr w) (port w)
    (clockISR w) (irq w) (writes w) (line w) (clock w) (ticks w).
Definition set_ty v w :=
  Build_World (mode w) (joyMappingFunc w) (wasMouse w) (buttons w)
    (buttonsLive w) (lastSwitchedTime w) (tx w) v (ps2x w) (ddr w) (port w)
    (clockISR w) (irq w) (writes w) (line w) (clock w) (ticks w).
Definition set_ps2x v w :=
  Build_World (mode w) (joyMappingFunc w) (wasMouse w) (buttons w)
    (buttonsLive w) (lastSwitchedTime w) (tx w) (ty w) v (ddr w) (port w)
    (clockISR w) (irq w) (writes w) (line w) (clock w) (ticks w).
Definition set_ddr v w :=
  Build_World (mode w) (joyMappingFunc w) (wasMouse w) (buttons w)
    (buttonsLive w) (lastSwitchedTime w) (tx w) (ty w) (ps2x w) v (port w)
    (clockISR w) (irq w) (writes w) (line w) (clock w) (ticks w).
Definition set_port v w :=
  Build_World (mode w) (joyMappingFunc w) (wasMouse w) (buttons w)
    (buttonsLive w) (lastSwitchedTime w) (tx w) (ty w) (ps2x w) (ddr w) v
    (clockISR w) (irq w) (writes w) (line w) (clock w) (ticks w).
Definition set_clockISR v w :=
  Build_World (mode w) (joyMappingFunc w) (wasMouse w) (buttons w)
    (buttonsLive w) (lastSwitchedTime w) (tx w) (ty w) (ps2x w) (ddr w)
    (port w) v (irq w) (writes w) (line w) (clock w) (ticks w).
Definition set_irq v w :=
  Build_World (mode w) (joyMappingFunc w) (wasMouse w) (buttons w)
    (buttonsLive w) (lastSwitchedTime w) (tx w) (ty w) (ps2x w) (ddr w)
    (port w) (clockISR w) v (writes w) (line w) (clock w) (ticks w).
Definition set_writes v w :=
  Build_World (mode w) (joyMappingFunc w) (wasMouse w) (buttons w)
    (buttonsLive w) (lastSwitchedTime w) (tx w) (ty w) (ps2x w) (ddr w)
    (port w) (clockISR w) (irq w) v (line w) (clock w) (ticks w).
Definition set_line v w :=
  Build_World (mode w) (joyMappingFunc w) (wasMouse w) (buttons w)
    (buttonsLive w) (lastSwitchedTime w) (tx w) (ty w) (ps2x w) (ddr w)
    (port w) (clockISR w) (irq w) (writes w) v (clock w) (ticks w).
Definition set_ticks v w :=
  Build_World (mode w) (joyMappingFunc w) (wasMouse w) (buttons w)
    (buttonsLive w) (lastSwitchedTime w) (tx w) (ty w) (ps2x w) (ddr w)
    (port w) (clockISR w) (irq w) (writes w) (line w) (clock w) v.

(** ** The state monad of the sketch *)

Definition M (A : Type) : Type := World -> A * World.

Definition ret {A} (a : A) : M A := fun w => (a, w).
Definition bind {A B} (c : M A) (k : A -> M B) : M B :=
  fun w => let '(a, w') := c w in k a w'.
Definition gets {A} (f : World -> A) : M A := fun w => (f w, w).
Definition modify (f : World -> World) : M unit := fun w => (tt, f w).
Definition exec {A} (c : M A) (w : World) : World := snd (c w).

Notation "x <- c ;; k" := (bind c (fun x => k))
  (at level 61, c at next level, right associativity).
Notation "c ;; k" := (bind c (fun _ => k))
  (at level 61, right associativity).

(** ** The Arduino core, as far as the sketch uses it

    [pinMode] as in wiring_digital.c: [INPUT] clears the direction bit and
    the latch (pull-up off), [INPUT_PULLUP] clears the direction bit and sets
    the latch, [OUTPUT] sets the direction bit and leaves the latch alone.
    [digitalWrite] sets the latch whatever the direction; [digitalRead]
    returns the pin level, which is the latch on an output pin and the
    external level on an input pin. *)

Inductive PinMode := INPUT | OUTPUT | INPUT_PULLUP.

Definition pinMode (pin : Z) (m : PinMode) : M unit :=
  modify (fun w =>
    match m with
    | INPUT => set_port (upd (port w) pin false) (set_ddr (upd (ddr w) pin false) w)
    | INPUT_PULLUP => set_port (upd (port w) pin true) (set_ddr (upd (ddr w) pin false) w)
    | OUTPUT => set_ddr (upd (ddr w) pin true) w
    end).

Definition digitalWrite (pin : Z) (val : Z) : M unit :=
  modify (fun w =>
    let lvl := negb (to_byte val =? LOW) in
    set_writes (writes w ++ [(pin, lvl)]) (set_port (upd (port w) pin lvl) w)).

Definition digitalRead (pin : Z) : M Z :=
  gets (fun w => of_bool (if ddr w pin then port w pin else line w pin)).

Definition millis : M Z :=
  fun w => (to_ulong (clock w (ticks w)), set_ticks (S (ticks w)) w).

(** [delay] only lets time pass; time is the environment's. *)
Definition delay (ms : Z) : M unit := ret tt.

Definition noInterrupts : M unit := modify (set_irq false).
Definition interrupts : M unit := modify (set_irq true).

(** [attachInterrupt]/[detachInterrupt] on the interrupt of PIN_BTNREGCLK,
    whose only handler is [onClockEdge]. *)
Definition attachInterrupt_BTNREGCLK : M unit := modify (set_clockISR true).
Definition detachInterrupt_BTNREGCLK : M unit := modify (set_clockISR false).

(** ** Mode transitions *)

Definition toMouse : M unit :=
  pinMode PIN_UP OUTPUT ;;
  pinMode PIN_DOWN OUTPUT ;;
  pinMode PIN_LEFT OUTPUT ;;
  pinMode PIN_RIGHT OUTPUT ;;
  detachInterrupt_BTNREGCLK ;;
  modify (set_mode MODE_MOUSE).

Definition toJoystick : M unit :=
  digitalWrite PIN_UP LOW ;;
  pinMode PIN_UP INPUT ;;
  digitalWrite PIN_DOWN LOW ;;
  pinMode PIN_DOWN INPUT ;;
  digitalWrite PIN_LEFT LOW ;;
  pinMode PIN_LEFT INPUT ;;
  digitalWrite PIN_RIGHT LOW ;;
  pinMode PIN_RIGHT INPUT ;;
  detachInterrupt_BTNREGCLK ;;
  modify (set_mode MODE_JOYSTICK).

Definition toCD32 : M unit :=
  pinMode PIN_BTNREGOUT OUTPUT ;;
  pinMode PIN_BTNREGCLK INPUT ;;
  attachInterrupt_BTNREGCLK ;;
  m <- gets mode ;;
  (if PadMode_eqb m MODE_MOUSE
   then modify (set_wasMouse true)
   else modify (set_wasMouse false)) ;;
  modify (set_mode MODE_CD32).

(** ** Interrupt service routines *)

Definition onPadModeChange : M unit :=
  lvl <- digitalRead PIN_PADMODE ;;
  if lvl =? LOW then
    m <- gets mode ;;
    (if negb (PadMode_eqb m MODE_CD32) then toCD32 else ret tt) ;;
    live <- gets buttonsLive ;;
    modify (set_buttons live) ;;
    b <- gets buttons ;;
    digitalWrite PIN_BTNREGOUT (Z.land b 1) ;;
    b <- gets buttons ;;
    modify (set_buttons (to_byte (Z.shiftr b 1)))
  else
    t <- millis ;;
    modify (set_lastSwitchedTime t).

Definition onClockEdge : M unit :=
  b <- gets buttons ;;
  digitalWrite PIN_BTNREGOUT (Z.land b 1) ;;
  b <- gets buttons ;;
  modify (set_buttons (to_byte (Z.shiftr b 1))).

(** ** Open-collector helpers *)

Definition buttonPress (pin : Z) : M unit := pinMode pin OUTPUT.
Definition buttonRelease (pin : Z) : M unit := pinMode pin INPUT.

(** ** Button mapping functions *)

Definition set_up v j := Build_TwoButtonJoystick v (down j) (left j) (right j) (b1 j) (b2 j).
Definition set_down v j := Build_TwoButtonJoystick (up j) v (left j) (right j) (b1 j) (b2 j).
Definition set_left v j := Build_TwoButtonJoystick (up j) (down j) v (right j) (b1 j) (b2 j).
Definition set_right v j := Build_TwoButtonJoystick (up j) (down j) (left j) v (b1 j) (b2 j).
Definition set_b1 v j := Build_TwoButtonJoystick (up j) (down j) (left j) (right j) v (b2 j).
Definition set_b2 v j := Build_TwoButtonJoystick (up j) (down j) (left j) (right j) (b1 j) v.

Definition mapAnalogStickHorizontal (p : PS2X) (j : TwoButtonJoystick) : TwoButtonJoystick :=
  let lx := Analog p PSS_LX in
  let deltaLX := lx - ANALOG_IDLE_VALUE in
  let j := set_left (deltaLX <? - ANALOG_DEAD_ZONE) j in
  set_right (deltaLX >? ANALOG_DEAD_ZONE) j.

Definition mapAnalogStickVertical (p : PS2X) (j : TwoButtonJoystick) : TwoButtonJoystick :=
  let ly := Analog p PSS_LY in
  let deltaLY := ly - ANALOG_IDLE_VALUE in
  let j := set_up (deltaLY <? - ANALOG_DEAD_ZONE) j in
  set_down (deltaLY >? ANALOG_DEAD_ZONE) j.

Definition mapJoystickNormal : JoyMappingFunc := fun p j =>
  let j := mapAnalogStickHorizontal p j in
  let j := mapAnalogStickVertical p j in
  let j := set_up (up j || Button p PSB_PAD_UP) j in
  let j := set_down (down j || Button p PSB_PAD_DOWN) j in
  let j := set_left (left j || Button p PSB_PAD_LEFT) j in
  let j := set_right (right j || Button p PSB_PAD_RIGHT) j in
  let j := set_b1 (Button p PSB_SQUARE || Button p PSB_R1 || Button p PSB_R2 || Button p PSB_R3) j in
  set_b2 (Button p PSB_CROSS || Button p PSB_L1 || Button p PSB_L2 || Button p PSB_L3) j.

Definition mapJoystickRacing1 : JoyMappingFunc := fun p j =>
  let j := mapAnalogStickHorizontal p j in
  let j := set_left (left j || Button p PSB_PAD_LEFT) j in
  let j := set_right (right j || Button p PSB_PAD_RIGHT) j in
  let j := set_up (Button p PSB_PAD_UP || Button p PSB_SQUARE) j in
  let j := set_down (Button p PSB_PAD_DOWN || Button p PSB_CROSS) j in
  let j := if down j then set_up false j else j in
  let j := set_b1 (Button p PSB_TRIANGLE || Button p PSB_R1 || Button p PSB_R2 || Button p PSB_R3) j in
  set_b2 (Button p PSB_CIRCLE || Button p PSB_L1 || Button p PSB_L2 || Button p PSB_L3) j.

Definition mapJoystickRacing2 : JoyMappingFunc := fun p j =>
  let j := mapAnalogStickHorizontal p j in
  let j := set_left (left j || Button p PSB_PAD_LEFT) j in
  let j := set_right (right j || Button p PSB_PAD_RIGHT) j in
  let j := set_up (Button p PSB_PAD_UP || Button p PSB_R1 || Button p PSB_R2) j in
  let j := set_down (Button p PSB_PAD_DOWN || Button p PSB_CROSS || Button p PSB_L1 || Button p PSB_L2) j in
  let j := if down j then set_up false j else j in
  let j := set_b1 (Button p PSB_SQUARE || Button p PSB_R3) j in
  set_b2 (Button p PSB_TRIANGLE || Button p PSB_L3) j.

Definition mapJoystickPlatform : JoyMappingFunc := fun p j =>
  let j := mapAnalogStickHorizontal p j in
  let j := mapAnalogStickVertical p j in
  let j := set_up (Button p PSB_PAD_UP) j in
  let j := set_down (down j || Button p PSB_PAD_DOWN) j in
  let j := set_left (left j || Button p PSB_PAD_LEFT) j in
  let j := set_right (right j || Button p PSB_PAD_RIGHT) j in
  let j := set_up (up j || Button p PSB_CROSS) j in
  let j := set_b1 (Button p PSB_SQUARE || Button p PSB_R1 || Button p PSB_R2 || Button p PSB_R3) j in
  set_b2 (Button p PSB_TRIANGLE || Button p PSB_L1 || Button p PSB_L2 || Button p PSB_L3) j.

(** [flashLed]: the argument and the loop counter are [byte]s, so a call is
    [flashLed n] with [n < 256]; the sketch calls it with the profile
    numbers 1 to 4. *)
Fixpoint flashLed (n : nat) : M unit :=
  match n with
  | O => ret tt
  | S k =>
      digitalWrite PIN_LED_MODE_CD32 HIGH ;;
      delay 40 ;;
      digitalWrite PIN_LED_MODE_CD32 LOW ;;
      delay 80 ;;
      flashLed k
  end.

(** ** Joystick mode *)

Definition released : TwoButtonJoystick :=
  {| up := false; down := false; left := false; right := false;
     b1 := false; b2 := false |}.

Definition handleJoystick : M unit :=
  p <- gets ps2x ;;
  let rx := Analog p PSS_RX in
  let deltaRX := rx - ANALOG_IDLE_VALUE in
  let deltaRXabs := arduino_abs deltaRX in
  let ry := Analog p PSS_RY in
  let deltaRY := ry - ANALOG_IDLE_VALUE in
  let deltaRYabs := arduino_abs deltaRY in
  if (deltaRXabs >? ANALOG_DEAD_ZONE) || (deltaRYabs >? ANALOG_DEAD_ZONE) then
    toMouse
  else if Button p PSB_SELECT then
    if Button p PSB_SQUARE then
      modify (set_joyMappingFunc mapJoystickNormal) ;; flashLed JMAP_NORMAL
    else if Button p PSB_TRIANGLE then
      modify (set_joyMappingFunc mapJoystickRacing1) ;; flashLed JMAP_RACING1
    else if Button p PSB_CIRCLE then
      modify (set_joyMappingFunc mapJoystickRacing2) ;; flashLed JMAP_RACING2
    else if Button p PSB_CROSS then
      modify (set_joyMappingFunc mapJoystickPlatform) ;; flashLed JMAP_PLATFORM
    else ret tt
  else
    f <- gets joyMappingFunc ;;
    let j := f p released in
    (if up j then buttonPress PIN_UP else buttonRelease PIN_UP) ;;
    (if down j then buttonPress PIN_DOWN else buttonRelease PIN_DOWN) ;;
    (if left j then buttonPress PIN_LEFT else buttonRelease PIN_LEFT) ;;
    (if right j then buttonPress PIN_RIGHT else buttonRelease PIN_RIGHT) ;;
    noInterrupts ;;
    (if b1 j then buttonPress PIN_BTN1 else buttonRelease PIN_BTN1) ;;
    (if b2 j then buttonPress PIN_BTN2 else buttonRelease PIN_BTN2) ;;
    interrupts.

(** ** Mouse mode *)

(** The period expression of both axes:
    [map (deltaabs, ANALOG_DEAD_ZONE, ANALOG_IDLE_VALUE, MOUSE_SLOW_DELTA,
    MOUSE_FAST_DELTA)] stored in an [unsigned int]. *)
Definition mouse_period (deltaabs : Z) : Z :=
  to_uint (arduino_map deltaabs ANALOG_DEAD_ZONE ANALOG_IDLE_VALUE
             MOUSE_SLOW_DELTA MOUSE_FAST_DELTA).

(** Horizontal axis block of [handleMouse]. *)
Definition handleMouse_horizontal : M unit :=
  p <- gets ps2x ;;
  let x := Analog p PSS_RX in
  let deltaX := x - ANALOG_IDLE_VALUE in
  let deltaXabs := arduino_abs deltaX in
  if deltaXabs >? ANALOG_DEAD_ZONE then
    let period := mouse_period deltaXabs in
    let leadingPin := if deltaX >? 0 then PIN_RIGHT else PIN_DOWN in
    let trailingPin := if deltaX >? 0 then PIN_DOWN else PIN_RIGHT in
    now <- millis ;;
    t <- gets tx ;;
    (if to_ulong (now - t) >=? period then
       l <- digitalRead leadingPin ;;
       digitalWrite leadingPin (lnot_int l) ;;
       now <- millis ;;
       modify (set_tx now)
     else ret tt) ;;
    now <- millis ;;
    t <- gets tx ;;
    (if to_ulong (now - t) >=? Z.quot period 2 then
       l <- digitalRead leadingPin ;;
       digitalWrite trailingPin (lnot_int l)
     else ret tt)
  else ret tt.

(** Vertical axis block of [handleMouse]. *)
Definition handleMouse_vertical : M unit :=
  p <- gets ps2x ;;
  let y := Analog p PSS_RY in
  let deltaY := y - ANALOG_IDLE_VALUE in
  let deltaYabs := arduino_abs deltaY in
  if deltaYabs >? ANALOG_DEAD_ZONE then
    let period := mouse_period deltaYabs in
    let leadingPin := if deltaY >? 0 then PIN_LEFT else PIN_UP in
    let trailingPin := if deltaY >? 0 then PIN_UP else PIN_LEFT in
    now <- millis ;;
    t <- gets ty ;;
    (if to_ulong (now - t) >=? period then
       l <- digitalRead leadingPin ;;
       digitalWrite leadingPin (lnot_int l) ;;
       now <- millis ;;
       modify (set_ty now)
     else ret tt) ;;
    now <- millis ;;
    t <- gets ty ;;
    (if to_ulong (now - t) >=? Z.quot period 2 then
       l <- digitalRead leadingPin ;;
       digitalWrite trailingPin (lnot_int l)
     else ret tt)
  else ret tt.

(** Buttons block of [handleMouse]. *)
Definition handleMouse_buttons : M unit :=
  p <- gets ps2x ;;
  noInterrupts ;;
  (if Button p PSB_L1 || Button p PSB_L2 || Button p PSB_L3
   then buttonPress PIN_BTN1 else buttonRelease PIN_BTN1) ;;
  (if Button p PSB_R1 || Button p PSB_R2 || Button p PSB_R3
   then buttonPress PIN_BTN2 else buttonRelease PIN_BTN2) ;;
  interrupts.

Definition handleMouse : M unit :=
  p <- gets ps2x ;;
  if Button p PSB_PAD_UP || Button p PSB_PAD_DOWN ||
     Button p PSB_PAD_LEFT || Button p PSB_PAD_RIGHT then
    toJoystick
  else
    handleMouse_horizontal ;;
    handleMouse_vertical ;;
    handleMouse_buttons.

(** ** CD32 pad mode *)

(** [buttonsLive &= ~BTN]: the [word] operand is complemented in 16 bits and
    the result is stored back into the [byte]. *)
Definition clear_bit (btn : Z) : M unit :=
  live <- gets buttonsLive ;;
  modify (set_buttonsLive (to_byte (Z.land live (bitnot_uint btn)))).

(** Direction pins of [handleCD32Pad].  The local [analog] is not
    initialised in the source; the four fields read here are assigned by the
    two analog helpers first. *)
Definition handleCD32Pad_directions : M unit :=
  p <- gets ps2x ;;
  let analog := mapAnalogStickHorizontal p released in
  let analog := mapAnalogStickVertical p analog in
  (if up analog || Button p PSB_PAD_UP
   then buttonPress PIN_UP else buttonRelease PIN_UP) ;;
  (if down analog || Button p PSB_PAD_DOWN
   then buttonPress PIN_DOWN else buttonRelease PIN_DOWN) ;;
  (if left analog || Button p PSB_PAD_LEFT
   then buttonPress PIN_LEFT else buttonRelease PIN_LEFT) ;;
  (if right analog || Button p PSB_PAD_RIGHT
   then buttonPress PIN_RIGHT else buttonRelease PIN_RIGHT).

(** The statements of [handleCD32Pad] that rebuild [buttonsLive], one list
    element per source statement. *)
Definition handleCD32Pad_register_stmts (p : PS2X) : list (M unit) :=
  [ modify (set_buttonsLive 255);
    (if Button p PSB_START then clear_bit BTN_START else ret tt);
    (if Button p PSB_TRIANGLE then clear_bit BTN_GREEN else ret tt);
    (if Button p PSB_SQUARE then clear_bit BTN_RED else ret tt);
    (if Button p PSB_CROSS then clear_bit BTN_BLUE else ret tt);
    (if Button p PSB_CIRCLE then clear_bit BTN_YELLOW else ret tt);
    (if Button p PSB_L1 || Button p PSB_L2 || Button p PSB_L3
     then clear_bit BTN_FRONT_L else ret tt);
    (if Button p PSB_R1 || Button p PSB_R2 || Button p PSB_R3
     then clear_bit BTN_FRONT_R else ret tt) ].

Fixpoint run_stmts (l : list (M unit)) : M unit :=
  match l with
  | [] => ret tt
  | c :: l' => c ;; run_stmts l'
  end.

Definition handleCD32Pad : M unit :=
  handleCD32Pad_directions ;;
  p <- gets ps2x ;;
  run_stmts (handleCD32Pad_register_stmts p).

(** ** Main loop *)

Definition read_gamepad (snapshot : PS2X) : M unit := modify (set_ps2x snapshot).

(** One iteration of [loop], in its two parts; [snapshot] is what
    [ps2x.read_gamepad] obtains from the controller.

    First part: read the controller and handle the report of the current
    mode.  The [default] case of the [switch] has no counterpart: [PadMode]
    has no fourth value. *)
Definition loop_poll (snapshot : PS2X) : M unit :=
  read_gamepad snapshot ;;
  m <- gets mode ;;
  match m with
  | MODE_JOYSTICK =>
      handleJoystick ;;
      digitalWrite PIN_LED_MODE_CD32 LOW
  | MODE_MOUSE =>
      handleMouse ;;
      now <- millis ;;
      digitalWrite PIN_LED_MODE_CD32 (of_bool (Z.rem (Z.quot now 500) 2 =? 0))
  | MODE_CD32 =>
      handleCD32Pad ;;
      digitalWrite PIN_LED_MODE_CD32 HIGH
  end.

(** Second part: the CD32 timeout.  The [&&] of the test only reads the
    clock when [lastSwitchedTime > 0]. *)
Definition loop_timeout : M unit :=
  lst <- gets lastSwitchedTime ;;
  if lst >? 0 then
    now <- millis ;;
    if to_ulong (now - lst) >? TIMEOUT_CD32_MODE then
      wm <- gets wasMouse ;;
      (if wm then toMouse else toJoystick) ;;
      modify (set_lastSwitchedTime 0)
    else ret tt
  else ret tt.

Definition loop (snapshot : PS2X) : M unit :=
  loop_poll snapshot ;;
  loop_timeout.

(** ** Start of the program *)

Definition idle_pad : PS2X :=
  {| Button := fun _ => false; raw_axis := fun _ => ANALOG_IDLE_VALUE |}.

(** The globals as initialised at load time and the pin registers after
    reset, in the environment given by [env_line] and [env_clock]. *)
Definition power_on (env_line : Z -> bool) (env_clock : nat -> Z) : World :=
  {| mode := MODE_JOYSTICK;
     joyMappingFunc := mapJoystickNormal;
     wasMouse := false;
     buttons := 0;
     buttonsLive := 128;
     lastSwitchedTime := 0;
     tx := 0;
     ty := 0;
     ps2x := idle_pad;
     ddr := fun _ => false;
     port := fun _ => false;
     clockISR := false;
     irq := true;
     writes := [];
     line := env_line;
     clock := env_clock;
     ticks := 0 |}.

(** [setup] on the path where [initPad] reports no error (any other path ends
    in [mypanic] and never reaches [loop]).  It ends by attaching
    [onPadModeChange] to both edges of PIN_PADMODE. *)
Definition setup : M unit :=
  pinMode PIN_PADMODE INPUT_PULLUP ;;
  pinMode PIN_LED_PAD_OK OUTPUT ;;
  pinMode PIN_LED_MODE_CD32 OUTPUT ;;
  delay 300 ;;
  digitalWrite PIN_LED_PAD_OK HIGH.

Definition boot (env_line : Z -> bool) (env_clock : nat -> Z) : World :=
  exec setup (power_on env_line env_clock).

(** ** Events

    What can happen after [setup]: an edge on the mode-select line (the
    strobe) that leaves it at [level], a rising edge on the clock line, or
    one iteration of [loop] with the snapshot it reads.  Each event runs to
    completion: [run] and [reachable] describe the worlds between iterations
    of [loop] that no interrupt handler preempted.  Interrupts served inside
    an iteration are modelled by [pstep] further down. *)

Inductive Event :=
| EvPadMode (level : bool)
| EvClock
| EvLoop (snapshot : PS2X).

Definition step (w : World) (e : Event) : World :=
  match e with
  | EvPadMode level =>
      exec onPadModeChange (set_line (upd (line w) PIN_PADMODE level) w)
  | EvClock => if clockISR w then exec onClockEdge w else w
  | EvLoop snapshot => exec (loop snapshot) w
  end.

Definition run (w : World) (evs : list Event) : World := fold_left step evs w.

Definition reachable (w : World) : Prop :=
  exists env_line env_clock evs, w = run (boot env_line env_clock) evs.

(** ** Observations used by the statements *)

(** The levels written to the serial data line, oldest first. *)
Definition data_line (w : World) : list bool :=
  map snd (filter (fun e => fst e =? PIN_BTNREGOUT) (writes w)).

(** [n] rising edges of the clock line, each served by [onClockEdge]. *)
Fixpoint clockEdges (n : nat) : M unit :=
  match n with
  | O => ret tt
  | S k => onClockEdge ;; clockEdges k
  end.

(** The 8 bits of a register value, least significant first. *)
Definition bits_lsb_first (r : Z) : list bool :=
  map (fun k => Z.testbit r (Z.of_nat k)) (seq 0 8).

(** The strobe interrupt finds the mode-select line asserted (low). *)
Definition strobe_asserted (w : World) : Prop :=
  ddr w PIN_PADMODE = false /\ line w PIN_PADMODE = false.

(** [c] leaves the observation [f] of the world unchanged. *)
Definition preserves {A B} (f : World -> A) (c : M B) : Prop :=
  forall w, f (snd (c w)) = f w.

(** [c] maintains the invariant [I]. *)
Definition maintains {B} (I : World -> Prop) (c : M B) : Prop :=
  forall w, I w -> I (snd (c w)).

(** The reserved bit of the live register is 1. *)
Definition msb_set (w : World) : Prop := Z.testbit (buttonsLive w) 7 = true.

(** ** Polled conditions and concrete inputs *)

(** The test that opens [handleJoystick]. *)
Definition right_stick_deflected (p : PS2X) : bool :=
  (arduino_abs (Analog p PSS_RX - ANALOG_IDLE_VALUE) >? ANALOG_DEAD_ZONE) ||
  (arduino_abs (Analog p PSS_RY - ANALOG_IDLE_VALUE) >? ANALOG_DEAD_ZONE).

(** The test that opens [handleMouse]. *)
Definition dpad_pressed (p : PS2X) : bool :=
  Button p PSB_PAD_UP || Button p PSB_PAD_DOWN ||
  Button p PSB_PAD_LEFT || Button p PSB_PAD_RIGHT.

(** A snapshot given by its pressed buttons and its four axis values
    ([rx], [ry], [lx], [ly]). *)
Definition pad (pressed : PsButton -> bool) (rx ry lx ly : Z) : PS2X :=
  {| Button := pressed;
     raw_axis := fun s =>
       match s with
       | PSS_RX => rx | PSS_RY => ry | PSS_LX => lx | PSS_LY => ly
       end |}.

Definition nothing_pressed : PsButton -> bool := fun _ => false.

Definition start_pressed : PsButton -> bool :=
  fun b => match b with PSB_START => true | _ => false end.

Definition select_and_pad_up : PsButton -> bool :=
  fun b => match b with PSB_SELECT | PSB_PAD_UP => true | _ => false end.

Definition brake_and_accelerate : PsButton -> bool :=
  fun b =>
    match b with
    | PSB_PAD_DOWN | PSB_PAD_UP | PSB_SQUARE | PSB_R1 => true
    | _ => false
    end.

(** Mode-select line idle high, the clock read as 1000 ms, 1001 ms, ... *)
Definition line_high : Z -> bool := fun _ => true.
Definition clock_from (t0 : Z) : nat -> Z := fun n => t0 + Z.of_nat n.

Definition booted : World := boot line_high (clock_from 1000).

(** ** The live register layout *)

(** Position of a button bit in the register. *)
Definition bit_of (btn : Z) : Z := Z.log2 btn.

(** The active-low layout of the button register for a snapshot: a bit is
    0 exactly when its button (or one button of its shoulder group) is
    pressed, and the reserved bit 7 is 1. *)
Definition live_layout (p : PS2X) (r : Z) : Prop :=
  Z.testbit r (bit_of BTN_START) = negb (Button p PSB_START) /\
  Z.testbit r (bit_of BTN_GREEN) = negb (Button p PSB_TRIANGLE) /\
  Z.testbit r (bit_of BTN_RED) = negb (Button p PSB_SQUARE) /\
  Z.testbit r (bit_of BTN_BLUE) = negb (Button p PSB_CROSS) /\
  Z.testbit r (bit_of BTN_YELLOW) = negb (Button p PSB_CIRCLE) /\
  Z.testbit r (bit_of BTN_FRONT_L) =
    negb (Button p PSB_L1 || Button p PSB_L2 || Button p PSB_L3) /\
  Z.testbit r (bit_of BTN_FRONT_R) =
    negb (Button p PSB_R1 || Button p PSB_R2 || Button p PSB_R3) /\
  Z.testbit r 7 = true /\
  0 <= r < 256.

(** The value [handleCD32Pad] leaves in [buttonsLive], in closed form. *)
Definition refresh_value (p : PS2X) : Z :=
  255 - (if Button p PSB_START then BTN_START else 0)
      - (if Button p PSB_TRIANGLE then BTN_GREEN else 0)
      - (if Button p PSB_SQUARE then BTN_RED else 0)
      - (if Button p PSB_CROSS then BTN_BLUE else 0)
      - (if Button p PSB_CIRCLE then BTN_YELLOW else 0)
      - (if Button p PSB_L1 || Button p PSB_L2 || Button p PSB_L3
         then BTN_FRONT_L else 0)
      - (if Button p PSB_R1 || Button p PSB_R2 || Button p PSB_R3
         then BTN_FRONT_R else 0).

(** [c] neither reads nor writes the selected mapping profile: running it
    commutes with any change of [joyMappingFunc]. *)
Definition profile_blind {B} (c : M B) : Prop :=
  forall f w, c (set_joyMappingFunc f w) =
              (fst (c w), set_joyMappingFunc f (snd (c w))).

(** ** Electrical view of the host lines *)

(** The six lines of the host port. *)
Definition host_lines : list Z :=
  [PIN_UP; PIN_DOWN; PIN_LEFT; PIN_RIGHT; PIN_BTN1; PIN_BTN2].

(** An output pin whose latch is high drives the line high; an output pin
    whose latch is low drives it low; an input pin whose latch is low floats
    (no pull-up). *)
Definition driven_high (w : World) (pin : Z) : bool := ddr w pin && port w pin.
Definition driven_low (w : World) (pin : Z) : bool := ddr w pin && negb (port w pin).
Definition floating (w : World) (pin : Z) : bool := negb (ddr w pin) && negb (port w pin).


(** No host line has its latch set. *)
Definition latches_low (w : World) : Prop :=
  forall pin, In pin host_lines -> port w pin = false.

(** [c] never sets the latch of a host line. *)
Definition no_raise {B} (c : M B) : Prop :=
  forall w pin, In pin host_lines -> port (snd (c w)) pin = true -> port w pin = true.

Definition stick_right : PS2X := pad nothing_pressed 255 127 127 127.

(** ** One poll of a mouse axis, in closed form

    One axis: the levels of its leading and trailing pin and its timer (the
    time of the leading pin's last toggle). *)
Record Quad := { lead : bool; trail : bool; timer : Z }.

(** Milliseconds elapsed at [now] since [t], on the 32-bit counter. *)
Definition elapsed (now t : Z) : Z := to_ulong (now - t).

(** What the two [if] statements of an axis block of [handleMouse] compute
    from the pin levels and the timer, for the toggle period [period] and the
    next readings [t1], [t2], [t3] of the clock.  If a period has elapsed at
    [t1] the leading pin inverts its level and the timer restarts at [t2];
    then, if half a period has elapsed since the leading pin's last toggle
    (at [t3] after a toggle in this poll, else at [t2]), the trailing pin is
    written with the inverse of the leading pin's level, whatever its own
    level was. *)
Definition quad_step (period t1 t2 t3 : Z) (q : Quad) : Quad :=
  if period <=? elapsed t1 (timer q) then
    let l := negb (lead q) in
    {| lead := l;
       trail := if Z.quot period 2 <=? elapsed t3 t2 then negb l else trail q;
       timer := t2 |}
  else
    {| lead := lead q;
       trail := if Z.quot period 2 <=? elapsed t2 (timer q)
                then negb (lead q) else trail q;
       timer := timer q |}.

(** The horizontal axis of the world, seen with [leading] and [trailing] as
    its pins, and the vertical one. *)
Definition quad_x (w : World) (leading trailing : Z) : Quad :=
  {| lead := port w leading; trail := port w trailing; timer := tx w |}.
Definition quad_y (w : World) (leading trailing : Z) : Quad :=
  {| lead := port w leading; trail := port w trailing; timer := ty w |}.

(** The direction pins are outputs, as [toMouse] leaves them. *)
Definition mouse_pins (w : World) : Prop :=
  ddr w PIN_UP = true /\ ddr w PIN_DOWN = true /\
  ddr w PIN_LEFT = true /\ ddr w PIN_RIGHT = true.

(** The [k]-th next reading of the clock. *)
Definition reading (w : World) (k : nat) : Z := to_ulong (clock w (ticks w + k)).

(** ** A pad session whose strobe line stays asserted

    The host asserts the strobe (entering CD32 mode), releases it while the
    clock reads 1000 ms, asserts it again and then holds it asserted; the next
    [loop] iteration checks the timeout while the clock reads 1201 ms. *)
Definition held_strobe_clock : nat -> Z :=
  fun n => match n with O => 1000 | _ => 1201 end.

Definition held_strobe_edges : list Event :=
  [EvPadMode false; EvPadMode true; EvPadMode false].

(** Pin ownership in Mouse mode: the direction pins are outputs. *)
Definition mouse_owns_pins (w : World) : Prop :=
  mode w = MODE_MOUSE -> mouse_pins w.

(** Pin ownership in CD32 mode: the data pin is an output and the clock
    interrupt is attached.  The mode-select pin always stays an input. *)
Definition cd32_owns_pins (w : World) : Prop :=
  mode w = MODE_CD32 -> ddr w PIN_BTNREGOUT = true /\ clockISR w = true.

Definition wired (w : World) : Prop :=
  ddr w PIN_PADMODE = false /\ cd32_owns_pins w /\ 0 <= buttonsLive w < 256.

Definition pad_right_pressed : PsButton -> bool :=
  fun b => match b with PSB_PAD_RIGHT => true | _ => false end.

(** ** Start-up: controller detection and the fault state

    [initPad] with the two values it obtains from the controller library:
    the result [error] of [config_gamepad] and the result [type] of
    [readType]. *)

Inductive PadError :=
| PADERR_NONE | PADERR_NOTFOUND | PADERR_WRONGTYPE | PADERR_UNKNOWN.

Definition PadError_eqb (a b : PadError) : bool :=
  match a, b with
  | PADERR_NONE, PADERR_NONE | PADERR_NOTFOUND, PADERR_NOTFOUND
  | PADERR_WRONGTYPE, PADERR_WRONGTYPE | PADERR_UNKNOWN, PADERR_UNKNOWN => true
  | _, _ => false
  end.

Definition initPad (error type : Z) : PadError :=
  let ret := PADERR_NOTFOUND in
  if error =? 0 then
    if type =? 0 then PADERR_NONE
    else if type =? 1 then PADERR_NONE
    else if type =? 2 then PADERR_NONE
    else if type =? 3 then PADERR_NONE
    else ret
  else if error =? 1 then PADERR_NOTFOUND
  else if error =? 2 then PADERR_UNKNOWN
  else ret.

(** The [switch] of [setup] that picks the blink interval of the fault
    state. *)
Definition panic_interval (err : PadError) : Z :=
  match err with
  | PADERR_NOTFOUND => 200
  | PADERR_WRONGTYPE => 333
  | _ => 500
  end.

(** [n] rounds of the endless loop of [mypanic]. *)
Fixpoint mypanic_rounds (n : nat) (interval : Z) : M unit :=
  match n with
  | O => ret tt
  | S k =>
      digitalWrite PIN_LED_PAD_OK HIGH ;;
      delay interval ;;
      digitalWrite PIN_LED_PAD_OK LOW ;;
      delay interval ;;
      mypanic_rounds k interval
  end.

(** [setup] with the outcome of the controller detection: it returns the
    blink interval with which it enters [mypanic] (from which it never
    returns), or nothing when it goes on to attach the strobe interrupt and
    to [loop]. *)
Definition setup_with (error type : Z) : M (option Z) :=
  pinMode PIN_PADMODE INPUT_PULLUP ;;
  pinMode PIN_LED_PAD_OK OUTPUT ;;
  pinMode PIN_LED_MODE_CD32 OUTPUT ;;
  delay 300 ;;
  let err := initPad error type in
  if negb (PadError_eqb err PADERR_NONE) then
    ret (Some (panic_interval err))
  else
    digitalWrite PIN_LED_PAD_OK HIGH ;;
    ret None.

(** ** Further observations *)

(** The writes of [n] pulses of the mode LED. *)
Fixpoint led_pulses (n : nat) : list (Z * bool) :=
  match n with
  | O => []
  | S k => (PIN_LED_MODE_CD32, true) :: (PIN_LED_MODE_CD32, false) :: led_pulses k
  end.

(** The profile a Select combination picks, with its number of pulses. *)
Definition selected_profile (p : PS2X) : option (JoyMappingFunc * nat) :=
  if Button p PSB_SQUARE then Some (mapJoystickNormal, JMAP_NORMAL)
  else if Button p PSB_TRIANGLE then Some (mapJoystickRacing1, JMAP_RACING1)
  else if Button p PSB_CIRCLE then Some (mapJoystickRacing2, JMAP_RACING2)
  else if Button p PSB_CROSS then Some (mapJoystickPlatform, JMAP_PLATFORM)
  else None.

(** Events of the main loop and of the clock line only. *)
Definition no_strobe (e : Event) : bool :=
  match e with EvPadMode _ => false | _ => true end.

Definition is_clock (e : Event) : bool :=
  match e with EvClock => true | _ => false end.

Definition is_loop (e : Event) : bool :=
  match e with EvLoop _ => true | _ => false end.

(** The pins that no mode owns keep the role [setup] gave them. *)
Definition fixed_pins (w : World) : Prop :=
  ddr w PIN_PADMODE = false /\ port w PIN_PADMODE = true /\
  ddr w PIN_LED_PAD_OK = true /\ port w PIN_LED_PAD_OK = true /\
  ddr w PIN_LED_MODE_CD32 = true.

Definition square_and_cross : PsButton -> bool :=
  fun b => match b with PSB_SELECT | PSB_SQUARE | PSB_CROSS => true | _ => false end.

Definition left_shoulder : PsButton -> bool :=
  fun b => match b with PSB_L2 => true | _ => false end.

(** A clock that has wrapped around between two readings. *)
Definition wrapped_clock : nat -> Z :=
  fun n => match n with O => 4294967200 | _ => 4294967296 + 150 end.

(** The writes of [n] blinks of the controller-found LED in the fault
    state. *)
Fixpoint panic_blinks (n : nat) : list (Z * bool) :=
  match n with
  | O => []
  | S k => (PIN_LED_PAD_OK, true) :: (PIN_LED_PAD_OK, false) :: panic_blinks k
  end.

(** In Joystick mode the latches of the four direction pins are low. *)
Definition joystick_latches_low (w : World) : Prop :=
  mode w = MODE_JOYSTICK ->
  forall pin, In pin [PIN_UP; PIN_DOWN; PIN_LEFT; PIN_RIGHT] -> port w pin = false.

(** ** The timeout test at the end of an iteration *)

(** The test that closes [loop], taken on the [k]-th next reading of the
    clock: a release of the strobe is recorded and lies more than
    TIMEOUT_CD32_MODE ms back. *)
Definition timeout_due (w : World) (k : nat) : bool :=
  (lastSwitchedTime w >? 0) &&
  (elapsed (reading w k) (lastSwitchedTime w) >? TIMEOUT_CD32_MODE).

(** The mode the timeout branch of [loop] goes to. *)
Definition restored_mode (w : World) : PadMode :=
  if wasMouse w then MODE_MOUSE else MODE_JOYSTICK.

(** Mode-select line low at power-on, and a clock read every 300 ms. *)
Definition line_low : Z -> bool := fun _ => false.
Definition slow_clock : nat -> Z := fun n => 1000 + 300 * Z.of_nat n.

(** ** What a poll does to the pins of a mouse axis *)

(** One poll of an axis, from world [w] to world [w1], with [leading] and
    [trailing] its pins, [period] its toggle period and [timer], [timer1]
    its timer before and after.  If a period has elapsed on the timer the
    leading pin inverts its level and the timer restarts; then, if half a
    period has elapsed on the timer as it now is, the trailing pin is written
    with the inverse of the level the leading pin now has. *)
Definition axis_poll (w w1 : World) (leading trailing period timer timer1 : Z) : Prop :=
  let toggled := period <=? elapsed (reading w 0) timer in
  port w1 leading = (if toggled then negb (port w leading) else port w leading) /\
  timer1 = (if toggled then reading w 1 else timer) /\
  port w1 trailing =
    (if Z.quot period 2 <=? elapsed (reading w (if toggled then 2 else 1)) timer1
     then negb (port w1 leading) else port w trailing).

(** A poll at which the leading pin is due: a period has elapsed on the
    timer, and the poll itself takes less than half a period. *)
Definition lead_due (w : World) (period timer : Z) : Prop :=
  period <= elapsed (reading w 0) timer /\
  elapsed (reading w 2) (reading w 1) < Z.quot period 2.

(** A poll at which only the trailing pin is due: half a period has elapsed
    on the timer, but not a whole one. *)
Definition half_due (w : World) (period timer : Z) : Prop :=
  elapsed (reading w 0) timer < period /\
  Z.quot period 2 <= elapsed (reading w 1) timer.

(** The levels of the horizontal pins (leading pin for a deflection to the
    right first) after [k] iterations of [loop] with the stick held right. *)
Definition right_pins_after (k : nat) : bool * bool :=
  let w := run booted (repeat (EvLoop stick_right) k) in
  (port w PIN_RIGHT, port w PIN_DOWN).

(** * The main loop under preemption

    [step] runs a whole iteration of [loop] as one event.  On the
    microcontroller the two interrupt handlers do run to completion
    (interrupts are off inside a handler), but they are served between any
    two statements of [loop] unless [noInterrupts] is in force.  [Prog] is
    what is left to run of an iteration: nothing, or one statement, given by
    its effect on the world and by the statements that follow it, which
    depend on the world the statement finds when it is a test. *)

Inductive Prog :=
| Halt
| Step (effect : World -> World) (next : World -> Prog).

(** The statement [c], then [k]. *)
Definition act (c : M unit) (k : Prog) : Prog := Step (exec c) (fun _ => k).

(** The statements [l] in order, then [k]. *)
Fixpoint acts (l : list (M unit)) (k : Prog) : Prog :=
  match l with
  | [] => k
  | c :: l' => act c (acts l' k)
  end.

(** The condition [c] of an [if], evaluated in one step, then [kt] or
    [kf]. *)
Definition test (c : M bool) (kt kf : Prog) : Prog :=
  Step (exec c) (fun w => if fst (c w) then kt else kf).

(** The statements of [toMouse] and of [toJoystick]. *)
Definition toMouse_stmts : list (M unit) :=
  [ pinMode PIN_UP OUTPUT;
    pinMode PIN_DOWN OUTPUT;
    pinMode PIN_LEFT OUTPUT;
    pinMode PIN_RIGHT OUTPUT;
    detachInterrupt_BTNREGCLK;
    modify (set_mode MODE_MOUSE) ].

Definition toJoystick_stmts : list (M unit) :=
  [ digitalWrite PIN_UP LOW;
    pinMode PIN_UP INPUT;
    digitalWrite PIN_DOWN LOW;
    pinMode PIN_DOWN INPUT;
    digitalWrite PIN_LEFT LOW;
    pinMode PIN_LEFT INPUT;
    digitalWrite PIN_RIGHT LOW;
    pinMode PIN_RIGHT INPUT;
    detachInterrupt_BTNREGCLK;
    modify (set_mode MODE_JOYSTICK) ].

(** The statements of [flashLed n]. *)
Fixpoint flashLed_stmts (n : nat) : list (M unit) :=
  match n with
  | O => []
  | S k =>
      digitalWrite PIN_LED_MODE_CD32 HIGH :: delay 40 ::
      digitalWrite PIN_LED_MODE_CD32 LOW :: delay 80 :: flashLed_stmts k
  end.

(** The statements of [handleJoystick] that put the mapped signals [j] on
    the pins. *)
Definition handleJoystick_pin_stmts (j : TwoButtonJoystick) : list (M unit) :=
  [ (if up j then buttonPress PIN_UP else buttonRelease PIN_UP);
    (if down j then buttonPress PIN_DOWN else buttonRelease PIN_DOWN);
    (if left j then buttonPress PIN_LEFT else buttonRelease PIN_LEFT);
    (if right j then buttonPress PIN_RIGHT else buttonRelease PIN_RIGHT);
    noInterrupts;
    (if b1 j then buttonPress PIN_BTN1 else buttonRelease PIN_BTN1);
    (if b2 j then buttonPress PIN_BTN2 else buttonRelease PIN_BTN2);
    interrupts ].

(** [handleJoystick] statement by statement, for the snapshot [p] that
    [read_gamepad] stored (the controller object is only written by
    [read_gamepad]).  The call of the mapping function is the step that
    reads [joyMappingFunc]. *)
Definition handleJoystick_p (p : PS2X) (k : Prog) : Prog :=
  let rx := Analog p PSS_RX in
  let deltaRX := rx - ANALOG_IDLE_VALUE in
  let deltaRXabs := arduino_abs deltaRX in
  let ry := Analog p PSS_RY in
  let deltaRY := ry - ANALOG_IDLE_VALUE in
  let deltaRYabs := arduino_abs deltaRY in
  if (deltaRXabs >? ANALOG_DEAD_ZONE) || (deltaRYabs >? ANALOG_DEAD_ZONE) then
    acts toMouse_stmts k
  else if Button p PSB_SELECT then
    if Button p PSB_SQUARE then
      act (modify (set_joyMappingFunc mapJoystickNormal))
        (acts (flashLed_stmts JMAP_NORMAL) k)
    else if Button p PSB_TRIANGLE then
      act (modify (set_joyMappingFunc mapJoystickRacing1))
        (acts (flashLed_stmts JMAP_RACING1) k)
    else if Button p PSB_CIRCLE then
      act (modify (set_joyMappingFunc mapJoystickRacing2))
        (acts (flashLed_stmts JMAP_RACING2) k)
    else if Button p PSB_CROSS then
      act (modify (set_joyMappingFunc mapJoystickPlatform))
        (acts (flashLed_stmts JMAP_PLATFORM) k)
    else k
  else
    Step (fun w => w)
      (fun w => acts (handleJoystick_pin_stmts (joyMappingFunc w p released)) k).

(** The two axis blocks of [handleMouse]: each [if] is a test on a fresh
    reading of the clock, followed by the statements it guards. *)
Definition handleMouse_horizontal_p (p : PS2X) (k : Prog) : Prog :=
  let x := Analog p PSS_RX in
  let deltaX := x - ANALOG_IDLE_VALUE in
  let deltaXabs := arduino_abs deltaX in
  if deltaXabs >? ANALOG_DEAD_ZONE then
    let period := mouse_period deltaXabs in
    let leadingPin := if deltaX >? 0 then PIN_RIGHT else PIN_DOWN in
    let trailingPin := if deltaX >? 0 then PIN_DOWN else PIN_RIGHT in
    let trailing_part :=
      test (now <- millis ;; t <- gets tx ;;
            ret (to_ulong (now - t) >=? Z.quot period 2))
        (act (l <- digitalRead leadingPin ;;
              digitalWrite trailingPin (lnot_int l)) k)
        k in
    test (now <- millis ;; t <- gets tx ;; ret (to_ulong (now - t) >=? period))
      (acts [ (l <- digitalRead leadingPin ;;
               digitalWrite leadingPin (lnot_int l));
              (now <- millis ;; modify (set_tx now)) ]
         trailing_part)
      trailing_part
  else k.

Definition handleMouse_vertical_p (p : PS2X) (k : Prog) : Prog :=
  let y := Analog p PSS_RY in
  let deltaY := y - ANALOG_IDLE_VALUE in
  let deltaYabs := arduino_abs deltaY in
  if deltaYabs >? ANALOG_DEAD_ZONE then
    let period := mouse_period deltaYabs in
    let leadingPin := if deltaY >? 0 then PIN_LEFT else PIN_UP in
    let trailingPin := if deltaY >? 0 then PIN_UP else PIN_LEFT in
    let trailing_part :=
      test (now <- millis ;; t <- gets ty ;;
            ret (to_ulong (now - t) >=? Z.quot period 2))
        (act (l <- digitalRead leadingPin ;;
              digitalWrite trailingPin (lnot_int l)) k)
        k in
    test (now <- millis ;; t <- gets ty ;; ret (to_ulong (now - t) >=? period))
      (acts [ (l <- digitalRead leadingPin ;;
               digitalWrite leadingPin (lnot_int l));
              (now <- millis ;; modify (set_ty now)) ]
         trailing_part)
      trailing_part
  else k.

Definition handleMouse_button_stmts (p : PS2X) : list (M unit) :=
  [ noInterrupts;
    (if Button p PSB_L1 || Button p PSB_L2 || Button p PSB_L3
     then buttonPress PIN_BTN1 else buttonRelease PIN_BTN1);
    (if Button p PSB_R1 || Button p PSB_R2 || Button p PSB_R3
     then buttonPress PIN_BTN2 else buttonRelease PIN_BTN2);
    interrupts ].

Definition handleMouse_p (p : PS2X) (k : Prog) : Prog :=
  if Button p PSB_PAD_UP || Button p PSB_PAD_DOWN ||
     Button p PSB_PAD_LEFT || Button p PSB_PAD_RIGHT then
    acts toJoystick_stmts k
  else
    handleMouse_horizontal_p p
      (handleMouse_vertical_p p
         (acts (handleMouse_button_stmts p) k)).

(** The statements of [handleCD32Pad] that set the direction pins. *)
Definition handleCD32Pad_direction_stmts (p : PS2X) : list (M unit) :=
  let analog := mapAnalogStickHorizontal p released in
  let analog := mapAnalogStickVertical p analog in
  [ (if up analog || Button p PSB_PAD_UP
     then buttonPress PIN_UP else buttonRelease PIN_UP);
    (if down analog || Button p PSB_PAD_DOWN
     then buttonPress PIN_DOWN else buttonRelease PIN_DOWN);
    (if left analog || Button p PSB_PAD_LEFT
     then buttonPress PIN_LEFT else buttonRelease PIN_LEFT);
    (if right analog || Button p PSB_PAD_RIGHT
     then buttonPress PIN_RIGHT else buttonRelease PIN_RIGHT) ].

Definition handleCD32Pad_p (p : PS2X) (k : Prog) : Prog :=
  acts (handleCD32Pad_direction_stmts p)
    (acts (handleCD32Pad_register_stmts p) k).

(** The timeout at the end of [loop].  The two operands of the [&&] are two
    steps; the second reads the clock and then [lastSwitchedTime] again. *)
Definition loop_timeout_p : Prog :=
  test (lst <- gets lastSwitchedTime ;; ret (lst >? 0))
    (test (now <- millis ;; lst <- gets lastSwitchedTime ;;
           ret (to_ulong (now - lst) >? TIMEOUT_CD32_MODE))
       (test (gets wasMouse)
          (acts toMouse_stmts (act (modify (set_lastSwitchedTime 0)) Halt))
          (acts toJoystick_stmts (act (modify (set_lastSwitchedTime 0)) Halt)))
       Halt)
    Halt.

(** One iteration of [loop]; the [switch] is the step that reads [mode]. *)
Definition loop_p (snapshot : PS2X) : Prog :=
  act (read_gamepad snapshot)
    (Step (fun w => w)
       (fun w =>
          match mode w with
          | MODE_JOYSTICK =>
              handleJoystick_p snapshot
                (act (digitalWrite PIN_LED_MODE_CD32 LOW) loop_timeout_p)
          | MODE_MOUSE =>
              handleMouse_p snapshot
                (act (now <- millis ;;
                      digitalWrite PIN_LED_MODE_CD32
                        (of_bool (Z.rem (Z.quot now 500) 2 =? 0)))
                   loop_timeout_p)
          | MODE_CD32 =>
              handleCD32Pad_p snapshot
                (act (digitalWrite PIN_LED_MODE_CD32 HIGH) loop_timeout_p)
          end)).

(** A program run to its end with no interrupt served. *)
Fixpoint runp (p : Prog) (w : World) : World :=
  match p with
  | Halt => w
  | Step f k => runp (k w) (f w)
  end.

(** The number of statements such a run takes. *)
Fixpoint steps_left (p : Prog) (w : World) : nat :=
  match p with
  | Halt => O
  | Step f k => S (steps_left (k w) (f w))
  end.

(** What can happen next: [loop] runs its next statement, [loop] is entered
    again (when the previous iteration is over) with the snapshot it is going
    to read, or an interrupt is served: an edge of the strobe that leaves the
    line at [level], or a rising edge of the clock line.  Interrupts are
    served only while they are enabled; an edge that arrives inside a
    [noInterrupts] section is served after [interrupts], which is where a
    schedule has it. *)
Inductive Action :=
| Tick
| Next (snapshot : PS2X)
| Strobe (level : bool)
| ClockEdge.

(** The world and what is left of the current iteration. *)
Definition Config : Type := World * Prog.

Definition pstep (c : Config) (a : Action) : Config :=
  match a with
  | Tick =>
      match snd c with
      | Halt => c
      | Step f k => (f (fst c), k (fst c))
      end
  | Next snapshot =>
      match snd c with
      | Halt => (fst c, loop_p snapshot)
      | Step _ _ => c
      end
  | Strobe level =>
      if irq (fst c) then (step (fst c) (EvPadMode level), snd c) else c
  | ClockEdge =>
      if irq (fst c) then (step (fst c) EvClock, snd c) else c
  end.

Definition prun (c : Config) (l : list Action) : Config := fold_left pstep l c.

(** The configurations the sketch reaches after [setup]. *)
Definition preachable (c : Config) : Prop :=
  exists env_line env_clock l, c = prun (boot env_line env_clock, Halt) l.

(** Every statement still to run keeps the invariant [I] and relates the
    world it finds to the world it leaves by [R]. *)
Inductive keeps (I : World -> Prop) (R : World -> World -> Prop) : Prog -> Prop :=
| keeps_Halt : keeps I R Halt
| keeps_Step f k :
    (forall w, I w -> I (f w)) ->
    (forall w, I w -> R w (f w)) ->
    (forall w, I w -> keeps I R (k w)) ->
    keeps I R (Step f k).

(** The statement [c] keeps [I] and relates the two worlds by [R]. *)
Definition respects {A} (I : World -> Prop) (R : World -> World -> Prop) (c : M A) : Prop :=
  forall w, I w -> I (exec c w) /\ R w (exec c w).

Definition is_strobe (a : Action) : bool :=
  match a with Strobe _ => true | _ => false end.

Definition is_clock_edge (a : Action) : bool :=
  match a with ClockEdge => true | _ => false end.

(** Actions of the main loop and of the clock line only. *)
Definition strobe_free (l : list Action) : bool := forallb (fun a => negb (is_strobe a)) l.

(** No timeout can fire: no release of the strobe is recorded, or every
    reading the clock is still going to give lies within TIMEOUT_CD32_MODE ms
    of the recorded release. *)
Definition unarmed (w : World) : Prop := lastSwitchedTime w = 0.

Definition within_timeout (w : World) : Prop :=
  forall k, (ticks w <= k)%nat ->
    elapsed (to_ulong (clock w k)) (lastSwitchedTime w) <= TIMEOUT_CD32_MODE.

(** A pad session in progress: CD32 mode, the clock interrupt attached,
    interrupts enabled, the mode-select pin an input, the data pin an output,
    both registers in byte range. *)
Definition in_session (w : World) : Prop :=
  mode w = MODE_CD32 /\ clockISR w = true /\ irq w = true /\
  ddr w PIN_PADMODE = false /\ ddr w PIN_BTNREGOUT = true /\
  0 <= buttonsLive w < 256 /\ 0 <= buttons w < 256.

(** What the main loop leaves alone during a session: the shift register
    and the data line. *)
Definition shifter_untouched (w w' : World) : Prop :=
  buttons w' = buttons w /\ data_line w' = data_line w.

(** A session in which no timeout can fire, for one of the two reasons
    ([unarmed] or [within_timeout]) given by [Q]. *)
Definition session (Q : World -> Prop) (w : World) : Prop := in_session w /\ Q w.

Definition anything (w w' : World) : Prop := True.

(** The pins no mode owns and the shape of the live register. *)
Definition steady (w : World) : Prop :=
  fixed_pins w /\ msb_set w /\ 0 <= buttonsLive w < 256.

(** A session whose strobe was released while the clock read 1000 ms and
    asserted again, with every later reading of the clock at 1100 ms. *)
Definition second_report_clock : nat -> Z :=
  fun n => match n with O => 1000 | _ => 1100 end.

Definition second_report : World :=
  run (boot line_high second_report_clock)
    [EvPadMode false; EvLoop (pad start_pressed 127 127 127 127);
     EvPadMode true; EvPadMode false].

(** A strobe that arrives after the mapping call of [handleJoystick] and
    before its [noInterrupts]: the iteration is entered, runs [n] statements,
    the strobe is served, and the iteration runs to its end. *)
Definition preempted_poll (n m : nat) : list Action :=
  Next idle_pad :: repeat Tick n ++ Strobe false :: repeat Tick m.

(** * Properties *)

Lemma exec_seq {A B} (c : M A) (k : M B) w :
  exec (c ;; k) w = exec k (exec c w).
Proof. unfold exec, bind. now destruct (c w). Qed.

Lemma exec_bind {A B} (c : M A) (k : A -> M B) w :
  exec (x <- c ;; k x) w = exec (k (fst (c w))) (exec c w).
Proof. unfold exec, bind. now destruct (c w). Qed.

(** ** Serial pad shifter *)

Local Arguments Z.testbit : simpl never.
Local Arguments Z.land : simpl never.
Local Arguments Z.shiftr : simpl never.
Local Arguments Z.modulo : simpl never.
Local Arguments Z.quot : simpl never.
Local Arguments Z.rem : simpl never.
Local Arguments Z.sub : simpl never.
Local Arguments Z.add : simpl never.
Local Arguments Z.mul : simpl never.

Lemma data_line_app w l :
  data_line (set_writes (writes w ++ l) w) =
  data_line w ++ map snd (filter (fun e => fst e =? PIN_BTNREGOUT) l).
Proof.
  unfold data_line; simpl. now rewrite filter_app, map_app.
Qed.

Lemma land_1_testbit b : negb (to_byte (Z.land b 1) =? LOW) = Z.testbit b 0.
Proof.
  unfold to_byte, LOW. change 1 with (Z.ones 1). rewrite Z.land_ones by lia.
  rewrite Z.bit0_odd, Zodd_mod. change (2 ^ 1) with 2.
  assert (H : 0 <= b mod 2 < 2) by (apply Z.mod_pos_bound; lia).
  rewrite Z.mod_small by lia.
  destruct (Z.eqb_spec (b mod 2) 0), (Z.eqb_spec (b mod 2) 1); simpl; auto; lia.
Qed.

Lemma shiftr_byte b : 0 <= b < 256 -> 0 <= to_byte (Z.shiftr b 1) < 256.
Proof. intros _. unfold to_byte. apply Z.mod_pos_bound. lia. Qed.

Lemma testbit_shiftr_byte b k :
  0 <= b < 256 -> 0 <= k ->
  Z.testbit (to_byte (Z.shiftr b 1)) k = Z.testbit b (k + 1).
Proof.
  intros Hb Hk. unfold to_byte.
  rewrite Z.mod_small.
  - now rewrite Z.shiftr_spec by lia.
  - rewrite Z.shiftr_div_pow2 by lia. change (2 ^ 1) with 2.
    split; [apply Z.div_pos; lia | apply Z.div_lt_upper_bound; lia].
Qed.

Lemma onClockEdge_spec w :
  let w' := exec onClockEdge w in
  data_line w' = data_line w ++ [Z.testbit (buttons w) 0] /\
  buttons w' = to_byte (Z.shiftr (buttons w) 1) /\
  buttonsLive w' = buttonsLive w /\ mode w' = mode w.
Proof.
  unfold exec, onClockEdge, bind, gets, digitalWrite, modify; simpl.
  repeat split.
  unfold data_line; simpl. rewrite filter_app, map_app; simpl.
  now rewrite land_1_testbit.
Qed.

Lemma clockEdges_spec n : forall w,
  0 <= buttons w < 256 ->
  data_line (exec (clockEdges n) w) =
  data_line w ++ map (fun k => Z.testbit (buttons w) (Z.of_nat k)) (seq 0 n).
Proof.
  induction n as [|n IH]; intros w Hb.
  - simpl. now rewrite app_nil_r.
  - change (exec (clockEdges (S n)) w)
      with (exec (clockEdges n) (exec onClockEdge w)).
    destruct (onClockEdge_spec w) as (Hd & Hbt & _).
    rewrite IH by (rewrite Hbt; now apply shiftr_byte).
    rewrite Hd, Hbt, <- app_assoc. f_equal. simpl. f_equal.
    rewrite <- seq_shift, map_map. apply map_ext_in. intros k _.
    rewrite testbit_shiftr_byte by lia. f_equal. lia.
Qed.

Lemma onPadModeChange_asserted w :
  strobe_asserted w ->
  let w' := exec onPadModeChange w in
  data_line w' = data_line w ++ [Z.testbit (buttonsLive w) 0] /\
  buttons w' = to_byte (Z.shiftr (buttonsLive w) 1) /\
  buttonsLive w' = buttonsLive w /\ mode w' = MODE_CD32.
Proof.
  intros [Hd Hl].
  unfold exec, onPadModeChange, toCD32, bind, gets, digitalRead, digitalWrite,
    pinMode, attachInterrupt_BTNREGCLK, modify, ret; simpl.
  rewrite Hd, Hl; simpl.
  destruct (mode w) eqn:Hm; simpl;
    rewrite ?Hm; simpl; (repeat split);
    unfold data_line; simpl; rewrite filter_app, map_app; simpl;
    now rewrite land_1_testbit.
Qed.

Lemma testbit_byte_high r k : 0 <= r < 256 -> (8 <= k)%nat -> Z.testbit r (Z.of_nat k) = false.
Proof.
  intros Hr Hk. destruct (Z.eq_dec r 0) as [->|Hnz]; [apply Z.testbit_0_l|].
  apply Z.bits_above_log2; [lia|].
  assert (Z.log2 r < 8) by (apply Z.log2_lt_pow2; lia). lia.
Qed.

Lemma shifted_out_bits r n :
  0 <= r < 256 ->
  map (fun k => Z.testbit r (Z.of_nat k)) (seq 0 n) =
  firstn n (bits_lsb_first r ++ repeat false n).
Proof.
  intros Hr. unfold bits_lsb_first.
  assert (Hgen : forall m s, (8 <= s)%nat ->
            repeat false m = map (fun k => Z.testbit r (Z.of_nat k)) (seq s m)).
  { induction m as [|m IH]; intros s Hs; simpl; [reflexivity|].
    rewrite testbit_byte_high by assumption. f_equal. apply IH. lia. }
  assert (Hrep : repeat false n = map (fun k => Z.testbit r (Z.of_nat k)) (seq 8 n))
    by (apply Hgen; lia).
  rewrite Hrep, <- map_app, <- seq_app, firstn_map. f_equal.
  rewrite (Nat.add_comm 8 n), seq_app, firstn_app, length_seq, Nat.sub_diag.
  rewrite firstn_all2 by (rewrite length_seq; lia). simpl.
  now rewrite app_nil_r.
Qed.

(** C1.  With the strobe line asserted and the live register holding an 8-bit
    value [r] whose reserved bit 7 is 1, one strobe edge followed by [n] clock
    edges writes exactly [n + 1] levels to the data line: the 8 bits of [r],
    least significant first, then 0 (pressed) on every further edge. *)
Theorem C1_serial_shift_out (w : World) (r : Z) (n : nat) :
  0 <= r < 256 ->
  Z.testbit r 7 = true ->
  buttonsLive w = r ->
  strobe_asserted w ->
  let w' := exec (onPadModeChange ;; clockEdges n) w in
  data_line w' =
    data_line w ++ firstn (S n) (bits_lsb_first r ++ repeat false (S n)) /\
  length (data_line w') = (length (data_line w) + S n)%nat /\
  nth 7 (bits_lsb_first r) false = true.
Proof.
  intros Hr H7 Hlive Hs w'.
  assert (Hseq : data_line w' =
            data_line w ++ map (fun k => Z.testbit r (Z.of_nat k)) (seq 0 (S n))).
  { subst w'.
    rewrite exec_seq.
    destruct (onPadModeChange_asserted w Hs) as (Hd & Hb & _).
    rewrite clockEdges_spec by (rewrite Hb; apply shiftr_byte; lia).
    rewrite Hd, Hb, Hlive, <- app_assoc. f_equal. simpl. f_equal.
    rewrite <- seq_shift, map_map. apply map_ext_in. intros k _.
    rewrite testbit_shiftr_byte by lia. f_equal. lia. }
  split; [|split].
  - rewrite Hseq. f_equal. now apply shifted_out_bits.
  - rewrite Hseq, length_app, length_map, length_seq. reflexivity.
  - exact H7.
Qed.

(** ** Framing: which parts of the world a piece of code leaves alone *)

Lemma preserves_ret {A B} (f : World -> A) (b : B) : preserves f (ret b).
Proof. intro w; reflexivity. Qed.

Lemma preserves_gets {A B} (f : World -> A) (g : World -> B) : preserves f (gets g).
Proof. intro w; reflexivity. Qed.

Lemma preserves_bind {A B C} (f : World -> A) (c : M B) (k : B -> M C) :
  preserves f c -> (forall b, preserves f (k b)) -> preserves f (bind c k).
Proof.
  intros Hc Hk w. unfold bind. specialize (Hc w). destruct (c w) as [b w1].
  simpl in Hc. now rewrite Hk.
Qed.

Lemma maintains_bind {B C} (I : World -> Prop) (c : M B) (k : B -> M C) :
  maintains I c -> (forall b, maintains I (k b)) -> maintains I (bind c k).
Proof.
  intros Hc Hk w Hw. unfold bind. specialize (Hc w Hw). destruct (c w) as [b w1].
  now apply Hk.
Qed.

Lemma preserves_maintains {A B} (f : World -> A) (P : A -> Prop) (c : M B) :
  preserves f c -> maintains (fun w => P (f w)) c.
Proof. intros Hc w Hw. now rewrite Hc. Qed.

Ltac frame_step :=
  match goal with
  | |- preserves _ (bind _ _) => apply preserves_bind; [|intro]
  | |- preserves _ (ret _) => apply preserves_ret
  | |- preserves _ (gets _) => apply preserves_gets
  | |- preserves _ (if ?b then _ else _) => destruct b
  | |- preserves _ (match ?m with MODE_JOYSTICK => _ | MODE_MOUSE => _ | MODE_CD32 => _ end) =>
      destruct m
  | |- preserves _ _ => intro; reflexivity
  end.

Ltac frame := repeat frame_step.

Lemma flashLed_preserves {A} (f : World -> A) n :
  (forall v w, f (set_port v w) = f w) ->
  (forall v w, f (set_writes v w) = f w) ->
  preserves f (flashLed n).
Proof.
  intros Hp Hw. induction n as [|n IH]; simpl.
  - apply preserves_ret.
  - repeat (apply preserves_bind; [|intro]); try assumption;
      try (intro; reflexivity);
      intro w; unfold digitalWrite, modify; simpl; now rewrite Hw, Hp.
Qed.

Lemma toMouse_live : preserves buttonsLive toMouse.
Proof. unfold toMouse. frame. Qed.

Lemma toJoystick_live : preserves buttonsLive toJoystick.
Proof. unfold toJoystick. frame. Qed.

Lemma toCD32_live : preserves buttonsLive toCD32.
Proof. unfold toCD32. frame. Qed.

Lemma onPadModeChange_live : preserves buttonsLive onPadModeChange.
Proof.
  unfold onPadModeChange. frame; try apply toCD32_live.
Qed.

Lemma onClockEdge_live : preserves buttonsLive onClockEdge.
Proof. unfold onClockEdge. frame. Qed.

Lemma handleJoystick_live : preserves buttonsLive handleJoystick.
Proof.
  unfold handleJoystick. cbv zeta.
  apply preserves_bind; [frame|intro p].
  destruct (_ || _); [apply toMouse_live|].
  destruct (Button p PSB_SELECT).
  - repeat match goal with
           | |- preserves _ (if ?b then _ else _) => destruct b
           end;
      try apply preserves_ret;
      (apply preserves_bind; [intro; reflexivity|intro]);
      apply flashLed_preserves; reflexivity.
  - frame.
Qed.

Lemma handleMouse_live : preserves buttonsLive handleMouse.
Proof.
  unfold handleMouse. apply preserves_bind; [frame|intro p].
  destruct (_ || _); [apply toJoystick_live|].
  unfold handleMouse_horizontal, handleMouse_vertical, handleMouse_buttons.
  cbv zeta. frame.
Qed.

(** ** The reserved bit of the live register *)

Lemma bitnot_uint_bit7 btn : 0 <= btn < 128 -> Z.testbit (bitnot_uint btn) 7 = true.
Proof.
  intros Hb. unfold bitnot_uint, to_uint. change 65536 with (2 ^ 16).
  rewrite Z.mod_pow2_bits_low, Z.lnot_spec by lia.
  destruct (Z.eq_dec btn 0) as [->|Hnz]; [reflexivity|].
  rewrite Z.bits_above_log2; [reflexivity|lia|].
  assert (Z.log2 btn < 7) by (apply Z.log2_lt_pow2; lia). lia.
Qed.

Lemma clear_bit_msb btn : 0 <= btn < 128 -> maintains msb_set (clear_bit btn).
Proof.
  intros Hb w Hw. unfold msb_set, clear_bit, bind, gets, modify in *; simpl.
  unfold to_byte. change 256 with (2 ^ 8).
  rewrite Z.mod_pow2_bits_low, Z.land_spec, Hw, bitnot_uint_bit7 by lia.
  reflexivity.
Qed.

Lemma maintains_ret {B} (I : World -> Prop) (b : B) : maintains I (ret b).
Proof. intros w Hw; exact Hw. Qed.

Lemma register_stmts_msb p :
  Forall (maintains msb_set) (handleCD32Pad_register_stmts p).
Proof.
  unfold handleCD32Pad_register_stmts.
  repeat constructor;
    try (intros w _; reflexivity);
    match goal with
    | |- maintains _ (if ?b then _ else _) => destruct b
    end;
    try apply maintains_ret; apply clear_bit_msb; vm_compute; split; congruence.
Qed.

Lemma run_stmts_maintains (I : World -> Prop) l :
  Forall (maintains I) l -> maintains I (run_stmts l).
Proof.
  induction 1 as [|c l Hc _ IH]; simpl.
  - apply maintains_ret.
  - apply maintains_bind; auto.
Qed.

Lemma Forall_firstn {A} (P : A -> Prop) k l : Forall P l -> Forall P (firstn k l).
Proof.
  intros H. revert k. induction H; intros [|k]; simpl; constructor; auto.
Qed.

Lemma handleCD32Pad_directions_live : preserves buttonsLive handleCD32Pad_directions.
Proof. unfold handleCD32Pad_directions. cbv zeta. frame. Qed.

Lemma handleCD32Pad_msb w : msb_set (exec handleCD32Pad w).
Proof.
  unfold handleCD32Pad. rewrite exec_seq, exec_bind. simpl.
  set (w1 := exec handleCD32Pad_directions w).
  unfold handleCD32Pad_register_stmts.
  cbn [run_stmts]. rewrite exec_seq.
  pose proof (register_stmts_msb (ps2x w1)) as Hall.
  unfold handleCD32Pad_register_stmts in Hall.
  apply Forall_inv_tail in Hall.
  apply (run_stmts_maintains msb_set _ Hall).
  reflexivity.
Qed.

Lemma loop_timeout_live : preserves buttonsLive loop_timeout.
Proof.
  unfold loop_timeout. frame; first [apply toMouse_live | apply toJoystick_live].
Qed.

Lemma loop_poll_msb snapshot : maintains msb_set (loop_poll snapshot).
Proof.
  unfold loop_poll.
  apply maintains_bind; [intros w Hw; exact Hw|intros _].
  apply maintains_bind; [intros w Hw; exact Hw|intros m].
  destruct m.
  - apply (preserves_maintains buttonsLive (fun v => Z.testbit v 7 = true)).
    apply preserves_bind; [apply handleJoystick_live|intro; frame].
  - apply (preserves_maintains buttonsLive (fun v => Z.testbit v 7 = true)).
    apply preserves_bind; [apply handleMouse_live|intro; frame].
  - apply maintains_bind; [intros w _; apply handleCD32Pad_msb|].
    intros _ w Hw. exact Hw.
Qed.

Lemma loop_msb snapshot : maintains msb_set (loop snapshot).
Proof.
  unfold loop. apply maintains_bind; [apply loop_poll_msb|intros _].
  apply (preserves_maintains buttonsLive (fun v => Z.testbit v 7 = true)).
  apply loop_timeout_live.
Qed.

Lemma step_msb w e : msb_set w -> msb_set (step w e).
Proof.
  intros Hw. destruct e as [level| |snapshot]; simpl.
  - unfold msb_set, exec. now rewrite onPadModeChange_live.
  - destruct (clockISR w); [|assumption].
    unfold msb_set, exec. now rewrite onClockEdge_live.
  - now apply loop_msb.
Qed.

Lemma run_msb evs : forall w, msb_set w -> msb_set (run w evs).
Proof.
  induction evs as [|e evs IH]; intros w Hw; simpl; [assumption|].
  apply IH. now apply step_msb.
Qed.

Lemma reachable_msb w : reachable w -> msb_set w.
Proof.
  intros (env_line & env_clock & evs & ->). apply run_msb. reflexivity.
Qed.

(** C2.  In every reachable world the live register has its reserved bit 7
    set, so a strobe-asserted edge hands the shifter a value whose bit 7 is 1
    (after the first shift it sits at bit 6 of [buttons]).  This also holds
    between any two statements of the refresh that a [loop] iteration runs in
    [handleCD32Pad], where a strobe interrupt may arrive.  The register
    starts with bit 7 set and every refresh ends with bit 7 set. *)
Theorem C2_reserved_bit_set (w : World) (Hr : reachable w) :
  Z.testbit (buttonsLive w) 7 = true /\
  (strobe_asserted w ->
   buttons (exec onPadModeChange w) = to_byte (Z.shiftr (buttonsLive w) 1) /\
   Z.testbit (buttons (exec onPadModeChange w)) 6 = true) /\
  (forall snapshot k,
     let w1 := exec handleCD32Pad_directions (set_ps2x snapshot w) in
     Z.testbit (buttonsLive
       (exec (run_stmts (firstn k (handleCD32Pad_register_stmts snapshot))) w1)) 7
     = true) /\
  (forall env_line env_clock, Z.testbit (buttonsLive (boot env_line env_clock)) 7 = true) /\
  (forall w0, Z.testbit (buttonsLive (exec handleCD32Pad w0)) 7 = true).
Proof.
  pose proof (reachable_msb w Hr) as Hmsb.
  split; [exact Hmsb|]. split; [|split; [|split]].
  - intros Hs. destruct (onPadModeChange_asserted w Hs) as (_ & Hb & _).
    split; [exact Hb|]. rewrite Hb. unfold to_byte. change 256 with (2 ^ 8).
    rewrite Z.mod_pow2_bits_low, Z.shiftr_spec by lia. exact Hmsb.
  - intros snapshot k w1.
    apply (run_stmts_maintains msb_set); [apply Forall_firstn, register_stmts_msb|].
    unfold msb_set, w1, exec. rewrite handleCD32Pad_directions_live. exact Hmsb.
  - reflexivity.
  - exact handleCD32Pad_msb.
Qed.

Lemma C2_witness :
  Z.testbit (buttonsLive
    (run booted [EvPadMode false; EvLoop (pad start_pressed 127 127 127 127)])) 7 = true.
Proof.
  refine (proj1 (C2_reserved_bit_set _ _)).
  exists line_high, (clock_from 1000),
    [EvPadMode false; EvLoop (pad start_pressed 127 127 127 127)].
  reflexivity.
Defined.

Lemma C1_witness :
  let w := run booted [EvLoop (pad start_pressed 127 127 127 127)] in
  let w' := exec (onPadModeChange ;; clockEdges 9)
              (set_line (upd (line w) PIN_PADMODE false) w) in
  data_line w' =
    [false; false; false; false; false; false; false; true; false; false].
Proof.
  intros w w'.
  exact (proj1 (C1_serial_shift_out
                  (set_line (upd (line w) PIN_PADMODE false) w) 128 9
                  ltac:(lia) eq_refl eq_refl (conj eq_refl eq_refl))).
Defined.

(** ** Racing profiles *)

(** C4.  Under the Racing1 and Racing2 profiles, for every controller
    snapshot (and whatever the joystick structure held before), a produced
    signal with [down] true has [up] false. *)
Theorem C4_braking_dominates (f : JoyMappingFunc) (p : PS2X) (j0 : TwoButtonJoystick) :
  f = mapJoystickRacing1 \/ f = mapJoystickRacing2 ->
  down (f p j0) = true ->
  up (f p j0) = false.
Proof.
  intros [-> | ->]; unfold mapJoystickRacing1, mapJoystickRacing2; cbv zeta;
    simpl;
    match goal with
    | |- context [if ?c then _ else _] => destruct c eqn:Hdown
    end; simpl; intros H; congruence.
Qed.

Lemma C4_witness :
  up (mapJoystickRacing1 (pad brake_and_accelerate 127 127 127 0) released) = false /\
  up (mapJoystickRacing2 (pad brake_and_accelerate 127 127 127 0) released) = false.
Proof.
  split.
  - exact (C4_braking_dominates mapJoystickRacing1
             (pad brake_and_accelerate 127 127 127 0) released
             (or_introl eq_refl) eq_refl).
  - exact (C4_braking_dominates mapJoystickRacing2
             (pad brake_and_accelerate 127 127 127 0) released
             (or_intror eq_refl) eq_refl).
Defined.

(** ** Polled mode transitions *)

Lemma handleJoystick_deflected w :
  right_stick_deflected (ps2x w) = true -> mode (exec handleJoystick w) = MODE_MOUSE.
Proof.
  unfold right_stick_deflected, handleJoystick, exec, bind, gets; cbv zeta; simpl.
  intros ->. reflexivity.
Qed.

Lemma handleMouse_dpad w :
  dpad_pressed (ps2x w) = true -> mode (exec handleMouse w) = MODE_JOYSTICK.
Proof.
  unfold dpad_pressed, handleMouse, exec, bind, gets; simpl.
  intros ->. reflexivity.
Qed.

Lemma loop_poll_joystick w snapshot :
  mode w = MODE_JOYSTICK ->
  exec (loop_poll snapshot) w =
  exec (digitalWrite PIN_LED_MODE_CD32 LOW)
    (exec handleJoystick (set_ps2x snapshot w)).
Proof.
  intros Hm. unfold loop_poll. rewrite exec_seq, exec_bind.
  change (fst (gets mode (exec (read_gamepad snapshot) w))) with (mode w).
  rewrite Hm. now rewrite exec_seq.
Qed.

Lemma loop_poll_mouse w snapshot :
  mode w = MODE_MOUSE ->
  exec (loop_poll snapshot) w =
  exec (now <- millis ;;
        digitalWrite PIN_LED_MODE_CD32 (of_bool (Z.rem (Z.quot now 500) 2 =? 0)))
    (exec handleMouse (set_ps2x snapshot w)).
Proof.
  intros Hm. unfold loop_poll. rewrite exec_seq, exec_bind.
  change (fst (gets mode (exec (read_gamepad snapshot) w))) with (mode w).
  rewrite Hm. now rewrite exec_seq.
Qed.

(** ** Mouse period *)

Lemma mouse_period_eq d :
  ANALOG_DEAD_ZONE <= d <= 128 ->
  mouse_period d = 60 - ((d - 65) * 54) / 62.
Proof.
  unfold mouse_period, arduino_map, to_uint.
  unfold ANALOG_DEAD_ZONE, ANALOG_IDLE_VALUE, MOUSE_SLOW_DELTA, MOUSE_FAST_DELTA.
  intros Hd. change (127 - 65) with 62.
  replace ((d - 65) * (6 - 60)) with (- ((d - 65) * 54)) by lia.
  rewrite Z.quot_opp_l, Z.quot_div_nonneg by lia.
  assert (0 <= (d - 65) * 54 / 62 <= 54).
  { split; [apply Z.div_pos; lia|].
    assert ((d - 65) * 54 / 62 < 55) by (apply Z.div_lt_upper_bound; lia).
    lia. }
  rewrite Z.mod_small by lia. lia.
Qed.

Lemma deflection_range a :
  0 <= a < 256 -> 0 <= arduino_abs (a - ANALOG_IDLE_VALUE) <= 128.
Proof.
  unfold arduino_abs, ANALOG_IDLE_VALUE. intros Ha.
  destruct (Z.gtb_spec (a - 127) 0); lia.
Qed.

(** C6.  For two readings of an axis that deflect to the same side, both
    strictly beyond the dead zone, the one that deflects further gets a
    period that is not longer: the period computed by [handleMouse] does not
    increase with the deflection magnitude. *)
Theorem C6_period_monotone (a1 a2 : Z) :
  0 <= a1 < 256 -> 0 <= a2 < 256 ->
  let delta1 := a1 - ANALOG_IDLE_VALUE in
  let delta2 := a2 - ANALOG_IDLE_VALUE in
  (delta1 >? 0) = (delta2 >? 0) ->
  ANALOG_DEAD_ZONE < arduino_abs delta1 ->
  arduino_abs delta1 < arduino_abs delta2 ->
  mouse_period (arduino_abs delta2) <= mouse_period (arduino_abs delta1).
Proof.
  intros H1 H2 delta1 delta2 _ Hdz Hlt.
  pose proof (deflection_range a1 H1) as R1.
  pose proof (deflection_range a2 H2) as R2.
  fold delta1 in R1. fold delta2 in R2.
  unfold ANALOG_DEAD_ZONE in Hdz.
  rewrite !mouse_period_eq by (unfold ANALOG_DEAD_ZONE; lia).
  assert ((arduino_abs delta1 - 65) * 54 / 62 <= (arduino_abs delta2 - 65) * 54 / 62)
    by (apply Z.div_le_mono; lia).
  lia.
Qed.

Lemma C6_witness :
  mouse_period (arduino_abs (255 - ANALOG_IDLE_VALUE)) <=
  mouse_period (arduino_abs (200 - ANALOG_IDLE_VALUE)).
Proof.
  exact (C6_period_monotone 200 255 ltac:(lia) ltac:(lia) eq_refl eq_refl eq_refl).
Defined.

Example mouse_period_slowest : mouse_period 66 = 60.
Proof. reflexivity. Qed.

Example mouse_period_fastest : mouse_period 128 = 6.
Proof. reflexivity. Qed.

(** ** Unfolding the sketch *)

Create HintDb sketch.
#[local] Hint Unfold loop loop_poll loop_timeout read_gamepad
  handleJoystick handleMouse handleMouse_horizontal handleMouse_vertical
  handleMouse_buttons handleCD32Pad handleCD32Pad_directions
  handleCD32Pad_register_stmts clear_bit toMouse toJoystick toCD32
  onPadModeChange onClockEdge buttonPress buttonRelease noInterrupts
  interrupts attachInterrupt_BTNREGCLK detachInterrupt_BTNREGCLK delay
  JMAP_NORMAL JMAP_RACING1 JMAP_RACING2 JMAP_PLATFORM : sketch.

Ltac unfold_sketch :=
  repeat autounfold with sketch; cbn [run_stmts flashLed]; cbv zeta.

Ltac solve_frame := unfold_sketch; frame.

(** ** The live register refresh *)

Lemma handleCD32Pad_directions_ps2x : preserves ps2x handleCD32Pad_directions.
Proof. solve_frame. Qed.

Lemma register_value p w :
  buttonsLive (exec (run_stmts (handleCD32Pad_register_stmts p)) w) = refresh_value p.
Proof.
  unfold refresh_value, handleCD32Pad_register_stmts, exec, clear_bit, bind,
    gets, modify, ret; cbn [run_stmts].
  destruct (Button p PSB_START), (Button p PSB_TRIANGLE), (Button p PSB_SQUARE),
    (Button p PSB_CROSS), (Button p PSB_CIRCLE),
    (Button p PSB_L1 || Button p PSB_L2 || Button p PSB_L3),
    (Button p PSB_R1 || Button p PSB_R2 || Button p PSB_R3);
    reflexivity.
Qed.

Lemma refresh_value_layout p : live_layout p (refresh_value p).
Proof.
  unfold live_layout, refresh_value.
  destruct (Button p PSB_START), (Button p PSB_TRIANGLE), (Button p PSB_SQUARE),
    (Button p PSB_CROSS), (Button p PSB_CIRCLE),
    (Button p PSB_L1 || Button p PSB_L2 || Button p PSB_L3),
    (Button p PSB_R1 || Button p PSB_R2 || Button p PSB_R3);
    vm_compute; repeat split; congruence.
Qed.

Lemma handleCD32Pad_value w :
  buttonsLive (exec handleCD32Pad w) = refresh_value (ps2x w).
Proof.
  unfold handleCD32Pad. rewrite exec_seq, exec_bind.
  rewrite register_value. unfold exec, gets. cbn [fst snd].
  now rewrite handleCD32Pad_directions_ps2x.
Qed.

Lemma loop_poll_cd32_value w snapshot :
  mode w = MODE_CD32 ->
  buttonsLive (exec (loop_poll snapshot) w) = refresh_value snapshot.
Proof.
  intros Hm. unfold loop_poll. rewrite exec_seq, exec_bind. simpl. rewrite Hm.
  rewrite exec_seq.
  change (buttonsLive (exec (digitalWrite PIN_LED_MODE_CD32 HIGH) ?x))
    with (buttonsLive x).
  now rewrite handleCD32Pad_value.
Qed.

Lemma loop_poll_other_live w snapshot :
  mode w <> MODE_CD32 ->
  buttonsLive (exec (loop_poll snapshot) w) = buttonsLive w.
Proof.
  intros Hm. unfold loop_poll. rewrite exec_seq, exec_bind. simpl.
  destruct (mode w); [| |congruence].
  - rewrite exec_seq.
    change (buttonsLive (exec (digitalWrite PIN_LED_MODE_CD32 LOW) ?x))
      with (buttonsLive x).
    unfold exec. now rewrite handleJoystick_live.
  - rewrite exec_seq, exec_bind.
    change (buttonsLive (exec (digitalWrite PIN_LED_MODE_CD32 ?v) (exec millis ?x)))
      with (buttonsLive x).
    unfold exec. now rewrite handleMouse_live.
Qed.




(** ** CD32 mode and the mapping profile *)

Lemma profile_blind_bind {B C} (c : M B) (k : B -> M C) :
  profile_blind c -> (forall b, profile_blind (k b)) -> profile_blind (bind c k).
Proof.
  intros Hc Hk f w. unfold bind. rewrite Hc. destruct (c w) as [b w1]; simpl.
  apply Hk.
Qed.

Ltac blind_step :=
  match goal with
  | |- profile_blind (bind _ _) => apply profile_blind_bind; [|intro]
  | |- profile_blind (if ?b then _ else _) => destruct b
  | |- profile_blind (match ?m with MODE_JOYSTICK => _ | MODE_MOUSE => _ | MODE_CD32 => _ end) =>
      destruct m
  | |- profile_blind _ => intros ? ?; reflexivity
  end.

Ltac solve_blind := unfold_sketch; repeat blind_step.

Lemma handleCD32Pad_blind : profile_blind handleCD32Pad.
Proof. solve_blind. Qed.

Lemma handleMouse_blind : profile_blind handleMouse.
Proof. solve_blind. Qed.

Lemma loop_timeout_blind : profile_blind loop_timeout.
Proof. solve_blind. Qed.

Lemma exec_blind {B} (c : M B) f w :
  profile_blind c -> exec c (set_joyMappingFunc f w) = set_joyMappingFunc f (exec c w).
Proof. intros Hc. unfold exec. now rewrite Hc. Qed.

Lemma loop_cd32_blind snapshot f w :
  mode w = MODE_CD32 ->
  exec (loop snapshot) (set_joyMappingFunc f w) =
  set_joyMappingFunc f (exec (loop snapshot) w).
Proof.
  intros Hm. unfold loop, loop_poll.
  rewrite !exec_seq, !exec_bind. cbn [gets fst]. 
  change (mode (exec (read_gamepad snapshot) (set_joyMappingFunc f w))) with (mode w).
  change (mode (exec (read_gamepad snapshot) w)) with (mode w).
  rewrite Hm.
  change (exec (gets mode) ?x) with x.
  change (exec (read_gamepad snapshot) (set_joyMappingFunc f w))
    with (set_joyMappingFunc f (exec (read_gamepad snapshot) w)).
  rewrite !exec_seq, (exec_blind handleCD32Pad) by apply handleCD32Pad_blind.
  change (exec (digitalWrite PIN_LED_MODE_CD32 HIGH) (set_joyMappingFunc f ?x))
    with (set_joyMappingFunc f (exec (digitalWrite PIN_LED_MODE_CD32 HIGH) x)).
  apply exec_blind, loop_timeout_blind.
Qed.

Lemma handleCD32Pad_ddr w pin :
  ddr (exec handleCD32Pad w) pin = ddr (exec handleCD32Pad_directions w) pin.
Proof.
  unfold handleCD32Pad. rewrite exec_seq, exec_bind.
  generalize (exec handleCD32Pad_directions w) as w1. intros w1.
  cbn [gets fst]. change (exec (gets ps2x) w1) with w1.
  assert (H : preserves ddr (run_stmts (handleCD32Pad_register_stmts (ps2x w1))))
    by solve_frame.
  unfold exec. now rewrite H.
Qed.

(** The direction pins of [handleCD32Pad] follow the Normal-style mapping of
    the left stick and the directional pad: a pin is made an output exactly
    when the stick is beyond the dead zone in that direction or the pad
    button is pressed, and an input otherwise.  The selected profile plays no
    part: changing [joyMappingFunc] before [handleCD32Pad], or before a whole
    [loop] iteration that starts in CD32 mode, changes nothing but that field
    of the resulting world.  Which level a pin made an output drives is
    another matter: [handleCD32Pad] writes no latch. *)
Lemma handleCD32Pad_direction_roles (w : World) (f : JoyMappingFunc) (snapshot : PS2X) :
  let p := ps2x w in
  let w' := exec handleCD32Pad w in
  (ddr w' PIN_UP =
     ((Analog p PSS_LY - ANALOG_IDLE_VALUE <? - ANALOG_DEAD_ZONE) || Button p PSB_PAD_UP) /\
   ddr w' PIN_DOWN =
     ((Analog p PSS_LY - ANALOG_IDLE_VALUE >? ANALOG_DEAD_ZONE) || Button p PSB_PAD_DOWN) /\
   ddr w' PIN_LEFT =
     ((Analog p PSS_LX - ANALOG_IDLE_VALUE <? - ANALOG_DEAD_ZONE) || Button p PSB_PAD_LEFT) /\
   ddr w' PIN_RIGHT =
     ((Analog p PSS_LX - ANALOG_IDLE_VALUE >? ANALOG_DEAD_ZONE) || Button p PSB_PAD_RIGHT)) /\
  (ddr w' PIN_UP = up (mapJoystickNormal p released) /\
   ddr w' PIN_DOWN = down (mapJoystickNormal p released) /\
   ddr w' PIN_LEFT = left (mapJoystickNormal p released) /\
   ddr w' PIN_RIGHT = right (mapJoystickNormal p released)) /\
  exec handleCD32Pad (set_joyMappingFunc f w) = set_joyMappingFunc f w' /\
  (mode w = MODE_CD32 ->
   exec (loop snapshot) (set_joyMappingFunc f w) =
   set_joyMappingFunc f (exec (loop snapshot) w)).
Proof.
  intros p w'.
  assert (Hdirs :
    ddr w' PIN_UP =
      ((Analog p PSS_LY - ANALOG_IDLE_VALUE <? - ANALOG_DEAD_ZONE) || Button p PSB_PAD_UP) /\
    ddr w' PIN_DOWN =
      ((Analog p PSS_LY - ANALOG_IDLE_VALUE >? ANALOG_DEAD_ZONE) || Button p PSB_PAD_DOWN) /\
    ddr w' PIN_LEFT =
      ((Analog p PSS_LX - ANALOG_IDLE_VALUE <? - ANALOG_DEAD_ZONE) || Button p PSB_PAD_LEFT) /\
    ddr w' PIN_RIGHT =
      ((Analog p PSS_LX - ANALOG_IDLE_VALUE >? ANALOG_DEAD_ZONE) || Button p PSB_PAD_RIGHT)).
  { subst w' p. rewrite !handleCD32Pad_ddr.
    unfold handleCD32Pad_directions, exec, bind, gets, buttonPress, buttonRelease,
      pinMode, modify, mapAnalogStickVertical, mapAnalogStickHorizontal;
      cbv zeta; cbn [up down left right set_up set_down set_left set_right released].
    destruct (_ || Button (ps2x w) PSB_PAD_UP),
             (_ || Button (ps2x w) PSB_PAD_DOWN),
             (_ || Button (ps2x w) PSB_PAD_LEFT),
             (_ || Button (ps2x w) PSB_PAD_RIGHT); repeat split; reflexivity. }
  split; [exact Hdirs|]. split; [|split].
  - destruct Hdirs as (Hu & Hd & Hl & Hr).
    rewrite Hu, Hd, Hl, Hr. repeat split; reflexivity.
  - apply exec_blind, handleCD32Pad_blind.
  - apply loop_cd32_blind.
Qed.

(** ** Open-collector outputs *)

Lemma no_raise_bind {B C} (c : M B) (k : B -> M C) :
  no_raise c -> (forall b, no_raise (k b)) -> no_raise (bind c k).
Proof.
  intros Hc Hk w pin Hin. unfold bind. specialize (Hc w pin Hin).
  destruct (c w) as [b w1]. simpl in Hc. intros H. apply Hc.
  now apply (Hk b w1 pin Hin).
Qed.

Ltac raise_prim :=
  let w := fresh "w" in
  let pin := fresh "pin" in
  let Hin := fresh "Hin" in
  let H := fresh "H" in
  intros w pin Hin H; cbn in H |- *; unfold upd in H;
  try exact H;
  destruct Hin as [<-|[<-|[<-|[<-|[<-|[<-|[]]]]]]];
  cbn in H; first [exact H | discriminate H].

Ltac raise_step :=
  match goal with
  | |- no_raise (bind _ _) => apply no_raise_bind; [|intro]
  | |- no_raise (if ?b then _ else _) => destruct b
  | |- no_raise _ => raise_prim
  end.

Ltac solve_no_raise := unfold_sketch; repeat raise_step.

Lemma handleJoystick_no_raise : no_raise handleJoystick.
Proof. solve_no_raise. Qed.

Lemma handleCD32Pad_no_raise : no_raise handleCD32Pad.
Proof. solve_no_raise. Qed.


Lemma toJoystick_no_raise : no_raise toJoystick.
Proof. solve_no_raise. Qed.

Lemma toMouse_no_raise : no_raise toMouse.
Proof. solve_no_raise. Qed.

Lemma no_raise_latches_low {B} (c : M B) w :
  no_raise c -> latches_low w -> latches_low (exec c w).
Proof.
  intros Hc Hw pin Hin. specialize (Hw pin Hin).
  destruct (port (exec c w) pin) eqn:E; [|reflexivity].
  apply (Hc w pin Hin) in E. congruence.
Qed.






(** ** Quadrature mouse emulation *)

Lemma lnot_int_of_bool b : negb (to_byte (lnot_int (of_bool b)) =? LOW) = negb b.
Proof. now destruct b. Qed.

Lemma ticks_0 w : clock w (ticks w) = clock w (ticks w + 0).
Proof. now rewrite Nat.add_0_r. Qed.

Lemma ticks_1 w : clock w (S (ticks w)) = clock w (ticks w + 1).
Proof. now rewrite Nat.add_1_r. Qed.

Lemma ticks_2 w : clock w (S (S (ticks w))) = clock w (ticks w + 2).
Proof. f_equal. lia. Qed.

Lemma handleMouse_horizontal_quad w :
  let deltaX := Analog (ps2x w) PSS_RX - ANALOG_IDLE_VALUE in
  let leading := if deltaX >? 0 then PIN_RIGHT else PIN_DOWN in
  let trailing := if deltaX >? 0 then PIN_DOWN else PIN_RIGHT in
  let w' := exec handleMouse_horizontal w in
  ANALOG_DEAD_ZONE < arduino_abs deltaX ->
  mouse_pins w ->
  quad_x w' leading trailing =
    quad_step (mouse_period (arduino_abs deltaX))
      (reading w 0) (reading w 1) (reading w 2) (quad_x w leading trailing) /\
  ty w' = ty w /\ port w' PIN_UP = port w PIN_UP /\ port w' PIN_LEFT = port w PIN_LEFT.
Proof.
  intros deltaX leading trailing w' Hdz (Hu & Hd & Hl & Hr).
  assert (Hgt : (arduino_abs deltaX >? ANALOG_DEAD_ZONE) = true)
    by (apply Z.gtb_lt; exact Hdz).
  subst w' leading trailing.
  unfold handleMouse_horizontal, quad_step, quad_x, reading, elapsed, exec, bind,
    gets, millis, digitalRead, digitalWrite, modify, ret; cbv zeta.
  fold deltaX. cbn [fst snd]. rewrite Hgt. cbn -[Z.geb Z.gtb Z.leb to_ulong mouse_period arduino_abs].
  rewrite !Z.geb_leb, <- ticks_0.
  destruct (deltaX >? 0);
    destruct (mouse_period (arduino_abs deltaX) <=? _) eqn:E1;
    cbn -[Z.geb Z.gtb Z.leb to_ulong mouse_period arduino_abs];
    rewrite ?Z.geb_leb, ?Hr, ?Hd, ?ticks_1, ?ticks_2;
    match goal with
    | |- context [Z.quot _ 2 <=? ?e] => destruct (Z.quot _ 2 <=? e) eqn:E2
    end;
    cbn -[Z.geb Z.gtb Z.leb to_ulong mouse_period arduino_abs];
    rewrite ?Hr, ?Hd, ?lnot_int_of_bool;
    repeat split; try reflexivity.
Qed.

Lemma handleMouse_vertical_quad w :
  let deltaY := Analog (ps2x w) PSS_RY - ANALOG_IDLE_VALUE in
  let leading := if deltaY >? 0 then PIN_LEFT else PIN_UP in
  let trailing := if deltaY >? 0 then PIN_UP else PIN_LEFT in
  let w' := exec handleMouse_vertical w in
  ANALOG_DEAD_ZONE < arduino_abs deltaY ->
  mouse_pins w ->
  quad_y w' leading trailing =
    quad_step (mouse_period (arduino_abs deltaY))
      (reading w 0) (reading w 1) (reading w 2) (quad_y w leading trailing) /\
  tx w' = tx w /\ port w' PIN_RIGHT = port w PIN_RIGHT /\
  port w' PIN_DOWN = port w PIN_DOWN.
Proof.
  intros deltaY leading trailing w' Hdz (Hu & Hd & Hl & Hr).
  assert (Hgt : (arduino_abs deltaY >? ANALOG_DEAD_ZONE) = true)
    by (apply Z.gtb_lt; exact Hdz).
  subst w' leading trailing.
  unfold handleMouse_vertical, quad_step, quad_y, reading, elapsed, exec, bind,
    gets, millis, digitalRead, digitalWrite, modify, ret; cbv zeta.
  fold deltaY. cbn [fst snd]. rewrite Hgt.
  cbn -[Z.geb Z.gtb Z.leb to_ulong mouse_period arduino_abs].
  rewrite !Z.geb_leb, <- ticks_0.
  destruct (deltaY >? 0);
    destruct (mouse_period (arduino_abs deltaY) <=? _) eqn:E1;
    cbn -[Z.geb Z.gtb Z.leb to_ulong mouse_period arduino_abs];
    rewrite ?Z.geb_leb, ?Hl, ?Hu, ?ticks_1, ?ticks_2;
    match goal with
    | |- context [Z.quot _ 2 <=? ?e] => destruct (Z.quot _ 2 <=? e) eqn:E2
    end;
    cbn -[Z.geb Z.gtb Z.leb to_ulong mouse_period arduino_abs];
    rewrite ?Hl, ?Hu, ?lnot_int_of_bool;
    repeat split; try reflexivity.
Qed.

(** Once the two pins are in opposite phase, a poll in which the leading pin
    toggles followed by a poll half a period later inverts both pins: the
    trailing pin toggles its own level, half a period after the leading one. *)
Lemma quad_step_half_period_later period t1 t2 t3 t1' t2' t3' q :
  period <= elapsed t1 (timer q) ->
  elapsed t3 t2 < Z.quot period 2 ->
  elapsed t1' t2 < period ->
  Z.quot period 2 <= elapsed t2' t2 ->
  trail q = negb (lead q) ->
  let q1 := quad_step period t1 t2 t3 q in
  let q2 := quad_step period t1' t2' t3' q1 in
  (lead q1 = negb (lead q) /\ trail q1 = trail q) /\
  (lead q2 = negb (lead q) /\ trail q2 = negb (trail q) /\ timer q2 = t2).
Proof.
  intros H1 H2 H3 H4 Hphase q1 q2. subst q2 q1. unfold quad_step.
  apply Z.leb_le in H1. rewrite H1. cbv zeta. cbn [lead trail timer].
  destruct (Z.leb_spec (Z.quot period 2) (elapsed t3 t2)); [lia|].
  destruct (Z.leb_spec period (elapsed t1' t2)); [lia|].
  cbn [lead trail timer].
  destruct (Z.leb_spec (Z.quot period 2) (elapsed t2' t2)); [|lia].
  rewrite Hphase. repeat split; reflexivity.
Qed.

(** ** The CD32 timeout *)

Lemma loop_poll_cd32_exec w snapshot :
  mode w = MODE_CD32 ->
  exec (loop_poll snapshot) w =
  exec (digitalWrite PIN_LED_MODE_CD32 HIGH)
    (exec handleCD32Pad (set_ps2x snapshot w)).
Proof.
  intros Hm. unfold loop_poll. rewrite exec_seq, exec_bind.
  change (fst (gets mode (exec (read_gamepad snapshot) w))) with (mode w).
  rewrite Hm. now rewrite exec_seq.
Qed.

Lemma loop_poll_cd32_frame w snapshot :
  mode w = MODE_CD32 ->
  let w1 := exec (loop_poll snapshot) w in
  mode w1 = MODE_CD32 /\ lastSwitchedTime w1 = lastSwitchedTime w /\
  wasMouse w1 = wasMouse w /\ clock w1 = clock w /\ ticks w1 = ticks w.
Proof.
  intros Hm w1. subst w1. rewrite loop_poll_cd32_exec by assumption.
  assert (Hmode : preserves mode handleCD32Pad) by solve_frame.
  assert (Hlst : preserves lastSwitchedTime handleCD32Pad) by solve_frame.
  assert (Hwm : preserves wasMouse handleCD32Pad) by solve_frame.
  assert (Hclk : preserves clock handleCD32Pad) by solve_frame.
  assert (Htk : preserves ticks handleCD32Pad) by solve_frame.
  set (w0 := set_ps2x snapshot w).
  assert (E : mode w0 = mode w /\ lastSwitchedTime w0 = lastSwitchedTime w /\
              wasMouse w0 = wasMouse w /\ clock w0 = clock w /\ ticks w0 = ticks w)
    by (repeat split; reflexivity).
  destruct E as (E1 & E2 & E3 & E4 & E5). clearbody w0.
  change (mode (exec handleCD32Pad w0) = MODE_CD32 /\
          lastSwitchedTime (exec handleCD32Pad w0) = lastSwitchedTime w /\
          wasMouse (exec handleCD32Pad w0) = wasMouse w /\
          clock (exec handleCD32Pad w0) = clock w /\
          ticks (exec handleCD32Pad w0) = ticks w).
  unfold exec. rewrite Hmode, Hlst, Hwm, Hclk, Htk. repeat split; congruence.
Qed.

(** In CD32 mode, the iteration whose clock reading is more than
    TIMEOUT_CD32_MODE after a recorded release of the strobe restores the
    mode recorded on entry with its pin roles (direction pins outputs for
    Mouse, floating inputs for Joystick; clock interrupt detached) and
    disarms the timer. *)
Lemma cd32_timeout_restores w snapshot :
  mode w = MODE_CD32 ->
  0 < lastSwitchedTime w ->
  TIMEOUT_CD32_MODE < elapsed (reading w 0) (lastSwitchedTime w) ->
  let w' := exec (loop snapshot) w in
  mode w' = (if wasMouse w then MODE_MOUSE else MODE_JOYSTICK) /\
  lastSwitchedTime w' = 0 /\
  clockISR w' = false /\
  (forall pin, In pin [PIN_UP; PIN_DOWN; PIN_LEFT; PIN_RIGHT] ->
     if wasMouse w then ddr w' pin = true else floating w' pin = true).
Proof.
  intros Hm Hpos Hto w'. subst w'. unfold loop. rewrite exec_seq.
  destruct (loop_poll_cd32_frame w snapshot Hm) as (_ & Hl & Hw & Hc & Ht).
  generalize dependent (exec (loop_poll snapshot) w). intros w1 Hl Hw Hc Ht.
  unfold loop_timeout, exec, bind, gets, millis. cbn [fst snd].
  rewrite Hl.
  apply Z.gtb_lt in Hpos. rewrite Hpos. rewrite Hc, Ht.
  unfold elapsed, reading in Hto. rewrite Nat.add_0_r in Hto.
  apply Z.gtb_lt in Hto. rewrite Hto. cbn [wasMouse set_ticks]. rewrite Hw.
  destruct (wasMouse w); (split; [reflexivity|]); (split; [reflexivity|]);
    (split; [reflexivity|]);
    intros pin [<-|[<-|[<-|[<-|[]]]]]; reflexivity.
Qed.

(** In CD32 mode, an iteration leaves the mode alone while no release of the
    strobe is recorded or the recorded one is at most TIMEOUT_CD32_MODE old. *)
Lemma cd32_timeout_waits w snapshot :
  mode w = MODE_CD32 ->
  lastSwitchedTime w <= 0 \/
  elapsed (reading w 0) (lastSwitchedTime w) <= TIMEOUT_CD32_MODE ->
  mode (exec (loop snapshot) w) = MODE_CD32.
Proof.
  intros Hm Hcond. unfold loop. rewrite exec_seq.
  destruct (loop_poll_cd32_frame w snapshot Hm) as (Hm1 & Hl & Hw & Hc & Ht).
  generalize dependent (exec (loop_poll snapshot) w). intros w1 Hm1 Hl Hw Hc Ht.
  unfold loop_timeout, exec, bind, gets, millis. cbn [fst snd].
  rewrite Hl.
  destruct (Z.gtb_spec (lastSwitchedTime w) 0) as [Hpos|Hnpos]; [|exact Hm1].
  rewrite Hc, Ht.
  destruct Hcond as [Hz|Hel]; [lia|].
  unfold elapsed, reading in Hel. rewrite Nat.add_0_r in Hel.
  destruct (Z.gtb_spec (to_ulong (to_ulong (clock w (ticks w)) - lastSwitchedTime w))
              TIMEOUT_CD32_MODE); [lia|exact Hm1].
Qed.

(** The strobe interrupt records on entry whether Mouse mode was active, and
    on an asserted edge it leaves the timer as it is. *)
Lemma strobe_asserted_entry w :
  strobe_asserted w ->
  let w' := exec onPadModeChange w in
  (mode w <> MODE_CD32 -> wasMouse w' = PadMode_eqb (mode w) MODE_MOUSE) /\
  (mode w = MODE_CD32 -> wasMouse w' = wasMouse w) /\
  lastSwitchedTime w' = lastSwitchedTime w.
Proof.
  intros [Hd Hl] w'. subst w'.
  unfold exec, onPadModeChange, toCD32, bind, gets, digitalRead, digitalWrite,
    pinMode, attachInterrupt_BTNREGCLK, modify, ret; simpl.
  rewrite Hd, Hl; simpl.
  destruct (mode w) eqn:Hm; simpl; rewrite ?Hm; simpl;
    repeat split; intros; congruence.
Qed.

Example mouse_session_restored :
  let w := run (boot line_high (fun n => 1000 + 300 * Z.of_nat n))
             [EvLoop stick_right; EvPadMode false; EvPadMode true] in
  mode w = MODE_CD32 /\ wasMouse w = true /\
  mode (step w (EvLoop idle_pad)) = MODE_MOUSE.
Proof. repeat split; reflexivity. Qed.

(** C3, on the code.  The strobe is released at 1000 ms, asserted again and
    held asserted.  At 1201 ms the line is asserted and fewer than
    TIMEOUT_CD32_MODE ms have passed without an edge, yet the timer armed by
    the release is still running, and [loop] leaves CD32 mode. *)
Theorem C3_restore_fires_while_asserted :
  let w3 := run (boot line_high held_strobe_clock) held_strobe_edges in
  let w4 := step w3 (EvLoop idle_pad) in
  (mode w3 = MODE_CD32 /\ line w3 PIN_PADMODE = false /\ lastSwitchedTime w3 = 1000) /\
  (mode w4 = MODE_JOYSTICK /\ line w4 PIN_PADMODE = false /\ lastSwitchedTime w4 = 0).
Proof. repeat split; reflexivity. Qed.

(** ** Polled transitions and the whole iteration *)

Lemma loop_poll_lastSwitchedTime snapshot : preserves lastSwitchedTime (loop_poll snapshot).
Proof. solve_frame. Qed.

(** With the CD32 timer not armed, the iteration ends where its polling part
    ends. *)
Lemma loop_timer_unarmed w snapshot :
  lastSwitchedTime w = 0 ->
  exec (loop snapshot) w = exec (loop_poll snapshot) w.
Proof.
  intros Hz. unfold loop. rewrite exec_seq.
  pose proof (loop_poll_lastSwitchedTime snapshot w) as Hl.
  fold (exec (loop_poll snapshot) w) in Hl. rewrite Hz in Hl.
  unfold loop_timeout, exec at 1, bind, gets. cbn [fst snd]. now rewrite Hl.
Qed.

Lemma loop_polled_transitions w snapshot :
  lastSwitchedTime w = 0 ->
  (mode w = MODE_JOYSTICK -> right_stick_deflected snapshot = true ->
   mode (exec (loop snapshot) w) = MODE_MOUSE) /\
  (mode w = MODE_MOUSE -> dpad_pressed snapshot = true ->
   mode (exec (loop snapshot) w) = MODE_JOYSTICK).
Proof.
  intros Hz. rewrite loop_timer_unarmed by assumption.
  split; intros Hm Hc.
  - rewrite loop_poll_joystick by exact Hm.
    apply (handleJoystick_deflected (set_ps2x snapshot w) Hc).
  - rewrite loop_poll_mouse by exact Hm. rewrite exec_bind.
    apply (handleMouse_dpad (set_ps2x snapshot w) Hc).
Qed.

(** ** Pin roles in Mouse mode *)

Lemma toMouse_owns w : mode (exec toMouse w) = MODE_MOUSE /\ mouse_pins (exec toMouse w).
Proof. repeat split; reflexivity. Qed.

Lemma toJoystick_mode w : mode (exec toJoystick w) = MODE_JOYSTICK.
Proof. reflexivity. Qed.

Lemma handleJoystick_mode w :
  right_stick_deflected (ps2x w) = false -> mode (exec handleJoystick w) = mode w.
Proof.
  intros Hc. unfold handleJoystick. rewrite exec_bind.
  change (fst (gets ps2x w)) with (ps2x w).
  change (exec (gets ps2x) w) with w. cbv zeta.
  unfold right_stick_deflected in Hc. rewrite Hc.
  match goal with
  | |- mode (exec ?c w) = _ => assert (Hp : preserves mode c) by solve_frame
  end.
  apply Hp.
Qed.

Lemma handleJoystick_owns w :
  mode w = MODE_JOYSTICK -> mouse_owns_pins (exec handleJoystick w).
Proof.
  intros Hm Hmouse.
  destruct (right_stick_deflected (ps2x w)) eqn:Hc.
  - unfold handleJoystick, exec, bind, gets; cbv zeta; cbn [fst snd].
    unfold right_stick_deflected in Hc. rewrite Hc. apply toMouse_owns.
  - rewrite handleJoystick_mode in Hmouse by assumption. congruence.
Qed.

Lemma handleMouse_ddr w pin :
  dpad_pressed (ps2x w) = false ->
  In pin [PIN_UP; PIN_DOWN; PIN_LEFT; PIN_RIGHT] ->
  ddr (exec handleMouse w) pin = ddr w pin /\ mode (exec handleMouse w) = mode w.
Proof.
  intros Hc Hin. unfold handleMouse. rewrite exec_bind.
  change (fst (gets ps2x w)) with (ps2x w).
  change (exec (gets ps2x) w) with w.
  unfold dpad_pressed in Hc. rewrite Hc.
  match goal with
  | |- ddr (exec ?c w) _ = _ /\ _ =>
      assert (Hm : preserves mode c) by solve_frame;
      assert (Hpu : preserves (fun x => ddr x PIN_UP) c) by solve_frame;
      assert (Hpd : preserves (fun x => ddr x PIN_DOWN) c) by solve_frame;
      assert (Hpl : preserves (fun x => ddr x PIN_LEFT) c) by solve_frame;
      assert (Hpr : preserves (fun x => ddr x PIN_RIGHT) c) by solve_frame
  end.
  split; [|apply Hm].
  destruct Hin as [<-|[<-|[<-|[<-|[]]]]];
    [apply (Hpu w)|apply (Hpd w)|apply (Hpl w)|apply (Hpr w)].
Qed.

Lemma handleMouse_owns w :
  mode w = MODE_MOUSE -> mouse_pins w -> mouse_owns_pins (exec handleMouse w).
Proof.
  intros Hm (Hu & Hd & Hl & Hr) Hmouse.
  destruct (dpad_pressed (ps2x w)) eqn:Hc.
  - rewrite handleMouse_dpad in Hmouse by assumption. discriminate.
  - unfold mouse_pins.
    rewrite (proj1 (handleMouse_ddr w PIN_UP Hc ltac:(simpl; tauto))),
      (proj1 (handleMouse_ddr w PIN_DOWN Hc ltac:(simpl; tauto))),
      (proj1 (handleMouse_ddr w PIN_LEFT Hc ltac:(simpl; tauto))),
      (proj1 (handleMouse_ddr w PIN_RIGHT Hc ltac:(simpl; tauto))).
    auto.
Qed.

Lemma handleCD32Pad_mode : preserves mode handleCD32Pad.
Proof. solve_frame. Qed.

Lemma loop_poll_owns snapshot : maintains mouse_owns_pins (loop_poll snapshot).
Proof.
  intros w Hw. change (mouse_owns_pins (exec (loop_poll snapshot) w)).
  unfold loop_poll. rewrite exec_seq, exec_bind.
  change (fst (gets mode (exec (read_gamepad snapshot) w))) with (mode w).
  change (exec (gets mode) (exec (read_gamepad snapshot) w))
    with (set_ps2x snapshot w).
  destruct (mode w) eqn:Hm.
  - rewrite exec_seq.
    apply (handleJoystick_owns (set_ps2x snapshot w) Hm).
  - rewrite exec_seq, exec_bind.
    apply (handleMouse_owns (set_ps2x snapshot w) Hm (Hw Hm)).
  - rewrite exec_seq. intros Hmouse.
    change (mode (exec handleCD32Pad (set_ps2x snapshot w)) = MODE_MOUSE) in Hmouse.
    unfold exec in Hmouse. rewrite handleCD32Pad_mode in Hmouse.
    simpl in Hmouse. congruence.
Qed.

Lemma loop_timeout_owns : maintains mouse_owns_pins loop_timeout.
Proof.
  intros w Hw. unfold loop_timeout, exec, bind, gets, millis; cbn [fst snd].
  destruct (lastSwitchedTime w >? 0); [|exact Hw].
  destruct (_ >? TIMEOUT_CD32_MODE); [|exact Hw].
  cbn [wasMouse set_ticks]. destruct (wasMouse w).
  - intros _. repeat split; reflexivity.
  - intros Hmouse. discriminate Hmouse.
Qed.

Lemma step_owns w e : mouse_owns_pins w -> mouse_owns_pins (step w e).
Proof.
  intros Hw. destruct e as [level| |snapshot]; simpl.
  - unfold exec, onPadModeChange, toCD32, bind, gets, digitalRead, digitalWrite,
      pinMode, attachInterrupt_BTNREGCLK, millis, modify, ret; simpl.
    destruct (ddr w PIN_PADMODE); [destruct (port w PIN_PADMODE)|destruct level];
      simpl; try exact Hw;
      destruct (mode w) eqn:Hm; simpl; rewrite ?Hm; simpl;
        intros Hmouse; cbn in Hmouse; congruence.
  - destruct (clockISR w); [|exact Hw]. exact Hw.
  - unfold loop. rewrite exec_seq.
    now apply loop_timeout_owns, loop_poll_owns.
Qed.

(** In every reachable world in Mouse mode the four direction pins are
    outputs, which is what the quadrature statement assumes. *)
Lemma mouse_mode_pins_are_outputs w : reachable w -> mode w = MODE_MOUSE -> mouse_pins w.
Proof.
  intros (env_line & env_clock & evs & ->).
  assert (Hrun : forall evs w0, mouse_owns_pins w0 -> mouse_owns_pins (run w0 evs)).
  { induction evs0 as [|e evs0 IH]; intros w0 H0; simpl; [exact H0|].
    apply IH. now apply step_owns. }
  apply Hrun. intros Hm. discriminate Hm.
Qed.

(** ** Joystick mode drives the pins from the selected mapping *)

Lemma handleJoystick_pins w :
  right_stick_deflected (ps2x w) = false ->
  Button (ps2x w) PSB_SELECT = false ->
  let j := joyMappingFunc w (ps2x w) released in
  let w' := exec handleJoystick w in
  ddr w' PIN_UP = up j /\ ddr w' PIN_DOWN = down j /\
  ddr w' PIN_LEFT = left j /\ ddr w' PIN_RIGHT = right j /\
  ddr w' PIN_BTN1 = b1 j /\ ddr w' PIN_BTN2 = b2 j.
Proof.
  intros Hc Hs j w'. subst w'.
  unfold handleJoystick, exec, bind, gets, buttonPress, buttonRelease, pinMode,
    noInterrupts, interrupts, modify; cbv zeta; cbn [fst snd].
  unfold right_stick_deflected in Hc. rewrite Hc, Hs.
  cbn [joyMappingFunc ps2x]. fold j.
  destruct (up j), (down j), (left j), (right j), (b1 j), (b2 j);
    repeat split; reflexivity.
Qed.

(** ** Scenarios *)

Example normal_left_stick_right :
  mapJoystickNormal (pad nothing_pressed 127 127 255 127) released =
  {| up := false; down := false; left := false; right := true;
     b1 := false; b2 := false |}.
Proof. reflexivity. Qed.

Example racing1_brake_wins :
  let j := mapJoystickRacing1 (pad brake_and_accelerate 127 127 127 0) released in
  up j = false /\ down j = true.
Proof. split; reflexivity. Qed.

Example start_pressed_report :
  let w := run booted [EvPadMode false; EvLoop (pad start_pressed 127 127 127 127);
                       EvPadMode true] in
  buttonsLive w = 191 /\
  skipn 1 (data_line (run w [EvPadMode false; EvClock; EvClock; EvClock; EvClock;
                             EvClock; EvClock; EvClock; EvClock; EvClock])) =
  [true; true; true; true; true; true; false; true; false; false].
Proof. split; reflexivity. Qed.

Example cd32_directions_scenario :
  let w := run booted [EvPadMode false; EvLoop (pad select_and_pad_up 127 127 255 127)] in
  ddr w PIN_UP = true /\ ddr w PIN_DOWN = false /\
  ddr w PIN_LEFT = false /\ ddr w PIN_RIGHT = true.
Proof. repeat split; reflexivity. Qed.

(** ** Pin roles in CD32 mode, and the shifter seen through events *)

Lemma loop_padmode_pin snapshot : preserves (fun x => ddr x PIN_PADMODE) (loop snapshot).
Proof. solve_frame. Qed.

Lemma refresh_value_byte p : 0 <= refresh_value p < 256.
Proof. apply (refresh_value_layout p). Qed.

Lemma loop_poll_live_byte snapshot w :
  0 <= buttonsLive w < 256 -> 0 <= buttonsLive (exec (loop_poll snapshot) w) < 256.
Proof.
  intros Hb. destruct (mode w) eqn:Hm.
  - rewrite loop_poll_other_live by congruence. exact Hb.
  - rewrite loop_poll_other_live by congruence. exact Hb.
  - rewrite loop_poll_cd32_value by assumption. apply refresh_value_byte.
Qed.

Lemma loop_poll_cd32_owns snapshot : maintains cd32_owns_pins (loop_poll snapshot).
Proof.
  intros w Hw. change (cd32_owns_pins (exec (loop_poll snapshot) w)).
  destruct (mode w) eqn:Hm.
  - intros Hcd. exfalso. revert Hcd. unfold loop_poll.
    rewrite exec_seq, exec_bind.
    change (fst (gets mode (exec (read_gamepad snapshot) w))) with (mode w).
    rewrite Hm, exec_seq.
    change (mode (exec (digitalWrite PIN_LED_MODE_CD32 LOW) ?x)) with (mode x).
    change (exec (gets mode) (exec (read_gamepad snapshot) w))
      with (set_ps2x snapshot w).
    destruct (right_stick_deflected snapshot) eqn:Hc.
    + rewrite handleJoystick_deflected by exact Hc. discriminate.
    + rewrite handleJoystick_mode by exact Hc. simpl. congruence.
  - intros Hcd. exfalso. revert Hcd. unfold loop_poll.
    rewrite exec_seq, exec_bind.
    change (fst (gets mode (exec (read_gamepad snapshot) w))) with (mode w).
    rewrite Hm, exec_seq, exec_bind.
    change (mode (exec (digitalWrite PIN_LED_MODE_CD32 ?v) (exec millis ?x)))
      with (mode x).
    change (exec (gets mode) (exec (read_gamepad snapshot) w))
      with (set_ps2x snapshot w).
    destruct (dpad_pressed snapshot) eqn:Hc.
    + rewrite handleMouse_dpad by exact Hc. discriminate.
    + rewrite (proj2 (handleMouse_ddr (set_ps2x snapshot w) PIN_UP Hc
                        ltac:(simpl; tauto))).
      simpl. congruence.
  - intros _. rewrite loop_poll_cd32_exec by assumption.
    assert (Hd : preserves (fun x => ddr x PIN_BTNREGOUT) handleCD32Pad) by solve_frame.
    assert (Hc : preserves clockISR handleCD32Pad) by solve_frame.
    change (ddr (exec handleCD32Pad (set_ps2x snapshot w)) PIN_BTNREGOUT = true /\
            clockISR (exec handleCD32Pad (set_ps2x snapshot w)) = true).
    unfold exec. rewrite (Hd (set_ps2x snapshot w)), Hc. exact (Hw Hm).
Qed.

Lemma loop_timeout_cd32_owns : maintains cd32_owns_pins loop_timeout.
Proof.
  intros w Hw. unfold loop_timeout, exec, bind, gets, millis; cbn [fst snd].
  destruct (lastSwitchedTime w >? 0); [|exact Hw].
  destruct (_ >? TIMEOUT_CD32_MODE); [|exact Hw].
  cbn [wasMouse set_ticks]. destruct (wasMouse w); intros Hcd; discriminate Hcd.
Qed.

Lemma step_wired w e : wired w -> wired (step w e).
Proof.
  intros (Hpm & Hown & Hb). destruct e as [level| |snapshot]; simpl.
  - unfold wired, cd32_owns_pins, exec, onPadModeChange, toCD32, bind, gets,
      digitalRead, digitalWrite, pinMode, attachInterrupt_BTNREGCLK, millis,
      modify, ret; simpl.
    rewrite Hpm. destruct level; simpl; [auto|].
    destruct (mode w) eqn:Hm; simpl; rewrite ?Hm; simpl; auto.
  - destruct (clockISR w) eqn:Hisr; [|exact (conj Hpm (conj Hown Hb))].
    split; [exact Hpm|split; [|exact Hb]].
    intros Hm. split; [exact (proj1 (Hown Hm))|exact Hisr].
  - split; [|split].
    + exact (eq_trans (loop_padmode_pin snapshot w) Hpm).
    + unfold loop. rewrite exec_seq.
      now apply loop_timeout_cd32_owns, loop_poll_cd32_owns.
    + unfold loop. rewrite exec_seq.
      replace (buttonsLive (exec loop_timeout (exec (loop_poll snapshot) w)))
        with (buttonsLive (exec (loop_poll snapshot) w))
        by (symmetry; apply loop_timeout_live).
      now apply loop_poll_live_byte.
Qed.

Lemma reachable_wired w : reachable w -> wired w.
Proof.
  intros (env_line & env_clock & evs & ->).
  assert (Hrun : forall evs w0, wired w0 -> wired (run w0 evs)).
  { induction evs0 as [|e evs0 IH]; intros w0 H0; simpl; [exact H0|].
    apply IH. now apply step_wired. }
  apply Hrun. split; [reflexivity|]. split; [intros Hm; discriminate Hm|].
  simpl. lia.
Qed.

Lemma run_clock_edges n : forall w,
  clockISR w = true -> run w (repeat EvClock n) = exec (clockEdges n) w.
Proof.
  induction n as [|n IH]; intros w Hc; [reflexivity|].
  simpl. rewrite Hc.
  change (exec (onClockEdge ;; clockEdges n) w)
    with (exec (clockEdges n) (exec onClockEdge w)).
  apply IH. exact Hc.
Qed.

(** The shifter as the host sees it: from any reachable world, a strobe
    assertion followed by [n] clock edges emits the register bits LSB first
    and then zeros, through a data pin that is an output. *)
Lemma strobe_then_clock_events w n :
  reachable w ->
  let w' := run w (EvPadMode false :: repeat EvClock n) in
  data_line w' =
    data_line w ++
    firstn (S n) (bits_lsb_first (buttonsLive w) ++ repeat false (S n)) /\
  ddr w' PIN_BTNREGOUT = true /\ mode w' = MODE_CD32.
Proof.
  intros Hr w'. subst w'.
  pose proof (reachable_wired w Hr) as (Hpm & Hown & Hb).
  set (w0 := set_line (upd (line w) PIN_PADMODE false) w).
  assert (Hs : strobe_asserted w0) by (split; [exact Hpm|reflexivity]).
  destruct (onPadModeChange_asserted w0 Hs) as (Hd & Hbt & Hlive & Hm).
  assert (Hw1 : wired (step w (EvPadMode false)))
    by (apply step_wired; exact (conj Hpm (conj Hown Hb))).
  destruct Hw1 as (_ & Hown1 & _).
  change (step w (EvPadMode false)) with (exec onPadModeChange w0) in Hown1.
  destruct (Hown1 Hm) as [Hout Hisr].
  change (run w (EvPadMode false :: repeat EvClock n))
    with (run (exec onPadModeChange w0) (repeat EvClock n)).
  rewrite run_clock_edges by exact Hisr.
  assert (Hframe : forall k x, ddr (exec (clockEdges k) x) PIN_BTNREGOUT = ddr x PIN_BTNREGOUT /\
                               mode (exec (clockEdges k) x) = mode x).
  { induction k as [|k IHk]; intros x; [split; reflexivity|].
    change (exec (clockEdges (S k)) x) with (exec (clockEdges k) (exec onClockEdge x)).
    destruct (IHk (exec onClockEdge x)) as [E1 E2]. rewrite E1, E2.
    split; reflexivity. }
  destruct (Hframe n (exec onPadModeChange w0)) as [E1 E2].
  rewrite E1, E2. split; [|split; assumption].
  rewrite clockEdges_spec by (rewrite Hbt; apply shiftr_byte; exact Hb).
  rewrite Hd, Hbt, <- app_assoc.
  change (buttonsLive w0) with (buttonsLive w).
  change (data_line w0) with (data_line w). f_equal.
  rewrite <- shifted_out_bits by exact Hb.
  simpl. f_equal.
  rewrite <- seq_shift, map_map. apply map_ext_in. intros k _.
  rewrite testbit_shiftr_byte by lia. f_equal. lia.
Qed.

(** ** Electrical level of the direction lines in CD32 mode *)

(** With the host-line latches low, a direction line is driven low exactly
    when its pin is pressed, and floats otherwise. *)
Lemma cd32_directions_driven w pin :
  latches_low w ->
  In pin [PIN_UP; PIN_DOWN; PIN_LEFT; PIN_RIGHT] ->
  let w' := exec handleCD32Pad w in
  driven_low w' pin = ddr w' pin /\ floating w' pin = negb (ddr w' pin) /\
  driven_high w' pin = false.
Proof.
  intros Hw Hin w'.
  assert (Hp : port w' pin = false).
  { apply (no_raise_latches_low _ w handleCD32Pad_no_raise Hw).
    simpl in *. tauto. }
  unfold driven_low, floating, driven_high. rewrite Hp.
  now destruct (ddr w' pin).
Qed.

(** The latches are not always low on entry: CD32 mode entered from Mouse
    mode inherits the level the quadrature left on a direction pin, and a
    press of that direction then makes the pin an output at that level. *)
Example stale_latch_after_mouse :
  let w := run booted [EvLoop stick_right; EvLoop stick_right; EvPadMode false;
                       EvLoop (pad pad_right_pressed 127 127 127 127)] in
  mode w = MODE_CD32 /\ ddr w PIN_RIGHT = true /\ port w PIN_RIGHT = true.
Proof. repeat split; reflexivity. Qed.

(** * Further properties of the sketch *)

(** ** Analog reduction and the mapping profiles *)

Lemma analog_thresholds a :
  0 <= a < 256 ->
  (a - ANALOG_IDLE_VALUE <? - ANALOG_DEAD_ZONE) = (a <? 62) /\
  (a - ANALOG_IDLE_VALUE >? ANALOG_DEAD_ZONE) = (192 <? a).
Proof.
  intros Ha. unfold ANALOG_IDLE_VALUE, ANALOG_DEAD_ZONE. split.
  - destruct (Z.ltb_spec (a - 127) (-65)), (Z.ltb_spec a 62); auto; lia.
  - rewrite Z.gtb_ltb.
    destruct (Z.ltb_spec 65 (a - 127)), (Z.ltb_spec 192 a); auto; lia.
Qed.

Lemma Analog_byte p s : 0 <= Analog p s < 256.
Proof. unfold Analog, to_byte. apply Z.mod_pos_bound. lia. Qed.

(** X1.  The analog reduction asserts left below 62 and right above 192 on
    the horizontal axis (up and down likewise on the vertical one), never
    both directions of an axis, neither of them from 62 to 192, and it leaves
    the other fields of the structure alone. *)
Theorem X1_analog_dead_zone (p : PS2X) (j : TwoButtonJoystick) :
  let h := mapAnalogStickHorizontal p j in
  let v := mapAnalogStickVertical p j in
  (left h = (Analog p PSS_LX <? 62) /\ right h = (192 <? Analog p PSS_LX) /\
   left h && right h = false /\
   up h = up j /\ down h = down j /\ b1 h = b1 j /\ b2 h = b2 j) /\
  (up v = (Analog p PSS_LY <? 62) /\ down v = (192 <? Analog p PSS_LY) /\
   up v && down v = false /\
   left v = left j /\ right v = right j /\ b1 v = b1 j /\ b2 v = b2 j).
Proof.
  intros h v. subst h v.
  unfold mapAnalogStickHorizontal, mapAnalogStickVertical; cbv zeta;
    cbn [up down left right b1 b2 set_left set_right set_up set_down].
  destruct (analog_thresholds _ (Analog_byte p PSS_LX)) as [Hl Hr].
  destruct (analog_thresholds _ (Analog_byte p PSS_LY)) as [Hu Hd].
  rewrite Hl, Hr, Hu, Hd.
  pose proof (Analog_byte p PSS_LX). pose proof (Analog_byte p PSS_LY).
  repeat split; try reflexivity.
  - destruct (Z.ltb_spec (Analog p PSS_LX) 62), (Z.ltb_spec 192 (Analog p PSS_LX));
      auto; lia.
  - destruct (Z.ltb_spec (Analog p PSS_LY) 62), (Z.ltb_spec 192 (Analog p PSS_LY));
      auto; lia.
Qed.

(** X2.  Each of the four profiles assigns all six signals: its result does
    not depend on what the structure held before. *)
Theorem X2_profiles_assign_every_signal (p : PS2X) (j0 j1 : TwoButtonJoystick) :
  mapJoystickNormal p j0 = mapJoystickNormal p j1 /\
  mapJoystickRacing1 p j0 = mapJoystickRacing1 p j1 /\
  mapJoystickRacing2 p j0 = mapJoystickRacing2 p j1 /\
  mapJoystickPlatform p j0 = mapJoystickPlatform p j1.
Proof.
  unfold mapJoystickNormal, mapJoystickRacing1, mapJoystickRacing2,
    mapJoystickPlatform, mapAnalogStickHorizontal, mapAnalogStickVertical;
    cbv zeta;
    cbn [up down left right b1 b2 set_left set_right set_up set_down set_b1 set_b2].
  repeat split;
    repeat match goal with
           | |- context [if ?c then _ else _] => destruct c
           end; reflexivity.
Qed.

(** X3.  The racing profiles ignore the vertical axis of the left stick and
    the whole right stick; the Platform profile takes [up] from the pad's up
    button and Cross only, whatever the stick says, while its [down] still
    follows the stick. *)
Theorem X3_vertical_axis_ignored
  (pressed : PsButton -> bool) (rx ry lx ly rx' ry' ly' : Z) (j : TwoButtonJoystick) :
  mapJoystickRacing1 (pad pressed rx ry lx ly) j =
    mapJoystickRacing1 (pad pressed rx' ry' lx ly') j /\
  mapJoystickRacing2 (pad pressed rx ry lx ly) j =
    mapJoystickRacing2 (pad pressed rx' ry' lx ly') j /\
  up (mapJoystickPlatform (pad pressed rx ry lx ly) j) =
    pressed PSB_PAD_UP || pressed PSB_CROSS /\
  down (mapJoystickPlatform (pad pressed rx ry lx ly) j) =
    (192 <? to_byte ly) || pressed PSB_PAD_DOWN.
Proof.
  repeat split; try reflexivity.
  unfold mapJoystickPlatform, mapAnalogStickHorizontal, mapAnalogStickVertical;
    cbv zeta;
    cbn [up down left right b1 b2 set_left set_right set_up set_down set_b1 set_b2].
  cbn [Button pad]. f_equal.
  apply (proj2 (analog_thresholds _ (Analog_byte (pad pressed rx ry lx ly) PSS_LY))).
Qed.

(** ** The mode LED pulses and the profile switch *)

Lemma flashLed_writes n : forall w,
  writes (exec (flashLed n) w) = writes w ++ led_pulses n /\
  (forall pin, pin <> PIN_LED_MODE_CD32 ->
     port (exec (flashLed n) w) pin = port w pin) /\
  ((0 < n)%nat -> port (exec (flashLed n) w) PIN_LED_MODE_CD32 = false).
Proof.
  induction n as [|n IH]; intros w.
  - simpl. rewrite app_nil_r. repeat split; auto. lia.
  - change (exec (flashLed (S n)) w)
      with (exec (flashLed n)
              (exec (digitalWrite PIN_LED_MODE_CD32 LOW)
                 (exec (digitalWrite PIN_LED_MODE_CD32 HIGH) w))).
    set (w1 := exec (digitalWrite PIN_LED_MODE_CD32 LOW)
                 (exec (digitalWrite PIN_LED_MODE_CD32 HIGH) w)).
    destruct (IH w1) as (Hw & Hp & Hl).
    split; [|split].
    + rewrite Hw. subst w1. cbn [writes exec digitalWrite modify snd set_writes set_port].
      now rewrite <- !app_assoc.
    + intros pin Hpin. rewrite Hp by assumption. subst w1.
      cbn [port exec digitalWrite modify snd set_writes set_port]. unfold upd.
      destruct (Z.eqb_spec pin PIN_LED_MODE_CD32); [contradiction|reflexivity].
    + intros _. destruct n as [|n].
      * reflexivity.
      * apply Hl. lia.
Qed.

Lemma led_pulses_length n : length (led_pulses n) = (2 * n)%nat.
Proof. induction n as [|k IH]; [reflexivity|]. simpl. rewrite IH. lia. Qed.

Lemma handleJoystick_select w :
  right_stick_deflected (ps2x w) = false ->
  Button (ps2x w) PSB_SELECT = true ->
  let w' := exec handleJoystick w in
  match selected_profile (ps2x w) with
  | Some (f, n) => joyMappingFunc w' = f /\ writes w' = writes w ++ led_pulses n
  | None => joyMappingFunc w' = joyMappingFunc w /\ writes w' = writes w
  end /\
  ddr w' = ddr w /\
  (forall pin, In pin host_lines -> port w' pin = port w pin) /\
  mode w' = mode w /\ ps2x w' = ps2x w.
Proof.
  intros Hc Hs w'. subst w'.
  unfold handleJoystick, selected_profile, exec, bind, gets; cbv zeta; cbn [fst snd].
  unfold right_stick_deflected in Hc. rewrite Hc, Hs.
  destruct (Button (ps2x w) PSB_SQUARE); [|destruct (Button (ps2x w) PSB_TRIANGLE);
    [|destruct (Button (ps2x w) PSB_CIRCLE); [|destruct (Button (ps2x w) PSB_CROSS)]]];
    cbn; rewrite <- ?app_assoc; repeat split; try reflexivity;
    intros pin [<-|[<-|[<-|[<-|[<-|[<-|[]]]]]]]; reflexivity.
Qed.

(** X5.  In Joystick mode with the right stick idle and Select held,
    [handleJoystick] selects the profile of the first pressed button among
    Square, Triangle, Circle, Cross, pulses the mode LED once, twice, three
    or four times accordingly, and touches no host line: every pin keeps its
    direction and every host latch its level.  With none of the four pressed
    nothing changes.  Repeating the same combination selects the same profile
    with the same pulses. *)
Theorem X5_profile_switch (w : World) :
  right_stick_deflected (ps2x w) = false ->
  Button (ps2x w) PSB_SELECT = true ->
  let w' := exec handleJoystick w in
  let w'' := exec handleJoystick w' in
  match selected_profile (ps2x w) with
  | Some (f, n) =>
      joyMappingFunc w' = f /\ writes w' = writes w ++ led_pulses n /\
      (1 <= n <= 4)%nat /\
      joyMappingFunc w'' = f /\ writes w'' = writes w' ++ led_pulses n
  | None =>
      joyMappingFunc w' = joyMappingFunc w /\ writes w' = writes w /\
      joyMappingFunc w'' = joyMappingFunc w /\ writes w'' = writes w
  end /\
  ddr w' = ddr w /\
  (forall pin, In pin host_lines -> port w' pin = port w pin) /\
  mode w' = mode w.
Proof.
  intros Hc Hs w' w''.
  destruct (handleJoystick_select w Hc Hs) as (Hsel & Hd & Hp & Hm & Hps).
  fold w' in Hsel, Hd, Hp, Hm, Hps.
  assert (Hc' : right_stick_deflected (ps2x w') = false) by (rewrite Hps; exact Hc).
  assert (Hs' : Button (ps2x w') PSB_SELECT = true) by (rewrite Hps; exact Hs).
  destruct (handleJoystick_select w' Hc' Hs') as (Hsel' & _).
  fold w'' in Hsel'. rewrite Hps in Hsel'.
  split; [|auto].
  unfold selected_profile in *.
  destruct (Button (ps2x w) PSB_SQUARE); [|destruct (Button (ps2x w) PSB_TRIANGLE);
    [|destruct (Button (ps2x w) PSB_CIRCLE); [|destruct (Button (ps2x w) PSB_CROSS)]]];
    destruct Hsel as [H1 H2]; destruct Hsel' as [H3 H4];
    unfold JMAP_NORMAL, JMAP_RACING1, JMAP_RACING2, JMAP_PLATFORM;
    repeat split; try assumption; try lia; congruence.
Qed.

Lemma X5_witness :
  let w := set_ps2x (pad square_and_cross 127 127 127 127) booted in
  joyMappingFunc (exec handleJoystick w) = mapJoystickNormal /\
  writes (exec handleJoystick w) = writes w ++ led_pulses 1.
Proof.
  intros w.
  pose proof (X5_profile_switch w eq_refl eq_refl) as H.
  exact (conj (proj1 (proj1 H)) (proj1 (proj2 (proj1 H)))).
Defined.

(** ** Joystick mode output *)

(** X6.  In Joystick mode with the right stick idle and Select released,
    [handleJoystick] makes each of the six host pins an output exactly when
    the selected profile asserts its signal for the snapshot, and an input
    with the pull-up off otherwise.  It writes no level, keeps mode and
    profile, and returns with the interrupts enabled. *)
Theorem X6_joystick_pins_follow_profile (w : World) :
  right_stick_deflected (ps2x w) = false ->
  Button (ps2x w) PSB_SELECT = false ->
  let j := joyMappingFunc w (ps2x w) released in
  let w' := exec handleJoystick w in
  (ddr w' PIN_UP = up j /\ ddr w' PIN_DOWN = down j /\
   ddr w' PIN_LEFT = left j /\ ddr w' PIN_RIGHT = right j /\
   ddr w' PIN_BTN1 = b1 j /\ ddr w' PIN_BTN2 = b2 j) /\
  (forall pin, In pin host_lines -> port w' pin = port w pin && ddr w' pin) /\
  writes w' = writes w /\ irq w' = true /\
  mode w' = mode w /\ joyMappingFunc w' = joyMappingFunc w.
Proof.
  intros Hc Hs j w'. split; [exact (handleJoystick_pins w Hc Hs)|].
  subst w'.
  unfold handleJoystick, exec, bind, gets, buttonPress, buttonRelease, pinMode,
    noInterrupts, interrupts, modify; cbv zeta; cbn [fst snd].
  unfold right_stick_deflected in Hc. rewrite Hc, Hs.
  cbn [joyMappingFunc ps2x]. fold j.
  destruct (up j), (down j), (left j), (right j), (b1 j), (b2 j);
    (split; [|repeat split; reflexivity]);
    intros pin [<-|[<-|[<-|[<-|[<-|[<-|[]]]]]]]; cbn;
    rewrite ?andb_true_r, ?andb_false_r; reflexivity.
Qed.

Lemma X6_witness :
  let w := set_ps2x (pad brake_and_accelerate 127 127 0 127) booted in
  ddr (exec handleJoystick w) PIN_LEFT = true /\
  ddr (exec handleJoystick w) PIN_RIGHT = false /\
  irq (exec handleJoystick w) = true.
Proof.
  intros w.
  pose proof (X6_joystick_pins_follow_profile w eq_refl eq_refl) as H.
  exact (conj (proj1 (proj2 (proj2 (proj1 H))))
           (conj (proj1 (proj2 (proj2 (proj2 (proj1 H)))))
              (proj1 (proj2 (proj2 (proj2 H)))))).
Defined.

(** ** Mouse mode *)

Lemma dead_band a :
  0 <= a < 256 ->
  (arduino_abs (a - ANALOG_IDLE_VALUE) >? ANALOG_DEAD_ZONE) =
  ((a <? 62) || (192 <? a)).
Proof.
  intros Ha. unfold arduino_abs, ANALOG_IDLE_VALUE, ANALOG_DEAD_ZONE.
  rewrite !Z.gtb_ltb.
  destruct (Z.ltb_spec 0 (a - 127)), (Z.ltb_spec a 62), (Z.ltb_spec 192 a);
    simpl; try lia;
    match goal with
    | |- (?x <? ?y) = _ => destruct (Z.ltb_spec x y); auto; lia
    end.
Qed.

Lemma handleMouse_blocks w :
  dpad_pressed (ps2x w) = false ->
  exec handleMouse w =
  exec handleMouse_buttons (exec handleMouse_vertical (exec handleMouse_horizontal w)).
Proof.
  intros Hc. unfold handleMouse. rewrite exec_bind.
  change (fst (gets ps2x w)) with (ps2x w).
  change (exec (gets ps2x) w) with w.
  unfold dpad_pressed in Hc. rewrite Hc. now rewrite !exec_seq.
Qed.

Lemma handleMouse_axes_ps2x w :
  ps2x (exec handleMouse_vertical (exec handleMouse_horizontal w)) = ps2x w.
Proof.
  assert (Hh : preserves ps2x handleMouse_horizontal) by solve_frame.
  assert (Hv : preserves ps2x handleMouse_vertical) by solve_frame.
  unfold exec. now rewrite Hv, Hh.
Qed.

(** X8.  In Mouse mode with no pad direction pressed and the right stick
    between 62 and 192 on both axes, [handleMouse] freezes the quadrature:
    it reads no clock, writes no level, and leaves both axis timers and the
    direction pins as they were. *)
Theorem X8_mouse_idle_stick (w : World) :
  dpad_pressed (ps2x w) = false ->
  62 <= Analog (ps2x w) PSS_RX <= 192 ->
  62 <= Analog (ps2x w) PSS_RY <= 192 ->
  let w' := exec handleMouse w in
  tx w' = tx w /\ ty w' = ty w /\ ticks w' = ticks w /\ writes w' = writes w /\
  (forall pin, In pin [PIN_UP; PIN_DOWN; PIN_LEFT; PIN_RIGHT] ->
     ddr w' pin = ddr w pin /\ port w' pin = port w pin).
Proof.
  intros Hc Hx Hy w'. subst w'. rewrite handleMouse_blocks by exact Hc.
  assert (Hh : exec handleMouse_horizontal w = w).
  { unfold handleMouse_horizontal, exec, bind, gets; cbv zeta; cbn [fst snd].
    rewrite dead_band by apply Analog_byte.
    destruct (Z.ltb_spec (Analog (ps2x w) PSS_RX) 62); [lia|].
    destruct (Z.ltb_spec 192 (Analog (ps2x w) PSS_RX)); [lia|]. reflexivity. }
  assert (Hv : exec handleMouse_vertical w = w).
  { unfold handleMouse_vertical, exec, bind, gets; cbv zeta; cbn [fst snd].
    rewrite dead_band by apply Analog_byte.
    destruct (Z.ltb_spec (Analog (ps2x w) PSS_RY) 62); [lia|].
    destruct (Z.ltb_spec 192 (Analog (ps2x w) PSS_RY)); [lia|]. reflexivity. }
  rewrite Hh, Hv.
  unfold handleMouse_buttons, exec, bind, gets, buttonPress, buttonRelease,
    pinMode, noInterrupts, interrupts, modify; cbn [fst snd].
  destruct (_ || Button (ps2x w) PSB_L3), (_ || Button (ps2x w) PSB_R3);
    repeat split; try reflexivity;
    destruct H as [<-|[<-|[<-|[<-|[]]]]]; reflexivity.
Qed.

Lemma X8_witness :
  let w := set_ps2x (pad left_shoulder 62 192 0 255) (run booted [EvLoop stick_right]) in
  tx (exec handleMouse w) = tx w /\ writes (exec handleMouse w) = writes w.
Proof.
  intros w.
  pose proof (X8_mouse_idle_stick w eq_refl ltac:(vm_compute; split; discriminate)
                ltac:(vm_compute; split; discriminate)) as H.
  exact (conj (proj1 H) (proj1 (proj2 (proj2 (proj2 H))))).
Defined.

(** X9.  For every axis reading beyond the dead zone the toggle period lies
    between MOUSE_FAST_DELTA and MOUSE_SLOW_DELTA, and its half, the phase
    delay of the trailing pin, is at least 3 ms; the fastest period is
    reached at both ends of the axis and the slowest just outside the dead
    zone. *)
Theorem X9_period_bounds (a : Z) :
  0 <= a < 256 ->
  ANALOG_DEAD_ZONE < arduino_abs (a - ANALOG_IDLE_VALUE) ->
  let period := mouse_period (arduino_abs (a - ANALOG_IDLE_VALUE)) in
  MOUSE_FAST_DELTA <= period <= MOUSE_SLOW_DELTA /\
  3 <= Z.quot period 2 /\
  (a = 0 \/ a = 255 -> period = MOUSE_FAST_DELTA) /\
  (a = 61 \/ a = 193 -> period = MOUSE_SLOW_DELTA).
Proof.
  intros Ha Hdz period.
  pose proof (deflection_range a Ha) as Hr.
  unfold ANALOG_DEAD_ZONE in Hdz.
  assert (Hp : period = 60 - (arduino_abs (a - ANALOG_IDLE_VALUE) - 65) * 54 / 62)
    by (apply mouse_period_eq; unfold ANALOG_DEAD_ZONE; lia).
  set (d := arduino_abs (a - ANALOG_IDLE_VALUE)) in *.
  assert (0 <= (d - 65) * 54 / 62) by (apply Z.div_pos; lia).
  assert ((d - 65) * 54 / 62 < 55) by (apply Z.div_lt_upper_bound; lia).
  unfold MOUSE_FAST_DELTA, MOUSE_SLOW_DELTA.
  split; [lia|]. split.
  - rewrite Z.quot_div_nonneg by lia.
    apply Z.div_le_lower_bound; lia.
  - split; intros [-> | ->]; reflexivity.
Qed.

Lemma X9_witness :
  MOUSE_FAST_DELTA <= mouse_period (arduino_abs (230 - ANALOG_IDLE_VALUE)) <= MOUSE_SLOW_DELTA.
Proof.
  exact (proj1 (X9_period_bounds 230 ltac:(lia) eq_refl)).
Defined.

(** ** Invariants of the running sketch *)

Lemma handleJoystick_irq w : irq w = true -> irq (exec handleJoystick w) = true.
Proof.
  intros Hi. unfold handleJoystick. rewrite exec_bind.
  change (fst (gets ps2x w)) with (ps2x w).
  change (exec (gets ps2x) w) with w. cbv zeta.
  destruct (_ || _).
  - assert (Hp : preserves irq toMouse) by solve_frame.
    unfold exec. now rewrite Hp.
  - destruct (Button (ps2x w) PSB_SELECT).
    + match goal with
      | |- irq (exec ?c w) = _ => assert (Hp : preserves irq c) by solve_frame
      end.
      unfold exec. now rewrite Hp.
    + unfold exec, bind, gets, buttonPress, buttonRelease, pinMode,
        noInterrupts, interrupts, modify; cbn [fst snd].
      repeat match goal with
             | |- context [if ?c then _ else _] => destruct c
             end; reflexivity.
Qed.

Lemma handleMouse_irq w : irq w = true -> irq (exec handleMouse w) = true.
Proof.
  intros Hi. destruct (dpad_pressed (ps2x w)) eqn:Hc.
  - unfold handleMouse, exec, bind, gets; cbn [fst snd].
    unfold dpad_pressed in Hc. rewrite Hc. exact Hi.
  - rewrite handleMouse_blocks by exact Hc.
    unfold handleMouse_buttons, exec, bind, gets, buttonPress, buttonRelease,
      pinMode, noInterrupts, interrupts, modify; cbn [fst snd].
    repeat match goal with
           | |- context [if ?c then _ else _] => destruct c
           end; reflexivity.
Qed.

Lemma loop_irq snapshot w : irq w = true -> irq (exec (loop snapshot) w) = true.
Proof.
  intros Hi. unfold loop. rewrite exec_seq.
  assert (Ht : preserves irq loop_timeout) by solve_frame.
  unfold exec at 1. rewrite Ht.
  destruct (mode w) eqn:Hm.
  - rewrite loop_poll_joystick by exact Hm.
    apply (handleJoystick_irq (set_ps2x snapshot w) Hi).
  - rewrite loop_poll_mouse by exact Hm. rewrite exec_bind.
    apply (handleMouse_irq (set_ps2x snapshot w) Hi).
  - rewrite loop_poll_cd32_exec by exact Hm.
    assert (Hp : preserves irq handleCD32Pad) by solve_frame.
    change (irq (exec handleCD32Pad (set_ps2x snapshot w)) = true).
    unfold exec. rewrite Hp. exact Hi.
Qed.

Lemma step_irq w e : irq w = true -> irq (step w e) = true.
Proof.
  intros Hi. destruct e as [level| |snapshot]; simpl.
  - assert (Hp : preserves irq onPadModeChange) by solve_frame.
    unfold exec. rewrite Hp. exact Hi.
  - destruct (clockISR w); exact Hi.
  - now apply loop_irq.
Qed.

(** X10.  The sketch never leaves the interrupts disabled: in every world
    reachable through strobe edges, clock edges and loop iterations the
    global interrupt enable is set, so each [noInterrupts] of the main loop
    is followed by its [interrupts] before the iteration ends. *)
Theorem X10_interrupts_reenabled (w : World) : reachable w -> irq w = true.
Proof.
  intros (env_line & env_clock & evs & ->).
  assert (Hrun : forall evs w0, irq w0 = true -> irq (run w0 evs) = true).
  { induction evs0 as [|e evs0 IH]; intros w0 H0; simpl; [exact H0|].
    apply IH. now apply step_irq. }
  apply Hrun. reflexivity.
Qed.

Lemma X10_witness :
  irq (run booted [EvLoop (pad brake_and_accelerate 127 127 0 127); EvPadMode false]) = true.
Proof.
  refine (X10_interrupts_reenabled _ _).
  exists line_high, (clock_from 1000),
    [EvLoop (pad brake_and_accelerate 127 127 0 127); EvPadMode false].
  reflexivity.
Defined.

Ltac frame_pins :=
  unfold_sketch;
  repeat first
    [ frame_step
    | intro;
      repeat match goal with
             | |- context [if ?b then _ else _] => destruct b
             end;
      reflexivity ].

Lemma step_fixed_pins w e : fixed_pins w -> fixed_pins (step w e).
Proof.
  intros (H1 & H2 & H3 & H4 & H5).
  assert (Hgen : forall (c : M unit) x,
            preserves (fun y => ddr y PIN_PADMODE) c ->
            preserves (fun y => port y PIN_PADMODE) c ->
            preserves (fun y => ddr y PIN_LED_PAD_OK) c ->
            preserves (fun y => port y PIN_LED_PAD_OK) c ->
            preserves (fun y => ddr y PIN_LED_MODE_CD32) c ->
            fixed_pins x -> fixed_pins (exec c x)).
  { intros c x P1 P2 P3 P4 P5 (G1 & G2 & G3 & G4 & G5).
    unfold fixed_pins, exec.
    rewrite (P1 x), (P2 x), (P3 x), (P4 x), (P5 x). auto. }
  pose proof (conj H1 (conj H2 (conj H3 (conj H4 H5)))) as Hw.
  destruct e as [level| |snapshot]; simpl.
  - apply Hgen; [frame_pins ..|]. exact Hw.
  - destruct (clockISR w); [|exact Hw].
    apply Hgen; [frame_pins ..|]. exact Hw.
  - apply Hgen; [frame_pins ..|]. exact Hw.
Qed.

(** ** Strobe release, timeout and restoration *)

Lemma release_edge w :
  ddr w PIN_PADMODE = false ->
  let w' := step w (EvPadMode true) in
  lastSwitchedTime w' = reading w 0 /\ ticks w' = S (ticks w) /\
  clock w' = clock w /\
  mode w' = mode w /\ wasMouse w' = wasMouse w /\ buttons w' = buttons w /\
  buttonsLive w' = buttonsLive w /\ clockISR w' = clockISR w /\
  ddr w' = ddr w /\ port w' = port w /\ writes w' = writes w.
Proof.
  intros Hd w'. subst w'. unfold step, exec, onPadModeChange, bind, gets,
    digitalRead, millis, modify, reading; simpl.
  rewrite Hd. simpl. rewrite Nat.add_0_r. repeat split; reflexivity.
Qed.

(** X12.  From any reachable world, a release of the strobe (rising edge)
    only records the clock reading in [lastSwitchedTime]: the mode, the shift
    register, the live register, every pin and the clock interrupt stay as
    they are, so a report that is being shifted out is not disturbed. *)
Theorem X12_release_only_timestamps (w : World) :
  reachable w ->
  let w' := step w (EvPadMode true) in
  lastSwitchedTime w' = reading w 0 /\
  mode w' = mode w /\ wasMouse w' = wasMouse w /\ buttons w' = buttons w /\
  buttonsLive w' = buttonsLive w /\ clockISR w' = clockISR w /\
  ddr w' = ddr w /\ port w' = port w /\ writes w' = writes w.
Proof.
  intros Hr w'.
  destruct (reachable_wired w Hr) as (Hd & _).
  destruct (release_edge w Hd) as (H1 & _ & _ & H2).
  split; [exact H1|exact H2].
Qed.

Lemma X12_witness :
  let w := run booted [EvPadMode false; EvClock] in
  lastSwitchedTime (step w (EvPadMode true)) = 1000 /\
  mode (step w (EvPadMode true)) = MODE_CD32.
Proof.
  intros w.
  assert (Hr : reachable w)
    by (exists line_high, (clock_from 1000), [EvPadMode false; EvClock]; reflexivity).
  pose proof (X12_release_only_timestamps w Hr) as H.
  exact (conj (proj1 H) (proj1 (proj2 H))).
Defined.

Lemma loop_unarmed_stays w snapshot :
  lastSwitchedTime w = 0 ->
  lastSwitchedTime (exec (loop snapshot) w) = 0.
Proof.
  intros Hz. rewrite loop_timer_unarmed by exact Hz.
  pose proof (loop_poll_lastSwitchedTime snapshot w) as Hl.
  unfold exec. now rewrite Hl.
Qed.

Lemma step_cd32_unarmed w e :
  no_strobe e = true ->
  mode w = MODE_CD32 -> lastSwitchedTime w = 0 ->
  mode (step w e) = MODE_CD32 /\ lastSwitchedTime (step w e) = 0.
Proof.
  intros He Hm Hz. destruct e as [level| |snapshot]; [discriminate| |].
  - simpl. destruct (clockISR w); split; assumption.
  - simpl. split.
    + apply cd32_timeout_waits; [exact Hm|left; lia].
    + now apply loop_unarmed_stays.
Qed.

(** X13.  CD32 mode is left only through the timeout, and the timeout needs
    a recorded release: from CD32 mode with [lastSwitchedTime] at 0, no
    sequence of loop iterations and clock edges, however long and whatever
    the clock reads, leaves the mode or arms the timer.  Since 0 is also what
    a release records when the counter reads 0, such a release does not start
    the timeout. *)
Theorem X13_no_release_no_timeout (w : World) (evs : list Event) :
  mode w = MODE_CD32 ->
  lastSwitchedTime w = 0 ->
  forallb no_strobe evs = true ->
  mode (run w evs) = MODE_CD32 /\ lastSwitchedTime (run w evs) = 0.
Proof.
  revert w. induction evs as [|e evs IH]; intros w Hm Hz Hev; simpl.
  - split; assumption.
  - simpl in Hev. apply andb_prop in Hev. destruct Hev as [He Hev].
    destruct (step_cd32_unarmed w e He Hm Hz) as [Hm' Hz'].
    now apply IH.
Qed.

Lemma X13_witness :
  let w := step (run (boot line_high (fun _ => 0)) [EvPadMode false]) (EvPadMode true) in
  mode (run w [EvLoop idle_pad; EvClock; EvLoop stick_right]) = MODE_CD32.
Proof.
  intros w.
  exact (proj1 (X13_no_release_no_timeout w [EvLoop idle_pad; EvClock; EvLoop stick_right]
                  eq_refl eq_refl eq_refl)).
Defined.

Lemma cd32_timeout_mode w snapshot :
  mode w = MODE_CD32 ->
  mode (exec (loop snapshot) w) =
    if (0 <? lastSwitchedTime w) &&
       (TIMEOUT_CD32_MODE <? elapsed (reading w 0) (lastSwitchedTime w))
    then (if wasMouse w then MODE_MOUSE else MODE_JOYSTICK)
    else MODE_CD32.
Proof.
  intros Hm.
  destruct (Z.ltb_spec 0 (lastSwitchedTime w)) as [Hpos|Hnpos]; simpl.
  - destruct (Z.ltb_spec TIMEOUT_CD32_MODE
                (elapsed (reading w 0) (lastSwitchedTime w))) as [Hto|Hnto].
    + apply (cd32_timeout_restores w snapshot Hm Hpos Hto).
    + apply cd32_timeout_waits; [exact Hm|right; exact Hnto].
  - apply cd32_timeout_waits; [exact Hm|left; exact Hnpos].
Qed.

(** X14.  A loop iteration that starts in CD32 mode leaves it exactly when a
    release is recorded and strictly more than TIMEOUT_CD32_MODE ms have
    elapsed since, counted modulo 2^32 so that a wrap of the counter does not
    matter; it then returns to Mouse if Mouse was recorded on entry and to
    Joystick otherwise, disarms the timer and detaches the clock interrupt.
    At exactly TIMEOUT_CD32_MODE ms the mode is kept. *)
Theorem X14_timeout_threshold (w : World) (snapshot : PS2X) :
  mode w = MODE_CD32 ->
  let w' := exec (loop snapshot) w in
  let expired := (0 <? lastSwitchedTime w) &&
                 (TIMEOUT_CD32_MODE <? elapsed (reading w 0) (lastSwitchedTime w)) in
  mode w' = (if expired
             then (if wasMouse w then MODE_MOUSE else MODE_JOYSTICK)
             else MODE_CD32) /\
  (expired = true -> lastSwitchedTime w' = 0 /\ clockISR w' = false) /\
  (elapsed (reading w 0) (lastSwitchedTime w) = TIMEOUT_CD32_MODE ->
   mode w' = MODE_CD32).
Proof.
  intros Hm w' expired. split; [apply cd32_timeout_mode; exact Hm|]. split.
  - intros He. unfold expired in He. apply andb_prop in He. destruct He as [H1 H2].
    apply Z.ltb_lt in H1. apply Z.ltb_lt in H2.
    destruct (cd32_timeout_restores w snapshot Hm H1 H2) as (_ & Hl & Hc & _).
    split; assumption.
  - intros He. apply cd32_timeout_waits; [exact Hm|right; lia].
Qed.

Lemma X14_witness :
  let w := run (boot line_high wrapped_clock) [EvPadMode false; EvPadMode true] in
  lastSwitchedTime w = 4294967200 /\
  mode (exec (loop idle_pad) w) = MODE_JOYSTICK.
Proof.
  intros w. split; [reflexivity|].
  exact (proj1 (X14_timeout_threshold w idle_pad eq_refl)).
Defined.

(** X15.  A pad session returns to the mode it interrupted.  From Joystick
    or Mouse mode, a strobe assertion enters CD32 mode; after a release at a
    non-zero clock reading, the first loop iteration that reads the clock
    more than TIMEOUT_CD32_MODE ms later restores the mode the session
    started from. *)
Theorem X15_session_round_trip (w : World) (snapshot : PS2X) :
  mode w <> MODE_CD32 ->
  ddr w PIN_PADMODE = false ->
  0 < reading w 0 ->
  TIMEOUT_CD32_MODE < elapsed (reading w 1) (reading w 0) ->
  let w2 := run w [EvPadMode false; EvPadMode true] in
  mode w2 = MODE_CD32 /\
  mode (step w2 (EvLoop snapshot)) = mode w /\
  lastSwitchedTime (step w2 (EvLoop snapshot)) = 0.
Proof.
  intros Hm Hd Hpos Hto w2. subst w2. simpl run.
  set (w0 := set_line (upd (line w) PIN_PADMODE false) w).
  assert (Hs : strobe_asserted w0) by (split; [exact Hd|reflexivity]).
  destruct (onPadModeChange_asserted w0 Hs) as (_ & _ & _ & Hm1).
  destruct (strobe_asserted_entry w0 Hs) as (Hwm & _ & _).
  specialize (Hwm Hm).
  assert (Hfr : ddr (exec onPadModeChange w0) PIN_PADMODE = false /\
                clock (exec onPadModeChange w0) = clock w /\
                ticks (exec onPadModeChange w0) = ticks w).
  { assert (Hd' : ddr (exec onPadModeChange w0) PIN_PADMODE = false /\
                  clock (exec onPadModeChange w0) = clock w /\
                  ticks (exec onPadModeChange w0) = ticks w).
    { unfold w0, exec, onPadModeChange, toCD32, bind, gets, digitalRead,
        digitalWrite, pinMode, attachInterrupt_BTNREGCLK, modify, ret; simpl.
      rewrite Hd; simpl.
      destruct (mode w) eqn:E; simpl; rewrite ?E; simpl; repeat split;
        solve [reflexivity | exact Hd]. }
    exact Hd'. }
  destruct Hfr as (Hd1 & Hc1 & Ht1).
  change (step w (EvPadMode false)) with (exec onPadModeChange w0).
  set (w1 := exec onPadModeChange w0) in *.
  destruct (release_edge w1 Hd1) as (Hl2 & Ht2 & Hc2 & Hm2 & Hwm2 & _).
  set (w2 := step w1 (EvPadMode true)) in *.
  assert (Hr0 : reading w1 0 = reading w 0)
    by (unfold reading; now rewrite Hc1, Ht1).
  assert (Hr1 : reading w2 0 = reading w 1).
  { unfold reading. rewrite Hc2, Ht2, Hc1, Ht1. f_equal. f_equal. lia. }
  assert (Hm2' : mode w2 = MODE_CD32) by (rewrite Hm2; exact Hm1).
  split; [exact Hm2'|].
  assert (Hpos2 : 0 < lastSwitchedTime w2) by (rewrite Hl2, Hr0; exact Hpos).
  assert (Hto2 : TIMEOUT_CD32_MODE < elapsed (reading w2 0) (lastSwitchedTime w2))
    by (rewrite Hl2, Hr0, Hr1; exact Hto).
  destruct (cd32_timeout_restores w2 snapshot Hm2' Hpos2 Hto2) as (Hmode & Hlst & _).
  split; [|exact Hlst].
  change (mode (exec (loop snapshot) w2) = mode w).
  rewrite Hmode, Hwm2, Hwm.
  change (mode w0) with (mode w).
  destruct (mode w); [reflexivity|reflexivity|congruence].
Qed.

Lemma X15_witness :
  let w := run (boot line_high (fun n => 1000 + 300 * Z.of_nat n)) [EvLoop stick_right] in
  mode w = MODE_MOUSE /\
  mode (step (run w [EvPadMode false; EvPadMode true]) (EvLoop idle_pad)) = MODE_MOUSE.
Proof.
  intros w. split; [reflexivity|].
  exact (proj1 (proj2 (X15_session_round_trip w idle_pad
                         ltac:(discriminate) eq_refl eq_refl eq_refl))).
Defined.

(** ** Shifting out while the main loop polls *)

Lemma digitalWrite_data_line pin v :
  pin <> PIN_BTNREGOUT -> preserves data_line (digitalWrite pin v).
Proof.
  intros Hpin w. unfold digitalWrite, modify, data_line; simpl.
  rewrite filter_app, map_app; simpl.
  destruct (Z.eqb_spec pin PIN_BTNREGOUT); [contradiction|].
  simpl. now rewrite app_nil_r.
Qed.

Ltac frame_data :=
  unfold_sketch;
  repeat first
    [ frame_step
    | match goal with
      | |- preserves data_line (digitalWrite (if ?c then _ else _) _) => destruct c
      end
    | apply digitalWrite_data_line; let H := fresh in intro H; vm_compute in H; discriminate H ].

Lemma loop_data_line snapshot : preserves data_line (loop snapshot).
Proof. frame_data. Qed.

Lemma loop_buttons snapshot : preserves buttons (loop snapshot).
Proof. solve_frame. Qed.

(** ** The mode LED *)

Lemma of_bool_level b : negb (to_byte (of_bool b) =? LOW) = b.
Proof. now destruct b. Qed.

(** X17.  After a loop iteration the mode LED shows the mode the iteration
    handled: off for Joystick, steadily on for CD32, and for Mouse on during
    the even half-seconds of the clock read after the mouse handling (a 1 Hz
    blink).  A mode change made in the iteration shows only from the next
    one. *)
Theorem X17_mode_led (w : World) (snapshot : PS2X) :
  let w' := exec (loop snapshot) w in
  match mode w with
  | MODE_JOYSTICK => port w' PIN_LED_MODE_CD32 = false
  | MODE_CD32 => port w' PIN_LED_MODE_CD32 = true
  | MODE_MOUSE =>
      let w1 := exec handleMouse (set_ps2x snapshot w) in
      port w' PIN_LED_MODE_CD32 = (Z.rem (Z.quot (reading w1 0) 500) 2 =? 0)
  end.
Proof.
  intros w'. subst w'.
  assert (Hl : port (exec (loop snapshot) w) PIN_LED_MODE_CD32 =
               port (exec (loop_poll snapshot) w) PIN_LED_MODE_CD32).
  { unfold loop. rewrite exec_seq.
    assert (Ht : preserves (fun x => port x PIN_LED_MODE_CD32) loop_timeout)
      by frame_pins.
    apply (Ht (exec (loop_poll snapshot) w)). }
  destruct (mode w) eqn:Hm; cbv zeta; rewrite Hl.
  - rewrite loop_poll_joystick by exact Hm. reflexivity.
  - rewrite loop_poll_mouse by exact Hm. cbv zeta.
    generalize (exec handleMouse (set_ps2x snapshot w)). intros w1.
    unfold exec, bind, millis, digitalWrite, modify, reading; cbn [fst snd].
    cbn [port set_writes set_port set_ticks]. unfold upd.
    rewrite Z.eqb_refl, of_bool_level, Nat.add_0_r. reflexivity.
  - rewrite loop_poll_cd32_exec by exact Hm. reflexivity.
Qed.

(** ** Start-up *)

(** X18.  [initPad] reports no error exactly when [config_gamepad] returns 0
    and the controller type is 0, 1, 2 or 3; it never reports a wrong type.
    [setup] then goes on to the main loop, doing what the modelled success
    path does; otherwise it enters the fault state with a blink interval of
    500 ms for error code 2 and 200 ms for every other outcome, never with
    the 333 ms reserved for a wrong type, and without having lit the
    controller-found LED. *)
Theorem X18_startup_classification (error type : Z) (w : World) :
  (initPad error type = PADERR_NONE <-> error = 0 /\ 0 <= type <= 3) /\
  initPad error type <> PADERR_WRONGTYPE /\
  match fst (setup_with error type w) with
  | None =>
      initPad error type = PADERR_NONE /\
      exec (setup_with error type) w = exec setup w
  | Some interval =>
      initPad error type <> PADERR_NONE /\
      interval = (if error =? 2 then 500 else 200) /\
      writes (exec (setup_with error type) w) = writes w /\
      port (exec (setup_with error type) w) PIN_LED_PAD_OK = port w PIN_LED_PAD_OK
  end.
Proof.
  assert (Hcls : initPad error type = PADERR_NONE <-> error = 0 /\ 0 <= type <= 3).
  { unfold initPad; cbv zeta.
    destruct (Z.eqb_spec error 0) as [->|He0].
    - destruct (Z.eqb_spec type 0), (Z.eqb_spec type 1), (Z.eqb_spec type 2),
        (Z.eqb_spec type 3); split; intros H; try (split; lia); try reflexivity;
        try discriminate; lia.
    - destruct (Z.eqb_spec error 1), (Z.eqb_spec error 2); split; intros H;
        try discriminate; lia. }
  split; [exact Hcls|]. split.
  - unfold initPad; cbv zeta.
    repeat match goal with
           | |- context [if ?c then _ else _] => destruct c
           end; discriminate.
  - unfold setup_with, setup, exec, bind, pinMode, delay, digitalWrite, modify, ret;
      cbv zeta; cbn [fst snd].
    unfold initPad; cbv zeta.
    destruct (Z.eqb_spec error 0) as [->|He0].
    + destruct (type =? 0), (type =? 1), (type =? 2), (type =? 3); cbn;
        repeat split; try reflexivity; discriminate.
    + destruct (Z.eqb_spec error 1) as [->|He1]; [cbn; repeat split; discriminate|].
      destruct (Z.eqb_spec error 2) as [->|He2]; cbn; repeat split; discriminate.
Qed.

Lemma mypanic_rounds_spec n interval : forall w,
  let w' := exec (mypanic_rounds n interval) w in
  writes w' = writes w ++ panic_blinks n /\
  (forall pin, pin <> PIN_LED_PAD_OK -> port w' pin = port w pin) /\
  ddr w' = ddr w /\ mode w' = mode w /\ clockISR w' = clockISR w.
Proof.
  induction n as [|n IH]; intros w.
  - simpl. rewrite app_nil_r. repeat split; reflexivity.
  - change (exec (mypanic_rounds (S n) interval) w)
      with (exec (mypanic_rounds n interval)
              (exec (digitalWrite PIN_LED_PAD_OK LOW)
                 (exec (digitalWrite PIN_LED_PAD_OK HIGH) w))).
    set (w1 := exec (digitalWrite PIN_LED_PAD_OK LOW)
                 (exec (digitalWrite PIN_LED_PAD_OK HIGH) w)).
    destruct (IH w1) as (Hw & Hp & Hd & Hm & Hc). cbv zeta.
    split; [|split; [|split; [|split]]].
    + rewrite Hw. subst w1.
      cbn [writes exec digitalWrite modify snd set_writes set_port].
      now rewrite <- !app_assoc.
    + intros pin Hpin. rewrite Hp by exact Hpin. subst w1.
      cbn [port exec digitalWrite modify snd set_writes set_port]. unfold upd.
      destruct (Z.eqb_spec pin PIN_LED_PAD_OK); [contradiction|reflexivity].
    + rewrite Hd. reflexivity.
    + rewrite Hm. reflexivity.
    + rewrite Hc. reflexivity.
Qed.

(** X19.  In the fault state the adapter produces no output.  When the
    controller detection fails, then after any number of rounds of the blink
    loop every host line is still a floating input, the mode is still
    Joystick with no clock interrupt attached, and the only writes ever made
    are the blinks of the controller-found LED. *)
Theorem X19_fault_state_is_silent
  (error type : Z) (env_line : Z -> bool) (env_clock : nat -> Z) (n : nat) :
  initPad error type <> PADERR_NONE ->
  let w0 := power_on env_line env_clock in
  let interval := panic_interval (initPad error type) in
  let w := exec (mypanic_rounds n interval) (exec (setup_with error type) w0) in
  fst (setup_with error type w0) = Some interval /\
  (forall pin, In pin host_lines -> floating w pin = true) /\
  mode w = MODE_JOYSTICK /\ clockISR w = false /\
  writes w = panic_blinks n.
Proof.
  intros Herr w0 interval w.
  assert (Hfst : fst (setup_with error type w0) = Some interval /\
                 exec (setup_with error type) w0 =
                 exec (pinMode PIN_PADMODE INPUT_PULLUP ;;
                       pinMode PIN_LED_PAD_OK OUTPUT ;;
                       pinMode PIN_LED_MODE_CD32 OUTPUT) w0).
  { unfold setup_with, exec, bind, pinMode, delay, modify, ret; cbv zeta; cbn [fst snd].
    subst interval. destruct (initPad error type); [congruence| | |]; split; reflexivity. }
  destruct Hfst as [Hfst Hexec]. split; [exact Hfst|].
  subst w. rewrite Hexec.
  destruct (mypanic_rounds_spec n interval
              (exec (pinMode PIN_PADMODE INPUT_PULLUP ;;
                     pinMode PIN_LED_PAD_OK OUTPUT ;;
                     pinMode PIN_LED_MODE_CD32 OUTPUT) w0))
    as (Hw & Hp & Hd & Hm & Hc).
  cbv zeta in Hw, Hp, Hd, Hm, Hc.
  split; [|split; [rewrite Hm; reflexivity|split; [rewrite Hc; reflexivity|]]].
  - intros pin Hin. unfold floating. rewrite Hd, Hp.
    + destruct Hin as [<-|[<-|[<-|[<-|[<-|[<-|[]]]]]]]; reflexivity.
    + destruct Hin as [<-|[<-|[<-|[<-|[<-|[<-|[]]]]]]]; discriminate.
  - rewrite Hw. reflexivity.
Qed.

Lemma X19_witness :
  let w := exec (mypanic_rounds 3 200) (exec (setup_with 1 0) (power_on line_high (clock_from 0))) in
  mode w = MODE_JOYSTICK /\ writes w = panic_blinks 3.
Proof.
  intros w.
  pose proof (X19_fault_state_is_silent 1 0 line_high (clock_from 0) 3
                ltac:(discriminate)) as H.
  exact (conj (proj1 (proj2 (proj2 H))) (proj2 (proj2 (proj2 (proj2 H))))).
Defined.

(** ** Direction lines in Joystick mode *)

Lemma toJoystick_latches w :
  forall pin, In pin [PIN_UP; PIN_DOWN; PIN_LEFT; PIN_RIGHT] ->
    port (exec toJoystick w) pin = false /\ ddr (exec toJoystick w) pin = false.
Proof. intros pin [<-|[<-|[<-|[<-|[]]]]]; split; reflexivity. Qed.

Lemma loop_timeout_joystick_latches : maintains joystick_latches_low loop_timeout.
Proof.
  intros w Hw. unfold loop_timeout, exec, bind, gets, millis; cbn [fst snd].
  destruct (lastSwitchedTime w >? 0); [|exact Hw].
  destruct (_ >? TIMEOUT_CD32_MODE); [|exact Hw].
  cbn [wasMouse set_ticks]. destruct (wasMouse w).
  - intros Hm. discriminate Hm.
  - intros _ pin [<-|[<-|[<-|[<-|[]]]]]; reflexivity.
Qed.

Lemma led_write_joystick_latches x v :
  joystick_latches_low x ->
  joystick_latches_low (exec (digitalWrite PIN_LED_MODE_CD32 v) x).
Proof.
  intros Hx Hj pin Hin. specialize (Hx Hj pin Hin).
  destruct Hin as [<-|[<-|[<-|[<-|[]]]]]; exact Hx.
Qed.

Lemma loop_poll_joystick_latches snapshot :
  maintains joystick_latches_low (loop_poll snapshot).
Proof.
  intros w Hw. change (joystick_latches_low (exec (loop_poll snapshot) w)).
  destruct (mode w) eqn:Hm.
  - rewrite loop_poll_joystick by exact Hm.
    apply led_write_joystick_latches.
    intros _ pin Hin.
    destruct (port (exec handleJoystick (set_ps2x snapshot w)) pin) eqn:E;
      [|reflexivity].
    apply (handleJoystick_no_raise (set_ps2x snapshot w) pin) in E.
    + pose proof (Hw Hm pin Hin) as F. change (port w pin = true) in E. congruence.
    + simpl in Hin |- *. tauto.
  - rewrite loop_poll_mouse by exact Hm. rewrite exec_bind.
    apply led_write_joystick_latches.
    assert (Hmil : forall x, joystick_latches_low x -> joystick_latches_low (exec millis x))
      by (intros x Hx; exact Hx).
    apply Hmil.
    destruct (dpad_pressed snapshot) eqn:Hc.
    + intros _ pin Hin.
      unfold handleMouse, exec, bind, gets; cbn [fst snd].
      unfold dpad_pressed in Hc. cbn [ps2x set_ps2x]. rewrite Hc.
      apply (toJoystick_latches (set_ps2x snapshot w) pin Hin).
    + intros Hj.
      rewrite (proj2 (handleMouse_ddr (set_ps2x snapshot w) PIN_UP Hc
                        ltac:(simpl; tauto))) in Hj.
      cbn in Hj. congruence.
  - rewrite loop_poll_cd32_exec by exact Hm.
    apply led_write_joystick_latches.
    intros Hj. unfold exec in Hj. rewrite handleCD32Pad_mode in Hj.
    cbn in Hj. congruence.
Qed.

Lemma step_joystick_latches w e : joystick_latches_low w -> joystick_latches_low (step w e).
Proof.
  intros Hw. destruct e as [level| |snapshot]; simpl.
  - unfold joystick_latches_low, exec, onPadModeChange, toCD32, bind, gets,
      digitalRead, digitalWrite, pinMode, attachInterrupt_BTNREGCLK, millis,
      modify, ret; simpl.
    destruct (ddr w PIN_PADMODE); [destruct (port w PIN_PADMODE)|destruct level];
      simpl; try exact Hw;
      destruct (mode w) eqn:Hm; simpl; rewrite ?Hm; simpl;
        intros Hj; cbn in Hj; congruence.
  - destruct (clockISR w); [|exact Hw].
    intros Hj pin Hin. specialize (Hw Hj pin Hin).
    destruct Hin as [<-|[<-|[<-|[<-|[]]]]]; exact Hw.
  - unfold loop. rewrite exec_seq.
    now apply loop_timeout_joystick_latches, loop_poll_joystick_latches.
Qed.

(** X20.  In every reachable world in Joystick mode the four direction lines
    are open-collector: each is either driven low or left floating by an
    input pin without pull-up, never driven high and never pulled up. *)
Theorem X20_joystick_directions_open_collector (w : World) (pin : Z) :
  reachable w ->
  mode w = MODE_JOYSTICK ->
  In pin [PIN_UP; PIN_DOWN; PIN_LEFT; PIN_RIGHT] ->
  port w pin = false /\ driven_high w pin = false /\
  (if ddr w pin then driven_low w pin = true else floating w pin = true).
Proof.
  intros (env_line & env_clock & evs & ->) Hm Hin.
  assert (Hrun : forall evs w0, joystick_latches_low w0 ->
                   joystick_latches_low (run w0 evs)).
  { induction evs0 as [|e evs0 IH]; intros w0 H0; simpl; [exact H0|].
    apply IH. now apply step_joystick_latches. }
  assert (Hp : port (run (boot env_line env_clock) evs) pin = false).
  { apply Hrun; [|exact Hm|exact Hin].
    intros _ q [<-|[<-|[<-|[<-|[]]]]]; reflexivity. }
  unfold driven_high, driven_low, floating. rewrite Hp.
  destruct (ddr (run (boot env_line env_clock) evs) pin); auto.
Qed.

Lemma X20_witness :
  let w := run booted [EvLoop stick_right; EvLoop stick_right;
                       EvLoop (pad pad_right_pressed 255 127 127 127);
                       EvLoop (pad pad_right_pressed 127 127 127 127)] in
  mode w = MODE_JOYSTICK /\ driven_low w PIN_RIGHT = true.
Proof.
  intros w. split; [reflexivity|].
  assert (Hr : reachable w).
  { exists line_high, (clock_from 1000),
      [EvLoop stick_right; EvLoop stick_right;
       EvLoop (pad pad_right_pressed 255 127 127 127);
       EvLoop (pad pad_right_pressed 127 127 127 127)].
    reflexivity. }
  exact (proj2 (proj2 (X20_joystick_directions_open_collector w PIN_RIGHT Hr eq_refl
                         ltac:(simpl; tauto)))).
Defined.

(** ** Polled mode transitions within a whole iteration *)

Lemma timeout_test w :
  mode (exec loop_timeout w) =
  if timeout_due w 0 then restored_mode w else mode w.
Proof.
  unfold loop_timeout, timeout_due, restored_mode, elapsed, reading, exec, bind,
    gets, millis; cbn [fst snd].
  rewrite <- ticks_0.
  destruct (lastSwitchedTime w >? 0); [|reflexivity].
  cbn [andb lastSwitchedTime set_ticks].
  destruct (_ >? TIMEOUT_CD32_MODE); [|reflexivity].
  cbn [wasMouse set_ticks]. now destruct (wasMouse w).
Qed.

Lemma loop_from_joystick w snapshot :
  mode w = MODE_JOYSTICK -> right_stick_deflected snapshot = true ->
  mode (exec (loop snapshot) w) =
  if timeout_due w 0 then restored_mode w else MODE_MOUSE.
Proof.
  intros Hm Hc. unfold loop. rewrite exec_seq, timeout_test.
  rewrite loop_poll_joystick by exact Hm.
  set (w1 := exec (digitalWrite PIN_LED_MODE_CD32 LOW)
               (exec handleJoystick (set_ps2x snapshot w))).
  assert (Hw1 : mode w1 = MODE_MOUSE /\ lastSwitchedTime w1 = lastSwitchedTime w /\
                wasMouse w1 = wasMouse w /\ clock w1 = clock w /\ ticks w1 = ticks w).
  { subst w1. unfold handleJoystick, exec, bind, gets; cbv zeta; cbn [fst snd].
    unfold right_stick_deflected in Hc. cbn [ps2x set_ps2x]. rewrite Hc.
    repeat split; reflexivity. }
  destruct Hw1 as (E1 & E2 & E3 & E4 & E5).
  unfold timeout_due, restored_mode, reading. now rewrite E1, E2, E3, E4, E5.
Qed.

Lemma loop_from_mouse w snapshot :
  mode w = MODE_MOUSE -> dpad_pressed snapshot = true ->
  mode (exec (loop snapshot) w) =
  if timeout_due w 1 then restored_mode w else MODE_JOYSTICK.
Proof.
  intros Hm Hc. unfold loop. rewrite exec_seq, timeout_test.
  rewrite loop_poll_mouse by exact Hm.
  set (w1 := exec _ (exec handleMouse (set_ps2x snapshot w))).
  assert (Hw1 : mode w1 = MODE_JOYSTICK /\ lastSwitchedTime w1 = lastSwitchedTime w /\
                wasMouse w1 = wasMouse w /\ clock w1 = clock w /\ ticks w1 = S (ticks w)).
  { subst w1. unfold handleMouse, exec, bind, gets; cbn [fst snd].
    unfold dpad_pressed in Hc. cbn [ps2x set_ps2x]. rewrite Hc.
    repeat split; reflexivity. }
  destruct Hw1 as (E1 & E2 & E3 & E4 & E5).
  unfold timeout_due, restored_mode, reading. rewrite E1, E2, E3, E4, E5.
  now rewrite Nat.add_0_r, Nat.add_1_r.
Qed.

(** C5.  In an iteration of [loop] that starts in Joystick mode with the
    right stick beyond the dead zone on either axis, the handler switches to
    Mouse mode whatever else the snapshot holds; in one that starts in Mouse
    mode with a directional-pad button pressed, it switches to Joystick mode.
    The iteration ends in that mode unless the timeout test that closes the
    same iteration fires (a release of the strobe is recorded and more than
    TIMEOUT_CD32_MODE ms old): then it ends in the mode recorded by
    [wasMouse]. *)
Theorem C5_transition_then_timeout (w : World) (snapshot : PS2X) :
  (mode w = MODE_JOYSTICK -> right_stick_deflected snapshot = true ->
   mode (exec (loop_poll snapshot) w) = MODE_MOUSE /\
   mode (exec (loop snapshot) w) =
     if timeout_due w 0 then restored_mode w else MODE_MOUSE) /\
  (mode w = MODE_MOUSE -> dpad_pressed snapshot = true ->
   mode (exec (loop_poll snapshot) w) = MODE_JOYSTICK /\
   mode (exec (loop snapshot) w) =
     if timeout_due w 1 then restored_mode w else MODE_JOYSTICK).
Proof.
  split; intros Hm Hc; split.
  - rewrite loop_poll_joystick by exact Hm.
    change (mode (exec handleJoystick (set_ps2x snapshot w)) = MODE_MOUSE).
    apply handleJoystick_deflected. exact Hc.
  - now apply loop_from_joystick.
  - rewrite loop_poll_mouse by exact Hm. rewrite exec_bind.
    change (mode (exec handleMouse (set_ps2x snapshot w)) = MODE_JOYSTICK).
    apply handleMouse_dpad. exact Hc.
  - now apply loop_from_mouse.
Qed.

Lemma C5_witness :
  mode (exec (loop (pad select_and_pad_up 255 127 127 127)) booted) = MODE_MOUSE /\
  mode (exec (loop (pad select_and_pad_up 255 127 127 127))
          (run booted [EvLoop (pad nothing_pressed 127 0 127 127)])) = MODE_JOYSTICK.
Proof.
  split.
  - exact (proj2 (proj1 (C5_transition_then_timeout booted
                           (pad select_and_pad_up 255 127 127 127))
                    eq_refl eq_refl)).
  - exact (proj2 (proj2 (C5_transition_then_timeout
                           (run booted [EvLoop (pad nothing_pressed 127 0 127 127)])
                           (pad select_and_pad_up 255 127 127 127))
                    eq_refl eq_refl)).
Defined.

(** The mode-select line is low at power-on and rises once while the clock
    reads 1000 ms: the adapter is in Joystick mode with a release recorded.
    The next iteration finds the right stick deflected and tests the timeout
    at 1300 ms: it ends in Joystick mode. *)
Lemma C5_counterexample :
  let w := run (boot line_low slow_clock) [EvPadMode true] in
  reachable w /\ mode w = MODE_JOYSTICK /\
  right_stick_deflected stick_right = true /\
  mode (exec (loop_poll stick_right) w) = MODE_MOUSE /\
  mode (exec (loop stick_right) w) = MODE_JOYSTICK.
Proof.
  intros w. split.
  - exists line_low, slow_clock, [EvPadMode true]. reflexivity.
  - repeat split; reflexivity.
Qed.

(** ** The direction lines of a pad session entered from Mouse mode *)

(** C10.  The direction pins of CD32 mode are meant to be pressed
    open-collector style ([buttonPress]: output, low implicit), but a session
    entered from Mouse mode inherits the latches the quadrature left: with
    the right stick held right for two iterations, then the strobe, then an
    iteration whose snapshot has directional-pad right pressed, PIN_RIGHT is
    an output whose latch is high, so the pressed direction is driven high,
    not low.  The same snapshot in a session entered from Joystick mode
    drives the line low. *)
Theorem C10_pressed_direction_driven_high :
  let snapshot := pad pad_right_pressed 127 127 127 127 in
  let w0 := run booted [EvLoop stick_right; EvLoop stick_right; EvPadMode false] in
  let w := exec (loop snapshot) w0 in
  let v0 := run booted [EvPadMode false] in
  let v := exec (loop snapshot) v0 in
  (reachable w0 /\ mode w0 = MODE_CD32 /\ mode w = MODE_CD32 /\
   Button snapshot PSB_PAD_RIGHT = true /\
   right (mapJoystickNormal snapshot released) = true /\
   ddr w PIN_RIGHT = true /\ port w PIN_RIGHT = true /\
   driven_high w PIN_RIGHT = true /\ driven_low w PIN_RIGHT = false) /\
  (mode v0 = MODE_CD32 /\ mode v = MODE_CD32 /\
   driven_high v PIN_RIGHT = false /\ driven_low v PIN_RIGHT = true).
Proof.
  intros snapshot w0 w v0 v. split.
  - split.
    + exists line_high, (clock_from 1000),
        [EvLoop stick_right; EvLoop stick_right; EvPadMode false]. reflexivity.
    + repeat split; reflexivity.
  - repeat split; reflexivity.
Qed.

(** ** The mode LED pulses *)

(** X4.  [flashLed n], for a byte [n], writes exactly [n] high-low pulses to
    the mode LED and nothing else: the LED ends off, no other latch and no
    pin direction changes, and the mode and the selected profile stay as they
    were. *)
Theorem X4_flashLed_pulses (n : nat) (w : World) :
  (n < 256)%nat ->
  let w' := exec (flashLed n) w in
  writes w' = writes w ++ led_pulses n /\
  length (led_pulses n) = (2 * n)%nat /\
  port w' PIN_LED_MODE_CD32 =
    match n with O => port w PIN_LED_MODE_CD32 | S _ => false end /\
  (forall pin, pin <> PIN_LED_MODE_CD32 -> port w' pin = port w pin) /\
  ddr w' = ddr w /\ mode w' = mode w /\ joyMappingFunc w' = joyMappingFunc w.
Proof.
  intros _ w'. subst w'. destruct (flashLed_writes n w) as (Hw & Hp & Hl).
  split; [exact Hw|]. split; [|split; [|split; [exact Hp|]]].
  - apply led_pulses_length.
  - destruct n; [reflexivity|]. apply Hl. lia.
  - split; [|split].
    + apply (flashLed_preserves ddr n); reflexivity.
    + apply (flashLed_preserves mode n); reflexivity.
    + apply (flashLed_preserves joyMappingFunc n); reflexivity.
Qed.

Lemma X4_witness :
  writes (exec (flashLed JMAP_PLATFORM) booted) =
    writes booted ++ led_pulses 4 /\
  port (exec (flashLed JMAP_PLATFORM) booted) PIN_LED_MODE_CD32 = false.
Proof.
  pose proof (X4_flashLed_pulses JMAP_PLATFORM booted ltac:(unfold JMAP_PLATFORM; lia))
    as H.
  exact (conj (proj1 H) (proj1 (proj2 (proj2 H)))).
Defined.

(** ** The button lines in Mouse mode *)

Lemma handleMouse_axes_button_pins w pin :
  In pin [PIN_BTN1; PIN_BTN2] ->
  let w2 := exec handleMouse_vertical (exec handleMouse_horizontal w) in
  port w2 pin = port w pin /\ ddr w2 pin = ddr w pin.
Proof.
  intros Hin w2. subst w2.
  assert (Hh1 : preserves (fun x => port x PIN_BTN1) handleMouse_horizontal) by frame_pins.
  assert (Hv1 : preserves (fun x => port x PIN_BTN1) handleMouse_vertical) by frame_pins.
  assert (Hh2 : preserves (fun x => port x PIN_BTN2) handleMouse_horizontal) by frame_pins.
  assert (Hv2 : preserves (fun x => port x PIN_BTN2) handleMouse_vertical) by frame_pins.
  assert (Hhd : preserves ddr handleMouse_horizontal) by solve_frame.
  assert (Hvd : preserves ddr handleMouse_vertical) by solve_frame.
  unfold exec. rewrite Hvd, Hhd.
  destruct Hin as [<-|[<-|[]]].
  - split; [|reflexivity]. exact (eq_trans (Hv1 _) (Hh1 w)).
  - split; [|reflexivity]. exact (eq_trans (Hv2 _) (Hh2 w)).
Qed.

(** X7.  In Mouse mode with no pad direction pressed, [handleMouse] makes
    button pin 1 an output exactly when a left shoulder button (L1, L2, L3)
    is down and button pin 2 exactly when a right shoulder button is down,
    whatever the sticks and the face buttons do, and an input with the
    pull-up off otherwise.  It writes no level to either pin: a pin made an
    output keeps the latch it had.  It keeps the mode and returns with the
    interrupts enabled. *)
Theorem X7_mouse_buttons (w : World) :
  dpad_pressed (ps2x w) = false ->
  let p := ps2x w in
  let w' := exec handleMouse w in
  ddr w' PIN_BTN1 = (Button p PSB_L1 || Button p PSB_L2 || Button p PSB_L3) /\
  ddr w' PIN_BTN2 = (Button p PSB_R1 || Button p PSB_R2 || Button p PSB_R3) /\
  (forall pin, In pin [PIN_BTN1; PIN_BTN2] -> port w' pin = port w pin && ddr w' pin) /\
  (ddr w' PIN_BTN1 = false -> port w' PIN_BTN1 = false) /\
  (ddr w' PIN_BTN2 = false -> port w' PIN_BTN2 = false) /\
  irq w' = true /\ mode w' = mode w.
Proof.
  intros Hc p w'. subst w'. rewrite handleMouse_blocks by exact Hc.
  pose proof (handleMouse_axes_ps2x w) as Hps.
  pose proof (proj1 (handleMouse_axes_button_pins w PIN_BTN1 ltac:(simpl; tauto))) as Hp1.
  pose proof (proj1 (handleMouse_axes_button_pins w PIN_BTN2 ltac:(simpl; tauto))) as Hp2.
  assert (Hm : mode (exec handleMouse_vertical (exec handleMouse_horizontal w)) = mode w).
  { assert (Hh : preserves mode handleMouse_horizontal) by solve_frame.
    assert (Hv : preserves mode handleMouse_vertical) by solve_frame.
    unfold exec. now rewrite Hv, Hh. }
  cbv zeta in Hp1, Hp2.
  generalize dependent (exec handleMouse_vertical (exec handleMouse_horizontal w)).
  intros w2 Hps Hp1 Hp2 Hm.
  unfold handleMouse_buttons, exec, bind, gets, buttonPress, buttonRelease,
    pinMode, noInterrupts, interrupts, modify; cbn [fst snd].
  rewrite Hps. fold p.
  destruct (Button p PSB_L1 || Button p PSB_L2 || Button p PSB_L3),
           (Button p PSB_R1 || Button p PSB_R2 || Button p PSB_R3);
    cbn; (split; [reflexivity|]); (split; [reflexivity|]);
    (split; [intros pin [<-|[<-|[]]]; cbn; rewrite <- ?Hp1, <- ?Hp2,
               ?andb_true_r, ?andb_false_r; reflexivity|]);
    repeat split; auto; discriminate.
Qed.

Lemma X7_witness :
  let w := set_ps2x (pad left_shoulder 255 127 127 127) (run booted [EvLoop stick_right]) in
  ddr (exec handleMouse w) PIN_BTN1 = true /\ ddr (exec handleMouse w) PIN_BTN2 = false /\
  port (exec handleMouse w) PIN_BTN1 = false.
Proof.
  intros w.
  pose proof (X7_mouse_buttons w eq_refl) as H.
  exact (conj (proj1 H) (conj (proj1 (proj2 H))
           (proj1 (proj2 (proj2 H)) PIN_BTN1 (or_introl eq_refl)))).
Defined.

(** ** The quadrature sequence *)

Lemma quad_step_axis_poll period w w1 leading trailing t t1 :
  {| lead := port w1 leading; trail := port w1 trailing; timer := t1 |} =
    quad_step period (reading w 0) (reading w 1) (reading w 2)
      {| lead := port w leading; trail := port w trailing; timer := t |} ->
  axis_poll w w1 leading trailing period t t1.
Proof.
  unfold quad_step, axis_poll. cbn [lead trail timer]. cbv zeta.
  destruct (period <=? elapsed (reading w 0) t); intros H;
    injection H as Hl Ht Hti; rewrite Hl, Hti; repeat split; exact Ht.
Qed.

Lemma handleMouse_horizontal_poll w :
  let deltaX := Analog (ps2x w) PSS_RX - ANALOG_IDLE_VALUE in
  let leading := if deltaX >? 0 then PIN_RIGHT else PIN_DOWN in
  let trailing := if deltaX >? 0 then PIN_DOWN else PIN_RIGHT in
  let w1 := exec handleMouse_horizontal w in
  ANALOG_DEAD_ZONE < arduino_abs deltaX ->
  mouse_pins w ->
  axis_poll w w1 leading trailing (mouse_period (arduino_abs deltaX)) (tx w) (tx w1).
Proof.
  intros deltaX leading trailing w1 Hdz Hpins.
  apply quad_step_axis_poll.
  exact (proj1 (handleMouse_horizontal_quad w Hdz Hpins)).
Qed.

Lemma handleMouse_vertical_poll w :
  let deltaY := Analog (ps2x w) PSS_RY - ANALOG_IDLE_VALUE in
  let leading := if deltaY >? 0 then PIN_LEFT else PIN_UP in
  let trailing := if deltaY >? 0 then PIN_UP else PIN_LEFT in
  let w1 := exec handleMouse_vertical w in
  ANALOG_DEAD_ZONE < arduino_abs deltaY ->
  mouse_pins w ->
  axis_poll w w1 leading trailing (mouse_period (arduino_abs deltaY)) (ty w) (ty w1).
Proof.
  intros deltaY leading trailing w1 Hdz Hpins.
  apply quad_step_axis_poll.
  exact (proj1 (handleMouse_vertical_quad w Hdz Hpins)).
Qed.

(** A poll at which the leading pin is due inverts it and leaves the
    trailing pin alone. *)
Lemma axis_poll_lead_due w w1 leading trailing period t t1 :
  axis_poll w w1 leading trailing period t t1 ->
  lead_due w period t ->
  port w1 leading = negb (port w leading) /\
  port w1 trailing = port w trailing /\ t1 = reading w 1.
Proof.
  unfold axis_poll, lead_due. cbv zeta. intros (Hl & Ht & Htr) (H1 & H2).
  apply Z.leb_le in H1. rewrite H1 in Hl, Ht, Htr. subst t1.
  destruct (Z.leb_spec (Z.quot period 2) (elapsed (reading w 2) (reading w 1))); [lia|].
  auto.
Qed.

(** A poll at which only the trailing pin is due writes it with the inverse
    of the leading pin's level. *)
Lemma axis_poll_half_due w w1 leading trailing period t t1 :
  axis_poll w w1 leading trailing period t t1 ->
  half_due w period t ->
  port w1 leading = port w leading /\
  port w1 trailing = negb (port w leading) /\ t1 = t.
Proof.
  unfold axis_poll, half_due. cbv zeta. intros (Hl & Ht & Htr) (H1 & H2).
  destruct (Z.leb_spec period (elapsed (reading w 0) t)); [lia|]. subst t1.
  destruct (Z.leb_spec (Z.quot period 2) (elapsed (reading w 1) t)); [|lia].
  rewrite Htr, Hl. auto.
Qed.

(** From opposite levels, the leading pin's poll followed by the trailing
    pin's poll inverts both pins, the trailing one at the second poll. *)
Lemma axis_two_polls w w1 v v1 leading trailing period t t1 tv tv1 :
  axis_poll w w1 leading trailing period t t1 ->
  axis_poll v v1 leading trailing period tv tv1 ->
  port w trailing = negb (port w leading) ->
  lead_due w period t ->
  port v leading = port w1 leading -> port v trailing = port w1 trailing ->
  half_due v period tv ->
  (port w1 leading = negb (port w leading) /\ port w1 trailing = port w trailing) /\
  (port v1 leading = port v leading /\ port v1 trailing = negb (port v trailing) /\
   port v1 trailing = negb (port v1 leading) /\ tv1 = tv).
Proof.
  intros Hw Hv Hphase Hlead Hvl Hvt Hhalf.
  destruct (axis_poll_lead_due _ _ _ _ _ _ _ Hw Hlead) as (L1 & L2 & _).
  destruct (axis_poll_half_due _ _ _ _ _ _ _ Hv Hhalf) as (T1 & T2 & T3).
  split; [auto|]. rewrite T1, T2, Hvt, L2, Hvl, L1, Hphase. auto.
Qed.

Lemma handleMouse_direction_pins w :
  dpad_pressed (ps2x w) = false ->
  let w2 := exec handleMouse_vertical (exec handleMouse_horizontal w) in
  let w3 := exec handleMouse w in
  tx w3 = tx w2 /\ ty w3 = ty w2 /\
  (forall pin, In pin [PIN_UP; PIN_DOWN; PIN_LEFT; PIN_RIGHT] ->
     port w3 pin = port w2 pin /\ ddr w3 pin = ddr w2 pin).
Proof.
  intros Hc w2 w3. subst w3. rewrite handleMouse_blocks by exact Hc. fold w2.
  unfold handleMouse_buttons, exec, bind, gets, buttonPress, buttonRelease,
    pinMode, noInterrupts, interrupts, modify; cbn [fst snd].
  destruct (Button (ps2x w2) PSB_L1 || Button (ps2x w2) PSB_L2 || Button (ps2x w2) PSB_L3),
           (Button (ps2x w2) PSB_R1 || Button (ps2x w2) PSB_R2 || Button (ps2x w2) PSB_R3);
    (split; [reflexivity|]); (split; [reflexivity|]);
    intros pin [<-|[<-|[<-|[<-|[]]]]]; split; reflexivity.
Qed.

(** C8.  One call of [handleMouse] with no pad direction pressed polls the
    horizontal axis, then the vertical one, then sets the buttons, which
    touches neither the direction pins nor the timers.  For an axis deflected
    beyond the dead zone the poll is [axis_poll]: the leading pin (chosen by
    the sign of the deflection) inverts its level when a period has elapsed
    on the timer of the axis, which then restarts; the trailing pin is then
    written with the inverse of the leading pin's level when half a period
    has elapsed on that timer.  Each axis has its own timer and pins and
    leaves those of the other axis alone.  When the two pins of an axis hold
    opposite levels and the leading pin is due, the poll inverts the leading
    pin only, and a later poll at which half a period has elapsed inverts the
    trailing pin, which leaves the pins at opposite levels again: from then
    on each pin toggles once per period, the trailing pin half a period after
    the leading one. *)
Theorem C8_quadrature_sequence (w v : World) :
  mouse_pins w -> dpad_pressed (ps2x w) = false ->
  let deltaX := Analog (ps2x w) PSS_RX - ANALOG_IDLE_VALUE in
  let deltaY := Analog (ps2x w) PSS_RY - ANALOG_IDLE_VALUE in
  let w1 := exec handleMouse_horizontal w in
  let w2 := exec handleMouse_vertical w1 in
  let w3 := exec handleMouse w in
  (tx w3 = tx w2 /\ ty w3 = ty w2 /\
   forall pin, In pin [PIN_UP; PIN_DOWN; PIN_LEFT; PIN_RIGHT] ->
     port w3 pin = port w2 pin /\ ddr w3 pin = true) /\
  (ty w1 = ty w /\ port w1 PIN_UP = port w PIN_UP /\ port w1 PIN_LEFT = port w PIN_LEFT) /\
  (tx w2 = tx w1 /\ port w2 PIN_RIGHT = port w1 PIN_RIGHT /\
   port w2 PIN_DOWN = port w1 PIN_DOWN) /\
  (ANALOG_DEAD_ZONE < arduino_abs deltaX ->
   let leading := if deltaX >? 0 then PIN_RIGHT else PIN_DOWN in
   let trailing := if deltaX >? 0 then PIN_DOWN else PIN_RIGHT in
   let period := mouse_period (arduino_abs deltaX) in
   axis_poll w w1 leading trailing period (tx w) (tx w1) /\
   (port w trailing = negb (port w leading) -> lead_due w period (tx w) ->
    mouse_pins v -> Analog (ps2x v) PSS_RX = Analog (ps2x w) PSS_RX ->
    port v leading = port w1 leading -> port v trailing = port w1 trailing ->
    half_due v period (tx v) ->
    let v1 := exec handleMouse_horizontal v in
    (port w1 leading = negb (port w leading) /\ port w1 trailing = port w trailing) /\
    (port v1 leading = port v leading /\ port v1 trailing = negb (port v trailing) /\
     port v1 trailing = negb (port v1 leading) /\ tx v1 = tx v))) /\
  (ANALOG_DEAD_ZONE < arduino_abs deltaY ->
   let leading := if deltaY >? 0 then PIN_LEFT else PIN_UP in
   let trailing := if deltaY >? 0 then PIN_UP else PIN_LEFT in
   let period := mouse_period (arduino_abs deltaY) in
   axis_poll w1 w2 leading trailing period (ty w1) (ty w2) /\
   (port w1 trailing = negb (port w1 leading) -> lead_due w1 period (ty w1) ->
    mouse_pins v -> Analog (ps2x v) PSS_RY = Analog (ps2x w) PSS_RY ->
    port v leading = port w2 leading -> port v trailing = port w2 trailing ->
    half_due v period (ty v) ->
    let v1 := exec handleMouse_vertical v in
    (port w2 leading = negb (port w1 leading) /\ port w2 trailing = port w1 trailing) /\
    (port v1 leading = port v leading /\ port v1 trailing = negb (port v trailing) /\
     port v1 trailing = negb (port v1 leading) /\ ty v1 = ty v))).
Proof.
  intros Hpins Hc deltaX deltaY w1 w2 w3.
  assert (Hps1 : ps2x w1 = ps2x w).
  { assert (Hh : preserves ps2x handleMouse_horizontal) by solve_frame. apply Hh. }
  assert (Hpins1 : mouse_pins w1).
  { assert (Hh : preserves ddr handleMouse_horizontal) by solve_frame.
    unfold mouse_pins, w1, exec. rewrite Hh. exact Hpins. }
  assert (Hpins2 : forall pin, ddr w2 pin = ddr w pin).
  { assert (Hh : preserves ddr handleMouse_horizontal) by solve_frame.
    assert (Hv : preserves ddr handleMouse_vertical) by solve_frame.
    intros pin. unfold w2, w1, exec. now rewrite Hv, Hh. }
  assert (Hfx : ty w1 = ty w /\ port w1 PIN_UP = port w PIN_UP /\
                port w1 PIN_LEFT = port w PIN_LEFT).
  { assert (H1 : preserves ty handleMouse_horizontal) by solve_frame.
    assert (H2 : preserves (fun x => port x PIN_UP) handleMouse_horizontal) by frame_pins.
    assert (H3 : preserves (fun x => port x PIN_LEFT) handleMouse_horizontal) by frame_pins.
    exact (conj (H1 w) (conj (H2 w) (H3 w))). }
  assert (Hfy : tx w2 = tx w1 /\ port w2 PIN_RIGHT = port w1 PIN_RIGHT /\
                port w2 PIN_DOWN = port w1 PIN_DOWN).
  { assert (H1 : preserves tx handleMouse_vertical) by solve_frame.
    assert (H2 : preserves (fun x => port x PIN_RIGHT) handleMouse_vertical) by frame_pins.
    assert (H3 : preserves (fun x => port x PIN_DOWN) handleMouse_vertical) by frame_pins.
    exact (conj (H1 w1) (conj (H2 w1) (H3 w1))). }
  split; [|split; [exact Hfx|split; [exact Hfy|split]]].
  - destruct (handleMouse_direction_pins w Hc) as (E1 & E2 & E3).
    split; [exact E1|]. split; [exact E2|].
    intros pin Hin. destruct (E3 pin Hin) as [P1 P2]. split; [exact P1|].
    refine (eq_trans P2 _). refine (eq_trans (Hpins2 pin) _).
    destruct Hpins as (Hu & Hd & Hl & Hr).
    destruct Hin as [<-|[<-|[<-|[<-|[]]]]]; assumption.
  - intros Hdz leading trailing period.
    pose proof (handleMouse_horizontal_poll w Hdz Hpins) as Hw.
    split; [exact Hw|].
    intros Hphase Hlead Hv Hrx Hvl Hvt Hhalf v1.
    assert (Hdzv : ANALOG_DEAD_ZONE <
                   arduino_abs (Analog (ps2x v) PSS_RX - ANALOG_IDLE_VALUE))
      by (rewrite Hrx; exact Hdz).
    pose proof (handleMouse_horizontal_poll v Hdzv Hv) as Hpv.
    cbv zeta in Hpv. rewrite Hrx in Hpv.
    exact (axis_two_polls _ _ _ _ _ _ _ _ _ _ _ Hw Hpv Hphase Hlead Hvl Hvt Hhalf).
  - intros Hdz leading trailing period.
    assert (Hdz1 : ANALOG_DEAD_ZONE <
                   arduino_abs (Analog (ps2x w1) PSS_RY - ANALOG_IDLE_VALUE))
      by (rewrite Hps1; exact Hdz).
    pose proof (handleMouse_vertical_poll w1 Hdz1 Hpins1) as Hw.
    cbv zeta in Hw. rewrite Hps1 in Hw.
    split; [exact Hw|].
    intros Hphase Hlead Hv Hry Hvl Hvt Hhalf v1.
    assert (Hdzv : ANALOG_DEAD_ZONE <
                   arduino_abs (Analog (ps2x v) PSS_RY - ANALOG_IDLE_VALUE))
      by (rewrite Hry; exact Hdz).
    pose proof (handleMouse_vertical_poll v Hdzv Hv) as Hpv.
    cbv zeta in Hpv. rewrite Hry in Hpv.
    exact (axis_two_polls _ _ _ _ _ _ _ _ _ _ _ Hw Hpv Hphase Hlead Hvl Hvt Hhalf).
Qed.

Lemma C8_witness :
  let w := run booted (repeat (EvLoop stick_right) 5) in
  let v := run booted (repeat (EvLoop stick_right) 6) in
  let w1 := exec handleMouse_horizontal w in
  let v1 := exec handleMouse_horizontal v in
  (port w1 PIN_RIGHT = negb (port w PIN_RIGHT) /\ port w1 PIN_DOWN = port w PIN_DOWN) /\
  (port v1 PIN_RIGHT = port v PIN_RIGHT /\ port v1 PIN_DOWN = negb (port v PIN_DOWN) /\
   port v1 PIN_DOWN = negb (port v1 PIN_RIGHT) /\ tx v1 = tx v).
Proof.
  intros w v w1 v1.
  assert (Hpins : mouse_pins w) by (repeat split; reflexivity).
  assert (Hpinsv : mouse_pins v) by (repeat split; reflexivity).
  assert (Hlead : lead_due w 6 (tx w))
    by (split; vm_compute; [intro H; discriminate H|reflexivity]).
  assert (Hhalf : half_due v 6 (tx v))
    by (split; vm_compute; [reflexivity|intro H; discriminate H]).
  exact (proj2 (proj1 (proj2 (proj2 (proj2
           (C8_quadrature_sequence w v Hpins eq_refl)))) eq_refl)
           eq_refl Hlead Hpinsv eq_refl eq_refl eq_refl Hhalf).
Defined.

(** Mouse mode is entered with both horizontal pins low.  With the stick
    held right (period 6 ms) the leading pin rises in the second iteration;
    in the third, half a period after that toggle, the trailing pin is
    written with the inverse of the leading pin's level, which is the level
    it already has: it does not toggle, and the leading pin's next toggle
    finds both pins as they were at the start. *)
Lemma C8_counterexample :
  let w k := run booted (repeat (EvLoop stick_right) k) in
  mode (w 1%nat) = MODE_MOUSE /\ mouse_pins (w 1%nat) /\
  ANALOG_DEAD_ZONE < arduino_abs (Analog stick_right PSS_RX - ANALOG_IDLE_VALUE) /\
  mouse_period (arduino_abs (Analog stick_right PSS_RX - ANALOG_IDLE_VALUE)) = 6 /\
  right_pins_after 1 = (false, false) /\
  right_pins_after 2 = (true, false) /\
  half_due (w 2%nat) 6 (tx (w 2%nat)) /\
  right_pins_after 3 = (true, false) /\
  right_pins_after 4 = (false, false) /\
  right_pins_after 5 = (false, true).
Proof.
  intros w. unfold mouse_pins, half_due.
  repeat match goal with |- _ /\ _ => split end;
    try reflexivity; vm_compute; try reflexivity; intro H; discriminate H.
Qed.

(** * The main loop under preemption *)

(** ** An iteration that no interrupt preempts is [loop] *)

Lemma runp_act c k w : runp (act c k) w = runp k (exec c w).
Proof. reflexivity. Qed.

Lemma runp_acts l : forall k w, runp (acts l k) w = runp k (exec (run_stmts l) w).
Proof.
  induction l as [|c l IH]; intros k w; [reflexivity|].
  cbn [acts run_stmts]. rewrite runp_act, IH. now rewrite exec_seq.
Qed.

Lemma runp_test c kt kf w :
  runp (test c kt kf) w = runp (if fst (c w) then kt else kf) (exec c w).
Proof. reflexivity. Qed.

Lemma toMouse_stmts_run w : exec (run_stmts toMouse_stmts) w = exec toMouse w.
Proof. reflexivity. Qed.

Lemma toJoystick_stmts_run w : exec (run_stmts toJoystick_stmts) w = exec toJoystick w.
Proof. reflexivity. Qed.

Lemma flashLed_stmts_run n : forall w,
  exec (run_stmts (flashLed_stmts n)) w = exec (flashLed n) w.
Proof.
  induction n as [|n IH]; intros w; [reflexivity|].
  cbn [flashLed_stmts run_stmts flashLed]. rewrite !exec_seq. apply IH.
Qed.

Lemma handleJoystick_p_run p k w :
  ps2x w = p -> runp (handleJoystick_p p k) w = runp k (exec handleJoystick w).
Proof.
  intros <-. unfold handleJoystick_p, handleJoystick. rewrite exec_bind.
  change (fst (gets ps2x w)) with (ps2x w).
  change (exec (gets ps2x) w) with w. cbv zeta.
  destruct (_ || _).
  - now rewrite runp_acts, toMouse_stmts_run.
  - destruct (Button (ps2x w) PSB_SELECT).
    + repeat match goal with
             | |- context [if ?b then _ else _] => destruct b
             end;
        try reflexivity;
        now rewrite runp_act, runp_acts, flashLed_stmts_run, exec_seq.
    + cbn [runp]. now rewrite runp_acts.
Qed.

Lemma handleMouse_horizontal_p_run p k w :
  ps2x w = p ->
  runp (handleMouse_horizontal_p p k) w = runp k (exec handleMouse_horizontal w).
Proof.
  intros <-. unfold handleMouse_horizontal_p, handleMouse_horizontal.
  rewrite exec_bind.
  change (fst (gets ps2x w)) with (ps2x w).
  change (exec (gets ps2x) w) with w. cbv zeta.
  destruct (_ >? ANALOG_DEAD_ZONE); [|reflexivity].
  cbv beta iota zeta delta [test act acts exec bind gets millis ret digitalRead
    digitalWrite modify runp fst snd].
  repeat match goal with
         | |- context [if (?a >=? ?b) then _ else _] =>
             destruct (a >=? b);
             cbv beta iota zeta delta [runp fst snd]
         end; reflexivity.
Qed.

Lemma handleMouse_vertical_p_run p k w :
  ps2x w = p ->
  runp (handleMouse_vertical_p p k) w = runp k (exec handleMouse_vertical w).
Proof.
  intros <-. unfold handleMouse_vertical_p, handleMouse_vertical.
  rewrite exec_bind.
  change (fst (gets ps2x w)) with (ps2x w).
  change (exec (gets ps2x) w) with w. cbv zeta.
  destruct (_ >? ANALOG_DEAD_ZONE); [|reflexivity].
  cbv beta iota zeta delta [test act acts exec bind gets millis ret digitalRead
    digitalWrite modify runp fst snd].
  repeat match goal with
         | |- context [if (?a >=? ?b) then _ else _] =>
             destruct (a >=? b);
             cbv beta iota zeta delta [runp fst snd]
         end; reflexivity.
Qed.

Lemma handleMouse_p_run p k w :
  ps2x w = p -> runp (handleMouse_p p k) w = runp k (exec handleMouse w).
Proof.
  intros Hp. unfold handleMouse_p.
  destruct (_ || _) eqn:Hc.
  - rewrite runp_acts, toJoystick_stmts_run. f_equal.
    unfold handleMouse, exec, bind, gets; cbn [fst snd]. rewrite Hp, Hc. reflexivity.
  - assert (Hd : dpad_pressed (ps2x w) = false) by (rewrite Hp; exact Hc).
    rewrite (handleMouse_blocks w Hd).
    assert (Hh : preserves ps2x handleMouse_horizontal) by solve_frame.
    assert (Hv : preserves ps2x handleMouse_vertical) by solve_frame.
    rewrite handleMouse_horizontal_p_run by exact Hp.
    rewrite handleMouse_vertical_p_run by (exact (eq_trans (Hh w) Hp)).
    rewrite runp_acts. f_equal.
    set (w2 := exec handleMouse_vertical (exec handleMouse_horizontal w)).
    assert (Hp2 : ps2x w2 = p) by (exact (eq_trans (Hv _) (eq_trans (Hh w) Hp))).
    unfold handleMouse_buttons. rewrite exec_bind.
    change (fst (gets ps2x w2)) with (ps2x w2).
    change (exec (gets ps2x) w2) with w2. rewrite Hp2.
    unfold handleMouse_button_stmts. cbn [run_stmts]. rewrite !exec_seq. reflexivity.
Qed.

Lemma handleCD32Pad_p_run p k w :
  ps2x w = p -> runp (handleCD32Pad_p p k) w = runp k (exec handleCD32Pad w).
Proof.
  intros Hp. unfold handleCD32Pad_p. rewrite !runp_acts. f_equal.
  unfold handleCD32Pad. rewrite exec_seq, exec_bind.
  assert (Hd : exec (run_stmts (handleCD32Pad_direction_stmts p)) w =
               exec handleCD32Pad_directions w).
  { unfold handleCD32Pad_directions. rewrite exec_bind.
    change (fst (gets ps2x w)) with (ps2x w).
    change (exec (gets ps2x) w) with w. rewrite Hp.
    unfold handleCD32Pad_direction_stmts. cbv zeta. cbn [run_stmts].
    rewrite !exec_seq. reflexivity. }
  rewrite Hd.
  set (w1 := exec handleCD32Pad_directions w).
  change (fst (gets ps2x w1)) with (ps2x w1).
  change (exec (gets ps2x) w1) with w1.
  assert (Hp1 : ps2x w1 = p) by (exact (eq_trans (handleCD32Pad_directions_ps2x w) Hp)).
  now rewrite Hp1.
Qed.

Lemma loop_timeout_p_run w : runp loop_timeout_p w = exec loop_timeout w.
Proof.
  unfold loop_timeout_p, loop_timeout.
  cbv beta iota zeta delta [test exec bind gets ret runp fst snd].
  destruct (lastSwitchedTime w >? 0); [|reflexivity].
  cbv beta iota zeta delta [millis runp fst snd].
  change (lastSwitchedTime (set_ticks (S (ticks w)) w)) with (lastSwitchedTime w).
  destruct (_ >? TIMEOUT_CD32_MODE); [|reflexivity].
  change (wasMouse (set_ticks (S (ticks w)) w)) with (wasMouse w).
  destruct (wasMouse w); reflexivity.
Qed.

Lemma loop_p_run snapshot w : runp (loop_p snapshot) w = exec (loop snapshot) w.
Proof.
  unfold loop_p, loop. rewrite runp_act, exec_seq.
  cbn [runp].
  change (mode (exec (read_gamepad snapshot) w)) with (mode w).
  assert (Hp : ps2x (exec (read_gamepad snapshot) w) = snapshot) by reflexivity.
  destruct (mode w) eqn:Hm.
  - rewrite handleJoystick_p_run by exact Hp.
    rewrite runp_act, loop_timeout_p_run. f_equal.
    now rewrite loop_poll_joystick.
  - rewrite handleMouse_p_run by exact Hp.
    rewrite runp_act, loop_timeout_p_run. f_equal.
    now rewrite loop_poll_mouse.
  - rewrite handleCD32Pad_p_run by exact Hp.
    rewrite runp_act, loop_timeout_p_run. f_equal.
    now rewrite loop_poll_cd32_exec.
Qed.

Lemma prun_ticks p : forall w,
  prun (w, p) (repeat Tick (steps_left p w)) = (runp p w, Halt).
Proof.
  induction p as [|f k IH]; intros w; [reflexivity|].
  cbn [steps_left repeat runp]. exact (IH w (f w)).
Qed.

(** An iteration of [loop] that no interrupt preempts is one event of
    [step]. *)
Lemma uninterrupted_iteration snapshot w :
  prun (w, Halt) (Next snapshot :: repeat Tick (steps_left (loop_p snapshot) w)) =
  (step w (EvLoop snapshot), Halt).
Proof.
  change (prun (w, Halt) (Next snapshot :: ?l)) with (prun (w, loop_p snapshot) l).
  rewrite prun_ticks. now rewrite loop_p_run.
Qed.

Lemma prun_app c l1 l2 : prun c (l1 ++ l2) = prun (prun c l1) l2.
Proof. apply fold_left_app. Qed.

(** Every world [step] reaches is a configuration between two iterations. *)
Lemma reachable_preachable w : reachable w -> preachable (w, Halt).
Proof.
  intros (env_line & env_clock & evs & ->).
  assert (H : forall evs w0, irq w0 = true ->
            exists l, prun (w0, Halt) l = (run w0 evs, Halt)).
  { clear evs. induction evs as [|e evs IH]; intros w0 Hi; [now exists []|].
    destruct (IH (step w0 e) (step_irq w0 e Hi)) as [l Hl].
    destruct e as [level| |snapshot].
    - exists (Strobe level :: l). cbn [prun fold_left pstep fst snd].
      rewrite Hi. exact Hl.
    - exists (ClockEdge :: l). cbn [prun fold_left pstep fst snd].
      rewrite Hi. exact Hl.
    - exists ((Next snapshot :: repeat Tick (steps_left (loop_p snapshot) w0)) ++ l).
      rewrite prun_app, uninterrupted_iteration. exact Hl. }
  destruct (H evs (boot env_line env_clock) eq_refl) as [l Hl].
  exists env_line, env_clock, l. now rewrite Hl.
Qed.

(** ** Invariants of the statements *)

Lemma keeps_act I R c k :
  respects I R c -> keeps I R k -> keeps I R (act c k).
Proof.
  intros Hc Hk. apply keeps_Step; intros w Hw; [apply Hc|apply Hc|]; assumption.
Qed.

Lemma keeps_acts I R l k :
  Forall (respects I R) l -> keeps I R k -> keeps I R (acts l k).
Proof.
  intros Hl Hk. induction Hl as [|c l Hc _ IH]; [exact Hk|].
  cbn [acts]. now apply keeps_act.
Qed.

Lemma keeps_test I R c kt kf :
  respects I R c ->
  (forall w, I w -> fst (c w) = true -> keeps I R kt) ->
  (forall w, I w -> fst (c w) = false -> keeps I R kf) ->
  keeps I R (test c kt kf).
Proof.
  intros Hc Ht Hf. apply keeps_Step; intros w Hw; [apply Hc|apply Hc|]; try assumption.
  destruct (fst (c w)) eqn:E; [now apply (Ht w)|now apply (Hf w)].
Qed.

Lemma respects_if {A} I R (b : bool) (c1 c2 : M A) :
  respects I R c1 -> respects I R c2 -> respects I R (if b then c1 else c2).
Proof. now destruct b. Qed.

(** One action of a configuration whose program keeps [I]: the invariant
    holds again, provided the interrupt handlers keep it too. *)
Lemma pstep_keeps I R c a :
  (forall w e, I w -> is_loop e = false -> I (step w e)) ->
  (forall snapshot, keeps I R (loop_p snapshot)) ->
  I (fst c) -> keeps I R (snd c) ->
  I (fst (pstep c a)) /\ keeps I R (snd (pstep c a)).
Proof.
  intros Hisr Hloop Hw Hp. destruct c as [w p]. cbn [fst snd] in *.
  destruct a as [|snapshot|level|]; cbn [pstep fst snd].
  - destruct Hp as [|f k H1 H2 H3]; cbn [fst snd]; [split; [exact Hw|apply keeps_Halt]|].
    split; [now apply H1|now apply H3].
  - destruct Hp as [|f k H1 H2 H3]; cbn [fst snd]; [split; [exact Hw|apply Hloop]|].
    split; [exact Hw|now apply keeps_Step].
  - destruct (irq w); [|now split]. split; [|exact Hp].
    apply Hisr; [exact Hw|reflexivity].
  - destruct (irq w); [|now split]. split; [|exact Hp].
    apply Hisr; [exact Hw|reflexivity].
Qed.

Lemma prun_keeps I R l : forall c,
  (forall w e, I w -> is_loop e = false -> I (step w e)) ->
  (forall snapshot, keeps I R (loop_p snapshot)) ->
  I (fst c) -> keeps I R (snd c) ->
  I (fst (prun c l)) /\ keeps I R (snd (prun c l)).
Proof.
  induction l as [|a l IH]; intros c Hisr Hloop Hw Hp; [now split|].
  cbn [prun fold_left].
  destruct (pstep_keeps I R c a Hisr Hloop Hw Hp) as [Hw' Hp'].
  now apply IH.
Qed.

(** ** The pins no mode owns and the reserved bit, under preemption *)

Lemma steady_frame {A} (c : M A) :
  preserves (fun y => ddr y PIN_PADMODE) c ->
  preserves (fun y => port y PIN_PADMODE) c ->
  preserves (fun y => ddr y PIN_LED_PAD_OK) c ->
  preserves (fun y => port y PIN_LED_PAD_OK) c ->
  preserves (fun y => ddr y PIN_LED_MODE_CD32) c ->
  preserves buttonsLive c ->
  respects steady anything c.
Proof.
  intros P1 P2 P3 P4 P5 P6 w ((G1 & G2 & G3 & G4 & G5) & Hm & Hb).
  split; [|exact I].
  unfold steady, fixed_pins, msb_set, exec.
  rewrite (P1 w), (P2 w), (P3 w), (P4 w), (P5 w), (P6 w). auto 10.
Qed.

Ltac steady_stmt := apply steady_frame; frame_pins.

Lemma clear_bit_steady btn : 0 <= btn < 128 -> respects steady anything (clear_bit btn).
Proof.
  intros Hbtn w (Hf & Hm & Hb). split; [|exact I].
  split; [exact Hf|]. split.
  - now apply clear_bit_msb.
  - unfold clear_bit, exec, bind, gets, modify; cbn [fst snd buttonsLive set_buttonsLive].
    unfold to_byte. apply Z.mod_pos_bound. lia.
Qed.

Lemma register_stmts_steady p :
  Forall (respects steady anything) (handleCD32Pad_register_stmts p).
Proof.
  unfold handleCD32Pad_register_stmts.
  repeat apply Forall_cons; try apply Forall_nil;
    try (apply respects_if;
         [apply clear_bit_steady; vm_compute; split; [intro H; discriminate H|reflexivity]
         |steady_stmt]).
  intros w (Hf & _ & _). split; [|exact I].
  split; [exact Hf|]. split; [reflexivity|]. cbn. lia.
Qed.

Lemma Forall_steady_stmts l :
  Forall (fun c : M unit =>
            preserves (fun y => ddr y PIN_PADMODE) c /\
            preserves (fun y => port y PIN_PADMODE) c /\
            preserves (fun y => ddr y PIN_LED_PAD_OK) c /\
            preserves (fun y => port y PIN_LED_PAD_OK) c /\
            preserves (fun y => ddr y PIN_LED_MODE_CD32) c /\
            preserves buttonsLive c) l ->
  Forall (respects steady anything) l.
Proof.
  apply Forall_impl. intros c (P1 & P2 & P3 & P4 & P5 & P6). now apply steady_frame.
Qed.

Ltac steady_stmts :=
  apply Forall_steady_stmts;
  repeat apply Forall_cons; try apply Forall_nil;
  repeat split; frame_pins.

Lemma flashLed_stmts_steady n : Forall (respects steady anything) (flashLed_stmts n).
Proof.
  induction n as [|n IH]; [apply Forall_nil|].
  cbn [flashLed_stmts].
  repeat (apply Forall_cons; [steady_stmt|]). exact IH.
Qed.

Lemma loop_timeout_p_steady : keeps steady anything loop_timeout_p.
Proof.
  unfold loop_timeout_p.
  apply keeps_test; [steady_stmt| |intros; apply keeps_Halt].
  intros _ _ _.
  apply keeps_test; [steady_stmt| |intros; apply keeps_Halt].
  intros _ _ _.
  apply keeps_test; [steady_stmt| |]; intros _ _ _;
    (apply keeps_acts; [steady_stmts|]);
    (apply keeps_act; [steady_stmt|apply keeps_Halt]).
Qed.

Lemma handleJoystick_p_steady p k :
  keeps steady anything k -> keeps steady anything (handleJoystick_p p k).
Proof.
  intros Hk. unfold handleJoystick_p. cbv zeta.
  destruct (_ || _).
  - apply keeps_acts; [steady_stmts|exact Hk].
  - destruct (Button p PSB_SELECT).
    + repeat match goal with
             | |- keeps _ _ (if ?b then _ else _) => destruct b
             end;
        try exact Hk;
        (apply keeps_act; [steady_stmt|]);
        (apply keeps_acts; [apply flashLed_stmts_steady|exact Hk]).
    + apply keeps_Step; intros w Hw; [exact Hw|exact I|].
      apply keeps_acts; [|exact Hk].
      unfold handleJoystick_pin_stmts. steady_stmts.
Qed.

Lemma handleMouse_p_steady p k :
  keeps steady anything k -> keeps steady anything (handleMouse_p p k).
Proof.
  intros Hk. unfold handleMouse_p.
  destruct (_ || _).
  - apply keeps_acts; [steady_stmts|exact Hk].
  - unfold handleMouse_horizontal_p, handleMouse_vertical_p. cbv zeta.
    assert (Hb : keeps steady anything (acts (handleMouse_button_stmts p) k)).
    { apply keeps_acts; [|exact Hk]. unfold handleMouse_button_stmts. steady_stmts. }
    assert (Hv : keeps steady anything (handleMouse_vertical_p p
                   (acts (handleMouse_button_stmts p) k))).
    { unfold handleMouse_vertical_p. cbv zeta.
      destruct (_ >? ANALOG_DEAD_ZONE); [|exact Hb].
      assert (Ht : keeps steady anything
                (test (now <- millis ;; t <- gets ty ;;
                       ret (to_ulong (now - t) >=?
                            Z.quot (mouse_period (arduino_abs
                              (Analog p PSS_RY - ANALOG_IDLE_VALUE))) 2))
                   (act (l <- digitalRead
                           (if Analog p PSS_RY - ANALOG_IDLE_VALUE >? 0
                            then PIN_LEFT else PIN_UP) ;;
                         digitalWrite
                           (if Analog p PSS_RY - ANALOG_IDLE_VALUE >? 0
                            then PIN_UP else PIN_LEFT) (lnot_int l))
                      (acts (handleMouse_button_stmts p) k))
                   (acts (handleMouse_button_stmts p) k))).
      { apply keeps_test; [steady_stmt| |intros; exact Hb].
        intros _ _ _. apply keeps_act; [steady_stmt|exact Hb]. }
      apply keeps_test; [steady_stmt| |intros; exact Ht].
      intros _ _ _. apply keeps_acts; [steady_stmts|exact Ht]. }
    fold (handleMouse_vertical_p p (acts (handleMouse_button_stmts p) k)).
    destruct (_ >? ANALOG_DEAD_ZONE); [|exact Hv].
    assert (Ht : keeps steady anything
              (test (now <- millis ;; t <- gets tx ;;
                     ret (to_ulong (now - t) >=?
                          Z.quot (mouse_period (arduino_abs
                            (Analog p PSS_RX - ANALOG_IDLE_VALUE))) 2))
                 (act (l <- digitalRead
                         (if Analog p PSS_RX - ANALOG_IDLE_VALUE >? 0
                          then PIN_RIGHT else PIN_DOWN) ;;
                       digitalWrite
                         (if Analog p PSS_RX - ANALOG_IDLE_VALUE >? 0
                          then PIN_DOWN else PIN_RIGHT) (lnot_int l))
                    (handleMouse_vertical_p p (acts (handleMouse_button_stmts p) k)))
                 (handleMouse_vertical_p p (acts (handleMouse_button_stmts p) k)))).
    { apply keeps_test; [steady_stmt| |intros; exact Hv].
      intros _ _ _. apply keeps_act; [steady_stmt|exact Hv]. }
    apply keeps_test; [steady_stmt| |intros; exact Ht].
    intros _ _ _. apply keeps_acts; [steady_stmts|exact Ht].
Qed.

Lemma handleCD32Pad_p_steady p k :
  keeps steady anything k -> keeps steady anything (handleCD32Pad_p p k).
Proof.
  intros Hk. unfold handleCD32Pad_p.
  apply keeps_acts.
  - unfold handleCD32Pad_direction_stmts. cbv zeta. steady_stmts.
  - apply keeps_acts; [apply register_stmts_steady|exact Hk].
Qed.

Lemma loop_p_steady snapshot : keeps steady anything (loop_p snapshot).
Proof.
  unfold loop_p.
  apply keeps_act; [steady_stmt|].
  apply keeps_Step; intros w Hw; [exact Hw|exact I|].
  destruct (mode w).
  - apply handleJoystick_p_steady.
    apply keeps_act; [steady_stmt|apply loop_timeout_p_steady].
  - apply handleMouse_p_steady.
    apply keeps_act; [steady_stmt|apply loop_timeout_p_steady].
  - apply handleCD32Pad_p_steady.
    apply keeps_act; [steady_stmt|apply loop_timeout_p_steady].
Qed.

Lemma step_steady w e : steady w -> steady (step w e).
Proof.
  intros (Hf & Hm & Hb). split; [now apply step_fixed_pins|].
  split; [now apply step_msb|].
  destruct e as [level| |snapshot]; cbn [step].
  - unfold exec. rewrite onPadModeChange_live. exact Hb.
  - destruct (clockISR w); [|exact Hb]. unfold exec. rewrite onClockEdge_live. exact Hb.
  - unfold loop. rewrite exec_seq.
    pose proof (loop_timeout_live (exec (loop_poll snapshot) w)) as E.
    change (buttonsLive (exec loop_timeout (exec (loop_poll snapshot) w)) =
            buttonsLive (exec (loop_poll snapshot) w)) in E.
    rewrite E. now apply loop_poll_live_byte.
Qed.

(** X11.  However the interrupt handlers interleave with the statements of
    [loop], the pins that no mode owns keep the role [setup] gave them (the
    mode-select pin an input with its pull-up, the two LED pins outputs, the
    controller-found LED lit), and the live register stays a byte whose
    reserved bit is 1. *)
Theorem X11_fixed_pins_under_preemption (c : Config) :
  preachable c ->
  fixed_pins (fst c) /\ msb_set (fst c) /\ 0 <= buttonsLive (fst c) < 256.
Proof.
  intros (env_line & env_clock & l & ->).
  refine (proj1 (prun_keeps steady anything l (boot env_line env_clock, Halt) _ _ _ _)).
  - intros w e Hw _. now apply step_steady.
  - apply loop_p_steady.
  - split; [repeat split; reflexivity|]. split; [reflexivity|]. cbn. lia.
  - apply keeps_Halt.
Qed.

Lemma X11_witness :
  let c := prun (booted, Halt) (preempted_poll 5 20) in
  fixed_pins (fst c) /\ msb_set (fst c) /\ 0 <= buttonsLive (fst c) < 256.
Proof.
  refine (X11_fixed_pins_under_preemption _ _).
  exists line_high, (clock_from 1000), (preempted_poll 5 20).
  reflexivity.
Defined.

(** The roles that do depend on the mode are not kept under preemption.
    [handleJoystick] disables the interrupts only after it has set the
    direction pins; a strobe served before that switches to CD32 mode, after
    which the handler still releases both button pins: the data pin of the
    pad session is left an input, and the iterations that follow in CD32 mode
    do not make it an output again.  Served between two iterations, the same
    strobe leaves the data pin an output. *)
Example strobe_before_noInterrupts :
  let c := prun (booted, Halt) (preempted_poll 5 20) in
  let c' := prun c (Next idle_pad :: repeat Tick 20) in
  let d := prun (booted, Halt) (Strobe false :: Next idle_pad :: repeat Tick 20) in
  (snd c = Halt /\ mode (fst c) = MODE_CD32 /\ clockISR (fst c) = true /\
   ddr (fst c) PIN_BTNREGOUT = false) /\
  (snd c' = Halt /\ mode (fst c') = MODE_CD32 /\ ddr (fst c') PIN_BTNREGOUT = false) /\
  (snd d = Halt /\ mode (fst d) = MODE_CD32 /\ ddr (fst d) PIN_BTNREGOUT = true).
Proof. repeat split; reflexivity. Qed.

(** ** A report shifted out while the main loop runs *)

Section Session.

(** [Q] is the reason why no timeout fires; it only looks at the recorded
    release and at the clock. *)
Variable Q : World -> Prop.
Hypothesis Q_frame : forall w w',
  lastSwitchedTime w' = lastSwitchedTime w -> clock w' = clock w ->
  ticks w' = ticks w -> Q w -> Q w'.
Hypothesis Q_timeout : keeps (session Q) shifter_untouched loop_timeout_p.

Lemma session_frame {A} (c : M A) :
  preserves mode c -> preserves clockISR c -> preserves irq c ->
  preserves (fun y => ddr y PIN_PADMODE) c ->
  preserves (fun y => ddr y PIN_BTNREGOUT) c ->
  preserves buttonsLive c -> preserves buttons c -> preserves data_line c ->
  preserves lastSwitchedTime c -> preserves clock c -> preserves ticks c ->
  respects (session Q) shifter_untouched c.
Proof.
  intros P1 P2 P3 P4 P5 P6 P7 P8 P9 P10 P11 w
    ((Hm & Hc & Hi & Hp & Ho & Hl & Hb) & Hq).
  unfold session, in_session, shifter_untouched, exec.
  rewrite (P1 w), (P2 w), (P3 w), (P4 w), (P5 w), (P6 w), (P7 w), (P8 w).
  repeat split; try assumption; try lia.
  apply (Q_frame w); [apply P9|apply P10|apply P11|exact Hq].
Qed.

Lemma session_live (c : M unit) :
  (forall w, exists v, 0 <= v < 256 /\ exec c w = set_buttonsLive v w) ->
  respects (session Q) shifter_untouched c.
Proof.
  intros Hc w ((Hm & Hi & Hq1 & Hp & Ho & Hl & Hb) & Hq).
  destruct (Hc w) as (v & Hv & ->).
  split; [|split; reflexivity]. split.
  - unfold in_session. cbn [mode clockISR irq ddr buttonsLive buttons set_buttonsLive].
    repeat split; try assumption; lia.
  - apply (Q_frame w); auto.
Qed.

Lemma clear_bit_session btn : respects (session Q) shifter_untouched (clear_bit btn).
Proof.
  apply session_live. intros w.
  exists (to_byte (Z.land (buttonsLive w) (bitnot_uint btn))).
  split; [apply Z.mod_pos_bound; lia|reflexivity].
Qed.

Lemma register_stmts_session p :
  Forall (respects (session Q) shifter_untouched) (handleCD32Pad_register_stmts p).
Proof.
  unfold handleCD32Pad_register_stmts.
  repeat apply Forall_cons; try apply Forall_nil;
    try (apply respects_if;
         [apply clear_bit_session|apply session_frame; solve [frame_pins]]).
  apply session_live. intros w. exists 255. split; [lia|reflexivity].
Qed.

Lemma handleCD32Pad_p_session p k :
  keeps (session Q) shifter_untouched k ->
  keeps (session Q) shifter_untouched (handleCD32Pad_p p k).
Proof.
  intros Hk. unfold handleCD32Pad_p. apply keeps_acts.
  - unfold handleCD32Pad_direction_stmts. cbv zeta.
    repeat apply Forall_cons; try apply Forall_nil;
      (apply session_frame; solve [frame_pins]).
  - apply keeps_acts; [apply register_stmts_session|exact Hk].
Qed.

Lemma loop_p_session snapshot : keeps (session Q) shifter_untouched (loop_p snapshot).
Proof.
  unfold loop_p.
  apply keeps_act; [apply session_frame; solve [frame_pins]|].
  apply keeps_Step; intros w Hw;
    [exact Hw|split; reflexivity|].
  destruct Hw as ((Hm & _) & _). rewrite Hm.
  apply handleCD32Pad_p_session.
  apply keeps_act; [|exact Q_timeout].
  apply session_frame; solve [frame_pins | frame_data].
Qed.

Lemma clock_edge_session w :
  session Q w ->
  session Q (exec onClockEdge w) /\
  data_line (exec onClockEdge w) = data_line w ++ [Z.testbit (buttons w) 0] /\
  buttons (exec onClockEdge w) = to_byte (Z.shiftr (buttons w) 1).
Proof.
  intros ((Hm & Hc & Hi & Hp & Ho & Hl & Hb) & Hq).
  destruct (onClockEdge_spec w) as (Hd & Hbt & Hlive & Hmode).
  split; [|split; assumption].
  split.
  - unfold in_session. rewrite Hbt, Hlive, Hmode.
    repeat split; try assumption; try lia; apply Z.mod_pos_bound; lia.
  - apply (Q_frame w); [reflexivity..|exact Hq].
Qed.

Lemma strobe_session w :
  session Q w ->
  let w' := step w (EvPadMode false) in
  session Q w' /\
  data_line w' = data_line w ++ [Z.testbit (buttonsLive w) 0] /\
  buttons w' = to_byte (Z.shiftr (buttonsLive w) 1).
Proof.
  intros ((Hm & Hc & Hi & Hp & Ho & Hl & Hb) & Hq) w'. subst w'. cbn [step].
  set (w0 := set_line (upd (line w) PIN_PADMODE false) w).
  assert (Hs : strobe_asserted w0) by (split; [exact Hp|reflexivity]).
  destruct (onPadModeChange_asserted w0 Hs) as (Hd & Hbt & Hlive & Hmode).
  split; [|split; assumption].
  assert (Hrest : clockISR (exec onPadModeChange w0) = clockISR w /\
                  irq (exec onPadModeChange w0) = irq w /\
                  ddr (exec onPadModeChange w0) = ddr w /\
                  lastSwitchedTime (exec onPadModeChange w0) = lastSwitchedTime w /\
                  clock (exec onPadModeChange w0) = clock w /\
                  ticks (exec onPadModeChange w0) = ticks w).
  { subst w0.
    unfold exec, onPadModeChange, toCD32, bind, gets, digitalRead, digitalWrite,
      pinMode, attachInterrupt_BTNREGCLK, modify, ret; simpl.
    rewrite Hp; simpl. rewrite Hm; simpl. repeat split; reflexivity. }
  destruct Hrest as (E1 & E2 & E3 & E4 & E5 & E6).
  split.
  - unfold in_session. rewrite Hmode, E1, E2, E3, Hbt, Hlive.
    repeat split; try assumption; try (apply Z.mod_pos_bound; lia);
      change (buttonsLive w0) with (buttonsLive w); lia.
  - apply (Q_frame w); assumption.
Qed.

Lemma pstep_session c a :
  session Q (fst c) -> keeps (session Q) shifter_untouched (snd c) ->
  is_strobe a = false ->
  let c' := pstep c a in
  (session Q (fst c') /\ keeps (session Q) shifter_untouched (snd c')) /\
  data_line (fst c') =
    data_line (fst c) ++
    (if is_clock_edge a then [Z.testbit (buttons (fst c)) 0] else []) /\
  buttons (fst c') =
    (if is_clock_edge a then to_byte (Z.shiftr (buttons (fst c)) 1)
     else buttons (fst c)).
Proof.
  intros Hw Hp Ha c'. subst c'. destruct c as [w p]. cbn [fst snd] in *.
  destruct a as [|snapshot|level|]; [| |discriminate|];
    cbn [pstep fst snd is_clock_edge]; rewrite ?app_nil_r.
  - destruct Hp as [|f k H1 H2 H3]; cbn [fst snd].
    + repeat split; [apply Hw..|apply keeps_Halt].
    + destruct (H2 w Hw) as [Hb Hd].
      split; [split; [now apply H1|now apply H3]|]. split; assumption.
  - destruct Hp as [|f k H1 H2 H3]; cbn [fst snd].
    + repeat split; [apply Hw..|apply loop_p_session].
    + repeat split; [apply Hw..|now apply keeps_Step].
  - pose proof Hw as ((_ & Hc & Hi & _) & _). rewrite Hi. cbn [step fst snd].
    rewrite Hc. destruct (clock_edge_session w Hw) as (Hs & Hd & Hb).
    split; [split; assumption|]. split; assumption.
Qed.

Lemma prun_session l : forall c,
  session Q (fst c) -> keeps (session Q) shifter_untouched (snd c) ->
  strobe_free l = true ->
  (session Q (fst (prun c l)) /\
   keeps (session Q) shifter_untouched (snd (prun c l))) /\
  data_line (fst (prun c l)) =
    data_line (fst c) ++
    map (fun k => Z.testbit (buttons (fst c)) (Z.of_nat k))
      (seq 0 (length (filter is_clock_edge l))).
Proof.
  induction l as [|a l IH]; intros c Hw Hp Hl.
  - cbn. rewrite app_nil_r. now split.
  - cbn [strobe_free forallb] in Hl. apply andb_prop in Hl. destruct Hl as [Ha Hl].
    apply negb_true_iff in Ha.
    destruct (pstep_session c a Hw Hp Ha) as ((Hw' & Hp') & Hd & Hb).
    cbn [prun fold_left]. destruct (IH (pstep c a) Hw' Hp' Hl) as [Hs Hrun].
    split; [exact Hs|].
    unfold prun in Hrun. rewrite Hrun, Hd, Hb, <- app_assoc. f_equal.
    destruct Hw as ((_ & _ & _ & _ & _ & _ & Hbyte) & _).
    cbn [filter]. destruct (is_clock_edge a); [|reflexivity].
    cbn [length seq map app]. f_equal.
    rewrite <- seq_shift, map_map. apply map_ext_in. intros k _.
    rewrite testbit_shiftr_byte by lia. f_equal. lia.
Qed.

Lemma report_session w0 pre post :
  session Q w0 -> strobe_free pre = true -> strobe_free post = true ->
  let c1 := prun (w0, Halt) pre in
  let c2 := prun c1 (Strobe false :: post) in
  let n := length (filter is_clock_edge post) in
  data_line (fst c2) =
    data_line (fst c1) ++
    firstn (S n) (bits_lsb_first (buttonsLive (fst c1)) ++ repeat false (S n)) /\
  in_session (fst c2).
Proof.
  intros Hw0 Hpre Hpost c1 c2 n.
  destruct (prun_session pre (w0, Halt) Hw0 (keeps_Halt _ _) Hpre) as [[Hw1 Hp1] _].
  fold c1 in Hw1, Hp1.
  subst c2. cbn [prun fold_left pstep].
  pose proof Hw1 as ((_ & _ & Hi & _ & _ & Hl & _) & _). rewrite Hi.
  destruct (strobe_session (fst c1) Hw1) as (Hw2 & Hd & Hb).
  cbv zeta in Hw2, Hd, Hb.
  destruct (prun_session post (step (fst c1) (EvPadMode false), snd c1) Hw2 Hp1 Hpost)
    as [[Hs _] Hrun].
  split; [|apply Hs].
  unfold prun in Hrun. rewrite Hrun. cbn [fst]. rewrite Hd, Hb, <- app_assoc. f_equal.
  fold n. rewrite <- shifted_out_bits by exact Hl.
  cbn [seq map app]. f_equal.
  rewrite <- seq_shift, map_map. apply map_ext_in. intros k _.
  rewrite testbit_shiftr_byte by lia. f_equal. lia.
Qed.

End Session.

Lemma loop_timeout_p_unarmed : keeps (session unarmed) shifter_untouched loop_timeout_p.
Proof.
  unfold loop_timeout_p. apply keeps_test.
  - apply session_frame; try solve [frame_pins].
    intros w w' H1 _ _ Hq. unfold unarmed in *. congruence.
  - intros w (_ & Hq) Ht. unfold unarmed in Hq. cbn in Ht. rewrite Hq in Ht.
    discriminate Ht.
  - intros. apply keeps_Halt.
Qed.

Lemma loop_timeout_p_within : keeps (session within_timeout) shifter_untouched loop_timeout_p.
Proof.
  unfold loop_timeout_p. apply keeps_test.
  - apply session_frame; try solve [frame_pins].
    intros w w' H1 H2 H3 Hq k. unfold within_timeout in *. rewrite H1, H2, H3. apply Hq.
  - intros _ _ _. apply keeps_test.
    + intros w (Hs & Hq). split; [|split; reflexivity]. split; [exact Hs|].
      intros k Hk. apply (Hq k). cbn in Hk. lia.
    + intros w (_ & Hq) Ht. exfalso.
      specialize (Hq (ticks w) (Nat.le_refl _)).
      cbn in Ht. unfold elapsed in Hq.
      apply Z.gtb_lt in Ht. lia.
    + intros. apply keeps_Halt.
  - intros. apply keeps_Halt.
Qed.

(** X16.  A report is shifted out intact while the main loop runs.  Take a
    pad session at the start of an iteration of [loop] in which no timeout
    can fire (no release of the strobe recorded, or every coming reading of
    the clock within TIMEOUT_CD32_MODE ms of it), let the iterations
    interleave in any way with clock edges, and let the strobe be asserted
    between any two statements.  Whatever statements and clock edges follow,
    the data line receives the live register as it is at the strobe, least
    significant bit first, and then zeros, one level per clock edge, through
    a data pin that stays an output, and the mode stays CD32. *)
Theorem X16_report_under_preemption (w0 : World) (pre post : list Action) :
  in_session w0 -> unarmed w0 \/ within_timeout w0 ->
  strobe_free pre = true -> strobe_free post = true ->
  let c1 := prun (w0, Halt) pre in
  let c2 := prun c1 (Strobe false :: post) in
  let n := length (filter is_clock_edge post) in
  data_line (fst c2) =
    data_line (fst c1) ++
    firstn (S n) (bits_lsb_first (buttonsLive (fst c1)) ++ repeat false (S n)) /\
  in_session (fst c2).
Proof.
  intros Hs [Hq|Hq] Hpre Hpost.
  - apply (report_session unarmed); try assumption.
    + intros w w' H1 _ _ Hw. unfold unarmed in *. congruence.
    + apply loop_timeout_p_unarmed.
    + now split.
  - apply (report_session within_timeout); try assumption.
    + intros w w' H1 H2 H3 Hw k. unfold within_timeout in *.
      rewrite H1, H2, H3. apply Hw.
    + apply loop_timeout_p_within.
    + now split.
Qed.

Lemma X16_witness :
  let w0 := run booted [EvPadMode false] in
  let pre := Next (pad start_pressed 127 127 127 127) :: repeat Tick 8 in
  let post := [ClockEdge; Tick; ClockEdge; ClockEdge; Tick; Tick; ClockEdge;
               ClockEdge; Next idle_pad; Tick; ClockEdge; Tick; ClockEdge; Tick] in
  (data_line (fst (prun (prun (w0, Halt) pre) (Strobe false :: post))) =
   data_line (fst (prun (w0, Halt) pre)) ++
   [true; true; true; true; true; true; false; true]) /\
  (lastSwitchedTime second_report = 1000 /\
   data_line (fst (prun (prun (second_report, Halt) [Next idle_pad; Tick])
                     (Strobe false :: post))) =
   data_line (fst (prun (second_report, Halt) [Next idle_pad; Tick])) ++
   [true; true; true; true; true; true; false; true]).
Proof.
  intros w0 pre post.
  assert (Hs : in_session w0).
  { unfold in_session.
    repeat split; try reflexivity; vm_compute; intro H; discriminate H. }
  assert (Hs2 : in_session second_report).
  { unfold in_session.
    repeat split; try reflexivity; vm_compute; intro H; discriminate H. }
  assert (Hq2 : within_timeout second_report).
  { intros k Hk. destruct k as [|k].
    - vm_compute in Hk. inversion Hk.
    - vm_compute. intro H; discriminate H. }
  pose proof (proj1 (X16_report_under_preemption w0 pre post Hs
                       (or_introl eq_refl) eq_refl eq_refl)) as H1.
  pose proof (proj1 (X16_report_under_preemption second_report
                       [Next idle_pad; Tick] post Hs2
                       (or_intror Hq2) eq_refl eq_refl)) as H2.
  split; [|split].
  - refine (eq_trans H1 _). vm_compute. reflexivity.
  - vm_compute. reflexivity.
  - refine (eq_trans H2 _). vm_compute. reflexivity.
Defined.
